(** * SEO_Optimizer: the multi-page crawl-and-analyze pipeline

    A shallow embedding of the crawl pipeline of the repository
    (sitemap discovery, link discovery, frontier construction, page
    analysis orchestration, batching and report aggregation) together
    with the properties of its natural-language specification.

    Conventions.
    - A JavaScript string is modelled by the [string] that holds its UTF-8
      encoding.  White space ([trim], [\s]), line terminators and [length]
      (the number of UTF-16 code units) are those of ECMAScript on that
      encoding; letter case is given a meaning in the ASCII range.
    - JavaScript [Set] and [Map] objects iterate in insertion order and are
      modelled by lists.
    - The network, the clock-free parts of the platform (gunzip, text
      decoding, date parsing) and the analyzers are explicit parameters.
    - A thrown exception is the [Throw] constructor of [result]. *)

From Stdlib Require Import String Ascii.
From Stdlib Require Import List Arith ZArith QArith Qround Lia Lqa Bool.
From Stdlib Require Import DecimalString DecimalN DecimalNat.
From Equations Require Import Equations.
Import ListNotations.

Local Open Scope string_scope.
Local Open Scope list_scope.
Local Open Scope nat_scope.

(** String concatenation, JavaScript's [+] on strings. *)
Infix "+++" := String.append (right associativity, at level 60).

(* ===================================================================== *)
(** * JavaScript values *)
(* ===================================================================== *)

(** Completion of a call: a value or a thrown error. *)
Inductive result (E A : Type) : Type :=
| Return (a : A)
| Throw (e : E).
Arguments Return {E A} a.
Arguments Throw {E A} e.

Definition rbind {E A B} (r : result E A) (k : A -> result E B) : result E B :=
  match r with
  | Return a => k a
  | Throw e => Throw e
  end.

Notation "'let*' x ':=' r 'in' k" := (rbind r (fun x => k))
  (at level 10, x pattern, r at level 100, k at level 200).

(** [try { r } catch (e) { h e }] *)
Definition try_catch {E A} (r : result E A) (h : E -> A) : A :=
  match r with
  | Return a => a
  | Throw e => h e
  end.

Module JSString.

(** ** Character classes *)

Definition code (c : ascii) : nat := nat_of_ascii c.

Definition in_range (lo hi : nat) (c : ascii) : bool :=
  (lo <=? code c) && (code c <=? hi).

(** The white space of one byte: TAB, LF, VT, FF, CR and SPACE. *)
Definition is_ws (c : ascii) : bool :=
  in_range 9 13 c || (code c =? 32).

(** The white space of two and three bytes: U+00A0; U+1680, U+2000 to
    U+200A, U+2028, U+2029, U+202F, U+205F, U+3000 and U+FEFF. *)
Definition is_ws2 (c1 c2 : ascii) : bool :=
  (code c1 =? 194) && (code c2 =? 160).

Definition is_ws3 (c1 c2 c3 : ascii) : bool :=
  ((code c1 =? 225) && (code c2 =? 154) && (code c3 =? 128))
  || ((code c1 =? 226) && (code c2 =? 128)
      && (in_range 128 138 c3 || in_range 168 169 c3 || (code c3 =? 175)))
  || ((code c1 =? 226) && (code c2 =? 129) && (code c3 =? 159))
  || ((code c1 =? 227) && (code c2 =? 128) && (code c3 =? 128))
  || ((code c1 =? 239) && (code c2 =? 187) && (code c3 =? 191)).

Definition is_digit (c : ascii) : bool := in_range 48 57 c.
Definition is_upper (c : ascii) : bool := in_range 65 90 c.
Definition is_lower (c : ascii) : bool := in_range 97 122 c.
Definition is_alpha (c : ascii) : bool := is_upper c || is_lower c.
Definition is_alnum (c : ascii) : bool := is_alpha c || is_digit c.
Definition is_hex (c : ascii) : bool :=
  is_digit c || in_range 65 70 c || in_range 97 102 c.

(** [\w] *)
Definition is_word (c : ascii) : bool := is_alnum c || (code c =? 95).

(** Line terminators, which [.] does not match: LF and CR, of one byte,
    and U+2028 and U+2029. *)
Definition is_line_terminator (c : ascii) : bool :=
  (code c =? 10) || (code c =? 13).

Definition is_line_terminator3 (c1 c2 c3 : ascii) : bool :=
  (code c1 =? 226) && (code c2 =? 128) && in_range 168 169 c3.

Definition lower (c : ascii) : ascii :=
  if is_upper c then ascii_of_nat (code c + 32) else c.

(** Equality of characters under the [i] flag. *)
Definition eqb_ci (a b : ascii) : bool := Ascii.eqb (lower a) (lower b).

(** ** String methods *)

Fixpoint toLowerCase (s : string) : string :=
  match s with
  | "" => ""
  | String c r => String (lower c) (toLowerCase r)
  end.

Definition startsWith (s p : string) : bool := String.prefix p s.

(** Case-insensitive [startsWith]; returns the remainder. *)
Fixpoint strip_prefix_ci (p s : string) : option string :=
  match p, s with
  | "", _ => Some s
  | String a p', String b s' => if eqb_ci a b then strip_prefix_ci p' s' else None
  | String _ _, "" => None
  end.

Fixpoint strip_prefix (p s : string) : option string :=
  match p, s with
  | "", _ => Some s
  | String a p', String b s' => if Ascii.eqb a b then strip_prefix p' s' else None
  | String _ _, "" => None
  end.

Fixpoint includes (s sub : string) : bool :=
  String.prefix sub s ||
  match s with
  | "" => false
  | String _ r => includes r sub
  end.

Fixpoint endsWith (s p : string) : bool :=
  String.eqb s p ||
  match s with
  | "" => false
  | String _ r => endsWith r p
  end.

Fixpoint dropWhile (p : ascii -> bool) (s : string) : string :=
  match s with
  | "" => ""
  | String c r => if p c then dropWhile p r else s
  end.

(** [break_at p s] splits [s] in front of the first character that
    satisfies [p]. *)
Fixpoint break_at (p : ascii -> bool) (s : string) : string * string :=
  match s with
  | "" => ("", "")
  | String c r =>
      if p c then ("", s)
      else let (a, b) := break_at p r in (String c a, b)
  end.

Fixpoint forallb_str (p : ascii -> bool) (s : string) : bool :=
  match s with
  | "" => true
  | String c r => p c && forallb_str p r
  end.

(** [\s], anchored: the rest of the input after one white space
    character (WhiteSpace or LineTerminator). *)
Definition ws_prefix (s : string) : option string :=
  match s with
  | String c1 r1 =>
      if is_ws c1 then Some r1
      else match r1 with
           | String c2 r2 =>
               if is_ws2 c1 c2 then Some r2
               else match r2 with
                    | String c3 r3 => if is_ws3 c1 c2 c3 then Some r3 else None
                    | "" => None
                    end
           | "" => None
           end
  | "" => None
  end.

Definition starts_ws (s : string) : bool :=
  match ws_prefix s with Some _ => true | None => false end.

Fixpoint trimStart (s : string) : string :=
  match s with
  | String c1 r1 =>
      if is_ws c1 then trimStart r1
      else match r1 with
           | String c2 r2 =>
               if is_ws2 c1 c2 then trimStart r2
               else match r2 with
                    | String c3 r3 => if is_ws3 c1 c2 c3 then trimStart r3 else s
                    | "" => s
                    end
           | "" => s
           end
  | "" => ""
  end.

(** The string consists of white space only. *)
Definition blank (s : string) : bool := String.eqb (trimStart s) "".

Fixpoint dropWhileEnd (p : ascii -> bool) (s : string) : string :=
  match s with
  | "" => ""
  | String c r =>
      match dropWhileEnd p r with
      | "" => if p c then "" else String c ""
      | r' => String c r'
      end
  end.

(** The string up to its last character that is no white space. *)
Fixpoint trimEnd (s : string) : string :=
  match s with
  | "" => ""
  | String c r => if blank s then "" else String c (trimEnd r)
  end.

Fixpoint remove_chars (p : ascii -> bool) (s : string) : string :=
  match s with
  | "" => ""
  | String c r => if p c then remove_chars p r else String c (remove_chars p r)
  end.

Definition trim (s : string) : string := trimEnd (trimStart s).

(** [s.length]: the number of UTF-16 code units.  A character of one,
    two or three bytes is one unit, a character of four bytes is two. *)
Fixpoint js_length (s : string) : nat :=
  match s with
  | "" => 0
  | String c r =>
      (if code c <? 128 then 1
       else if code c <? 192 then 0
       else if code c <? 240 then 1
       else 2) + js_length r
  end.

(** [[^\s>]+]-like scans: the text in front of the first white space
    character or character that satisfies [p]. *)
Fixpoint until_ws_or (p : ascii -> bool) (s : string) : string :=
  match s with
  | "" => ""
  | String c r => if p c || starts_ws s then "" else String c (until_ws_or p r)
  end.

(** No line terminator occurs in the string: [.*] matches all of it. *)
Fixpoint no_line_terminator (s : string) : bool :=
  match s with
  | "" => true
  | String c1 r1 =>
      negb (is_line_terminator c1)
      && match r1 with
         | String c2 (String c3 _) => negb (is_line_terminator3 c1 c2 c3)
         | _ => true
         end
      && no_line_terminator r1
  end.

(** [s.split(sep)] for a one-character separator. *)
Fixpoint split_char (sep : ascii -> bool) (s : string) : list string :=
  match s with
  | "" => [""]
  | String c r =>
      if sep c then "" :: split_char sep r
      else match split_char sep r with
           | [] => [String c ""]
           | x :: xs => String c x :: xs
           end
  end.

(** [s.replace(/\/$/, '')] *)
Fixpoint dropTrailingSlash (s : string) : string :=
  match s with
  | "" => ""
  | String c r =>
      match r with
      | "" => if Ascii.eqb c "/" then "" else s
      | _ => String c (dropTrailingSlash r)
      end
  end.

(** [s || d] on strings: the empty string is falsy. *)
Definition or_else (s d : string) : string :=
  match s with "" => d | _ => s end.

End JSString.
Export JSString.

(* ===================================================================== *)
(** * The platform's URL class *)
(* ===================================================================== *)

(** A model of the WHATWG URL parser and serializer as used through
    [new URL(input)] and [new URL(input, base)], for [http] and [https]
    URLs with a domain host.  [None] stands for the [TypeError] of the
    constructor.  Outside the modelled grammar (credentials, IP-address
    hosts, host characters other than letters, digits, [-], [.] and [_],
    schemes other than [http] and [https]) the model also answers [None];
    the statements below only use inputs inside the grammar. *)
Module URL.

Record t : Type := mk {
  scheme : string;
  hostname : string;
  port : option N;
  path : list string;
  query : option string;
  fragment : option string
}.

Definition default_port (sch : string) : option N :=
  if String.eqb sch "http" then Some 80%N
  else if String.eqb sch "https" then Some 443%N
  else None.

Definition is_special (sch : string) : bool :=
  String.eqb sch "http" || String.eqb sch "https".

(** ** Serializer and getters *)

Definition decimal (n : N) : string := NilEmpty.string_of_uint (N.to_uint n).

Fixpoint path_text (segs : list string) : string :=
  match segs with
  | [] => ""
  | seg :: rest => "/" +++ seg +++ path_text rest
  end.

Definition protocol (u : t) : string := scheme u +++ ":".

Definition host (u : t) : string :=
  hostname u +++ match port u with
                 | None => ""
                 | Some p => ":" +++ decimal p
                 end.

Definition pathname (u : t) : string := path_text (path u).

Definition search (u : t) : string :=
  match query u with
  | None | Some "" => ""
  | Some q => "?" +++ q
  end.

Definition hash (u : t) : string :=
  match fragment u with
  | None | Some "" => ""
  | Some f => "#" +++ f
  end.

Definition origin (u : t) : string := scheme u +++ "://" +++ host u.

Definition href (u : t) : string :=
  scheme u +++ "://" +++ host u +++ pathname u
    +++ match query u with None => "" | Some q => "?" +++ q end
    +++ match fragment u with None => "" | Some f => "#" +++ f end.

(** ** Percent-encoding *)

Definition hex_digit (n : nat) : ascii :=
  match String.get n "0123456789ABCDEF" with
  | Some c => c
  | None => "0"%char
  end.

Definition percent (c : ascii) : string :=
  String "%" (String (hex_digit (code c / 16)) (String (hex_digit (code c mod 16)) "")).

Fixpoint encode (set : ascii -> bool) (s : string) : string :=
  match s with
  | "" => ""
  | String c r => (if set c then percent c else String c "") +++ encode set r
  end.

Definition is_one_of (chars : string) (c : ascii) : bool :=
  negb (forallb_str (fun d => negb (Ascii.eqb c d)) chars).

Definition dquote : ascii := ascii_of_nat 34.

Definition c0_control_set (c : ascii) : bool := (code c <=? 31) || (127 <=? code c).
Definition fragment_set (c : ascii) : bool :=
  c0_control_set c || is_one_of " <>`" c || Ascii.eqb c dquote.
Definition query_set (c : ascii) : bool :=
  c0_control_set c || is_one_of " #<>" c || Ascii.eqb c dquote.
Definition special_query_set (c : ascii) : bool :=
  query_set c || is_one_of "'" c.
Definition path_set (c : ascii) : bool :=
  query_set c || is_one_of "?`{}" c.

(** ** Parser *)

Definition is_c0_or_space (c : ascii) : bool := code c <=? 32.
Definition is_tab_or_newline (c : ascii) : bool :=
  (code c =? 9) || (code c =? 10) || (code c =? 13).

(** Leading and trailing C0 controls and spaces are stripped, then every
    tab and newline is removed. *)
Definition preprocess (s : string) : string :=
  remove_chars is_tab_or_newline
    (dropWhileEnd is_c0_or_space (dropWhile is_c0_or_space s)).

Definition is_scheme_char (c : ascii) : bool := is_alnum c || is_one_of "+-." c.
Definition is_slash (c : ascii) : bool := is_one_of "/\" c.
Definition is_authority_end (c : ascii) : bool := is_one_of "/\?#" c.
Definition is_path_end (c : ascii) : bool := is_one_of "?#" c.
Definition is_colon (c : ascii) : bool := Ascii.eqb c ":".
Definition is_hash (c : ascii) : bool := Ascii.eqb c "#".
Definition is_dot (c : ascii) : bool := Ascii.eqb c ".".

(** Scheme start state and scheme state: a letter, then letters, digits,
    [+], [-], [.] up to a colon; the scheme is lower-cased. *)
Definition parse_scheme (s : string) : option (string * string) :=
  let (sch, rest) := break_at (fun c => negb (is_scheme_char c)) s in
  match sch, rest with
  | String c0 _, String ":" r =>
      if is_alpha c0 then Some (toLowerCase sch, r) else None
  | _, _ => None
  end.

(** The host "ends in a number" (and is then parsed as an IPv4 address)
    when its last label is made of digits or is a hexadecimal literal. *)
Definition is_numeric_label (l : string) : bool :=
  (negb (String.eqb l "") && forallb_str is_digit l) ||
  match l with
  | String "0" (String x r) => is_one_of "xX" x && forallb_str is_hex r
  | _ => false
  end.

Definition ends_in_number (h : string) : bool :=
  match rev (split_char is_dot h) with
  | "" :: l :: _ => is_numeric_label l
  | l :: _ => is_numeric_label l
  | [] => false
  end.

Definition is_host_char (c : ascii) : bool := is_alnum c || is_one_of "-._" c.

Definition parse_host (h : string) : option string :=
  if String.eqb h "" then None
  else if forallb_str is_host_char h then
    let l := toLowerCase h in
    if ends_in_number l then None else Some l
  else None.

Definition parse_port (sch ps : string) : option (option N) :=
  if String.eqb ps "" then Some None
  else match NilEmpty.uint_of_string ps with
       | None => None
       | Some d =>
           let n := N.of_uint d in
           if (n <=? 65535)%N
           then Some (match default_port sch with
                      | Some p => if (n =? p)%N then None else Some n
                      | None => Some n
                      end)
           else None
       end.

Definition parse_authority (sch a : string) : option (string * option N) :=
  let (h, r) := break_at is_colon a in
  match parse_host h with
  | None => None
  | Some h' =>
      match parse_port sch (match r with String _ ps => ps | "" => "" end) with
      | None => None
      | Some p => Some (h', p)
      end
  end.

Definition is_single_dot (seg : string) : bool :=
  let l := toLowerCase seg in String.eqb l "." || String.eqb l "%2e".

Definition is_double_dot (seg : string) : bool :=
  let l := toLowerCase seg in
  String.eqb l ".." || String.eqb l ".%2e" || String.eqb l "%2e." || String.eqb l "%2e%2e".

Definition shorten (p : list string) : list string := removelast p.

(** Path state: each raw segment is pushed on the path; a single-dot
    segment is skipped and a double-dot segment pops; when such a segment
    is the last one an empty segment is pushed. *)
Fixpoint path_segments (acc raw : list string) : list string :=
  match raw with
  | [] => acc
  | seg :: rest =>
      let is_last := match rest with [] => true | _ => false end in
      if is_double_dot seg
      then path_segments (if is_last then shorten acc ++ [""] else shorten acc) rest
      else if is_single_dot seg
      then path_segments (if is_last then acc ++ [""] else acc) rest
      else path_segments (acc ++ [encode path_set seg]) rest
  end.

Definition parse_path (acc : list string) (s : string) : list string :=
  path_segments acc (split_char is_slash s).

Definition parse_query_fragment (r : string) : option string * option string :=
  match r with
  | String "?" r' =>
      let (q, r'') := break_at is_hash r' in
      (Some (encode special_query_set q),
       match r'' with
       | String _ f => Some (encode fragment_set f)
       | "" => None
       end)
  | String "#" f => (None, Some (encode fragment_set f))
  | _ => (None, None)
  end.

Definition strip_slash (s : string) : string :=
  match s with
  | String c r => if is_slash c then r else s
  | "" => ""
  end.

(** Special authority ignore slashes state, authority, host and port
    states, path start state, path, query and fragment states. *)
Definition parse_after_scheme (sch rest : string) : option t :=
  let r := dropWhile is_slash rest in
  let (auth, r1) := break_at is_authority_end r in
  match parse_authority sch auth with
  | None => None
  | Some (h, p) =>
      let (ps, r2) := break_at is_path_end r1 in
      let (q, f) := parse_query_fragment r2 in
      Some (mk sch h p (parse_path [] (strip_slash ps)) q f)
  end.

(** [new URL(input)] *)
Definition parse (input : string) : option t :=
  let s := preprocess input in
  match parse_scheme s with
  | Some (sch, rest) => if is_special sch then parse_after_scheme sch rest else None
  | None => None
  end.

(** Relative state, relative slash state; the base is an [http] or
    [https] URL. *)
Definition parse_relative (s : string) (base : t) : option t :=
  match s with
  | "" =>
      Some (mk (scheme base) (hostname base) (port base) (path base) (query base) None)
  | String c r =>
      if is_slash c then
        match r with
        | String c2 r2 =>
            if is_slash c2 then parse_after_scheme (scheme base) r2
            else
              let (ps, r') := break_at is_path_end r in
              let (q, f) := parse_query_fragment r' in
              Some (mk (scheme base) (hostname base) (port base) (parse_path [] ps) q f)
        | "" =>
            Some (mk (scheme base) (hostname base) (port base) (parse_path [] "") None None)
        end
      else if Ascii.eqb c "?" then
        let (q, f) := parse_query_fragment s in
        Some (mk (scheme base) (hostname base) (port base) (path base) q f)
      else if Ascii.eqb c "#" then
        Some (mk (scheme base) (hostname base) (port base) (path base) (query base)
                 (Some (encode fragment_set r)))
      else
        let (ps, r') := break_at is_path_end s in
        let (q, f) := parse_query_fragment r' in
        Some (mk (scheme base) (hostname base) (port base)
                 (parse_path (shorten (path base)) ps) q f)
  end.

(** [new URL(input, base)] *)
Definition parse_with_base (input base : string) : option t :=
  match parse base with
  | None => None
  | Some b =>
      let s := preprocess input in
      match parse_scheme s with
      | Some (sch, rest) =>
          if is_special sch then
            if String.eqb sch (scheme b) then
              (* special relative or authority state *)
              if startsWith rest "//" then parse_after_scheme sch rest
              else parse_relative rest b
            else parse_after_scheme sch rest
          else None
      | None => parse_relative s b
      end
  end.

End URL.

(* ===================================================================== *)
(** * Numbers, issues, errors and configuration *)
(* ===================================================================== *)

(** JavaScript numbers.  A finite double is represented by the rational it
    denotes and the arithmetic on finite values is exact; [NaN] and the two
    infinities are kept apart because the code tests for them. *)
Inductive number : Type :=
| NaN
| Infinity (negative : bool)
| Finite (q : Q).

(** Values of type [any] that can sit in a [score] field. *)
Inductive any : Type :=
| Undefined
| Null
| Str (s : string)
| Num (n : number).

Definition of_Z (z : Z) : any := Num (Finite (inject_Z z)).

(** [Math.round]: the nearest integer, halves rounded up. *)
Definition Math_round (q : Q) : Z := Qfloor (q + (1 # 2)).

Definition nat_to_string (n : nat) : string := NilEmpty.string_of_uint (Nat.to_uint n).

Inductive IssueType := IssueError | IssueWarning | IssueSuccess | IssueInfo.
Inductive IssuePriority := High | Medium | Low.
Inductive IssueCategory := Content | Technical | Performance | Security.

Record Issue : Type := createIssue {
  type : IssueType;
  message : string;
  priority : IssuePriority;
  category : IssueCategory
}.

Definition IssueType_eqb (a b : IssueType) : bool :=
  match a, b with
  | IssueError, IssueError | IssueWarning, IssueWarning
  | IssueSuccess, IssueSuccess | IssueInfo, IssueInfo => true
  | _, _ => false
  end.

Definition createErrorIssue (m : string) : Issue := createIssue IssueError m High Content.
Definition createWarningIssue (m : string) (p : IssuePriority) : Issue :=
  createIssue IssueWarning m p Content.
Definition createSuccessIssue (m : string) : Issue := createIssue IssueSuccess m Low Content.
Definition createInfoIssue (m : string) : Issue := createIssue IssueInfo m Low Content.

(** A thrown [Error] object: its [name] and [message]. *)
Record Error : Type := mkError {
  err_name : string;
  err_message : string
}.

Definition new_Error (m : string) : Error := mkError "Error" m.
Definition TypeError_invalid_URL : Error := mkError "TypeError" "Invalid URL".

(** [new URL(s)] and [new URL(s, base)] as throwing calls. *)
Definition new_URL (s : string) : result Error URL.t :=
  match URL.parse s with
  | Some u => Return u
  | None => Throw TypeError_invalid_URL
  end.

Definition new_URL2 (s base : string) : result Error URL.t :=
  match URL.parse_with_base s base with
  | Some u => Return u
  | None => Throw TypeError_invalid_URL
  end.

(** The fields of [CONFIG] that the pipeline reads.  Each one comes from
    an environment variable, with the default below. *)
Record SEOConfig : Type := {
  DEFAULT_TIMEOUT_MS : Z;
  ANALYSIS_TIMEOUT_MS : Z;
  MAX_INTERNAL_URLS : nat
}.

Definition CONFIG_default : SEOConfig :=
  {| DEFAULT_TIMEOUT_MS := 10000%Z;
     ANALYSIS_TIMEOUT_MS := 30000%Z;
     MAX_INTERNAL_URLS := 99 |}.

(** Insertion-ordered [Set<string>] and [Map<string, V>]. *)
Definition Set_has (x : string) (s : list string) : bool := existsb (String.eqb x) s.
Definition Set_add (x : string) (s : list string) : list string :=
  if Set_has x s then s else s ++ [x].

Fixpoint Map_get {V} (k : string) (m : list (string * V)) : option V :=
  match m with
  | [] => None
  | (k', v) :: r => if String.eqb k k' then Some v else Map_get k r
  end.

Definition Map_has {V} (k : string) (m : list (string * V)) : bool :=
  match Map_get k m with Some _ => true | None => false end.

Fixpoint Map_set {V} (k : string) (v : V) (m : list (string * V)) : list (string * V) :=
  match m with
  | [] => [(k, v)]
  | (k', v') :: r => if String.eqb k k' then (k, v) :: r else (k', v') :: Map_set k v r
  end.

Definition Map_values {V} (m : list (string * V)) : list V := map snd m.

(** [new Map(entries)] *)
Definition Map_of {V} (entries : list (string * V)) : list (string * V) :=
  fold_left (fun m e => Map_set (fst e) (snd e) m) entries [].

(** [a.slice(0, n)] and [a.slice(i, j)] for [0 <= i <= j]. *)
Definition slice {A} (i j : nat) (a : list A) : list A := firstn (j - i) (skipn i a).

(* ===================================================================== *)
(** * utils/url-utils: normalizeUrl *)
(* ===================================================================== *)

Module UrlUtils.

(** [url.replace(/^(www\.|https?:\/\/)/, '')] *)
Definition strip_user_prefix (url : string) : string :=
  match strip_prefix "www." url with
  | Some r => r
  | None =>
      match strip_prefix "https://" url with
      | Some r => r
      | None =>
          match strip_prefix "http://" url with
          | Some r => r
          | None => url
          end
      end
  end.

Definition wrap (e : Error) : Error :=
  new_Error ("URL inválida: " +++ err_message e).

Definition normalizeUrl (url : string) : result Error string :=
  let url := trim url in
  let url := strip_user_prefix url in
  let url :=
    if negb (startsWith url "http://") && negb (startsWith url "https://")
    then "https://" +++ url else url in
  match new_URL url with
  | Throw e => Throw (wrap e)
  | Return urlObj =>
      (* the host name of a parsed URL is ASCII: its length is its number of bytes *)
      if String.eqb (URL.hostname urlObj) "" || (String.length (URL.hostname urlObj) <? 3)
      then Throw (wrap (new_Error "Hostname inválido"))
      else if negb (includes (URL.hostname urlObj) ".")
      then Throw (wrap (new_Error "Dominio inválido - debe incluir TLD"))
      else Return (URL.href urlObj)
  end.

End UrlUtils.

(* ===================================================================== *)
(** * Regular-expression matching *)
(* ===================================================================== *)

Module Regex.

(** The first position of [s], from the left, at which the anchored
    matcher [m] succeeds: how a non-global [match] searches. *)
Fixpoint find_first {A} (m : string -> option A) (s : string) : option A :=
  match m s with
  | Some a => Some a
  | None =>
      match s with
      | "" => None
      | String _ r => find_first m r
      end
  end.

(** All successive matches of a global regular expression.  The anchored
    matcher returns the matched text and the rest of the input; every
    match consumes at least one character, so [String.length s] steps
    are enough. *)
Fixpoint match_all_from (m : string -> option (string * string))
         (steps : nat) (s : string) : list string :=
  match steps with
  | 0 => []
  | S n =>
      match m s with
      | Some (matched, rest) => matched :: match_all_from m n rest
      | None =>
          match s with
          | "" => []
          | String _ r => match_all_from m n r
          end
      end
  end.

Definition match_all (m : string -> option (string * string)) (s : string) : list string :=
  match_all_from m (String.length s) s.

Definition is_gt (c : ascii) : bool := Ascii.eqb c ">".
Definition is_lt (c : ascii) : bool := Ascii.eqb c "<".
Definition is_quote (c : ascii) : bool := Ascii.eqb c URL.dquote || Ascii.eqb c "'".

(** [<tag[^>]*>] with the [i] flag, anchored: the text after the closing
    [>] is returned. *)
Definition open_tag (tag : string) (s : string) : option (string * string) :=
  match strip_prefix_ci ("<" +++ tag) s with
  | None => None
  | Some r =>
      let (attrs, rest) := break_at is_gt r in
      match rest with
      | String _ rest' => Some (attrs, rest')
      | "" => None
      end
  end.

(** [/<a\s+[^>]*>/i], anchored: matched text and rest. *)
Definition anchor_tag (s : string) : option (string * string) :=
  match s with
  | String lt (String a r) =>
      if is_lt lt && eqb_ci a "a" && starts_ws r then
        let (body, rest) := break_at is_gt r in
        match rest with
        | String gt rest' =>
            Some (String lt (String a body) +++ String gt "", rest')
        | "" => None
        end
      else None
  | _ => None
  end.

(** The [href] pattern of the links analyzer, with the [i] flag and
    anchored: [href\s*=\s*Q([^Q]+)Q|href\s*=\s*([^\s>]+)] where [Q] is
    a single or a double quote; the result is [m[1] || m[2]]. *)
Definition href_attr (s : string) : option string :=
  match strip_prefix_ci "href" s with
  | None => None
  | Some r =>
      match trimStart r with
      | String "=" r2 =>
          let r3 := trimStart r2 in
          let quoted :=
            match r3 with
            | String q r4 =>
                if is_quote q then
                  let (v, r5) := break_at is_quote r4 in
                  match v, r5 with
                  | String _ _, String _ _ => Some v
                  | _, _ => None
                  end
                else None
            | "" => None
            end in
          match quoted with
          | Some v => Some v
          | None =>
              match until_ws_or is_gt r3 with
              | "" => None
              | v => Some v
              end
          end
      | _ => None
      end
  end.

(** [/<tag[^>]*>([^<]+)<\/tag>/i], anchored: the captured text and the
    rest of the input after the closing tag. *)
Definition element (tag : string) (s : string) : option (string * string) :=
  match open_tag tag s with
  | None => None
  | Some (_, r) =>
      let (text, rest) := break_at is_lt r in
      match text with
      | "" => None
      | _ =>
          match strip_prefix_ci ("</" +++ tag +++ ">") rest with
          | Some rest' => Some (text, rest')
          | None => None
          end
      end
  end.

End Regex.

(* ===================================================================== *)
(** * analyzers/focused/utils/robots-sitemap-utils: sitemap discovery *)
(* ===================================================================== *)

(** What [fetch] delivers for a URL: the time after which the response
    headers have arrived, the status and the body. *)
Record HttpResponse : Type := {
  latency : Z;
  status : N;
  body : list Byte.byte
}.

Definition ok (r : HttpResponse) : bool := ((200 <=? status r) && (status r <=? 299))%N.

(** The platform services used by sitemap discovery. *)
Record Platform : Type := {
  fetch : string -> option HttpResponse;          (* [None]: the request fails *)
  gunzipSync : list Byte.byte -> option (list Byte.byte);  (* [None]: throws *)
  Buffer_toString : list Byte.byte -> string;     (* [buf.toString('utf-8')] *)
  TextDecoder_decode : list Byte.byte -> string;  (* [new TextDecoder().decode] *)
  Date_is_valid : string -> bool                  (* [!isNaN(new Date(s).getTime())] *)
}.

Record SitemapUrl : Type := {
  url : string;
  lastModified : option string;
  isLowValue : bool
}.

Record SitemapAnalysisOptions : Type := {
  maxChildSitemaps : option nat;
  timeout : option Z;
  childTimeout : option Z;
  maxUrls : option nat;
  detectLowValue : option bool
}.

Definition no_options : SitemapAnalysisOptions :=
  {| maxChildSitemaps := None; timeout := None; childTimeout := None;
     maxUrls := None; detectLowValue := None |}.

(** The object returned by [analyzeSitemap].  [truncated] is declared by
    the [SitemapAnalysis] interface; [responseTime], a wall-clock
    difference, is left out. *)
Record SitemapAnalysis : Type := {
  exists_ : bool;
  accessible : bool;
  isValidXml : bool;
  totalUrls : nat;
  urls : list SitemapUrl;
  childSitemaps : list string;
  sitemap_issues : list Issue;
  sitemap_lastModified : option string;
  truncated : option bool;
  isCompressed : bool;
  lowValueUrls : nat
}.

Module Sitemap.

Import Regex.

(** ** LOW_VALUE_PATTERNS *)

(** [/p\b/i] for a pattern [p] that ends in a word character. *)
Definition word_at (p s : string) : option unit :=
  match strip_prefix_ci p s with
  | Some "" => Some tt
  | Some (String c _) => if is_word c then None else Some tt
  | None => None
  end.

Definition test_word (p s : string) : bool :=
  match find_first (word_at p) s with Some _ => true | None => false end.

Definition test_ci (p s : string) : bool := includes (toLowerCase s) p.

(** [/search\?.*q=$/i] *)
Definition search_q_at (s : string) : option unit :=
  match strip_prefix_ci "search?" s with
  | Some r =>
      if endsWith (toLowerCase r) "q=" && no_line_terminator r
      then Some tt else None
  | None => None
  end.

Definition LOW_VALUE_PATTERNS : list (string -> bool) :=
  [ test_word "/login"; test_word "/register"; test_word "/thank-you";
    test_word "/gracias"; test_word "/404"; test_word "/error";
    test_word "/print"; test_word "/printer-friendly"; test_word "/account";
    test_word "/profile"; test_word "/cart"; test_word "/checkout";
    test_ci "?sort="; test_ci "?filter="; test_ci "?page=";
    fun s => match find_first search_q_at s with Some _ => true | None => false end ].

Definition isLowValuePage (u : string) : bool :=
  existsb (fun pattern => pattern u) LOW_VALUE_PATTERNS.

(** ** isValidISO8601 *)

Fixpoint digits (n : nat) (s : string) : option string :=
  match n with
  | 0 => Some s
  | S n' =>
      match s with
      | String c r => if is_digit c then digits n' r else None
      | "" => None
      end
  end.

Definition lit (c : ascii) (s : string) : option string :=
  match s with
  | String d r => if Ascii.eqb c d then Some r else None
  | "" => None
  end.

Definition seq (p q : string -> option string) (s : string) : option string :=
  match p s with Some r => q r | None => None end.

(** An optional group followed by the continuation [k], with
    backtracking. *)
Definition optional (p : string -> option string) (k : string -> bool) (s : string) : bool :=
  match p s with
  | Some r => k r || k s
  | None => k s
  end.

Definition at_end (s : string) : bool := String.eqb s "".

(** The pattern
    [^\d{4}-\d{2}-\d{2}(T\d{2}:\d{2}(:\d{2}(\.\d{3})?)?([+-]\d{2}:\d{2}|Z)?)?$]. *)
Definition iso8601Regex (s : string) : bool :=
  let date := seq (digits 4) (seq (lit "-") (seq (digits 2) (seq (lit "-") (digits 2)))) in
  let hm := seq (lit "T") (seq (digits 2) (seq (lit ":") (digits 2))) in
  let millis := seq (lit ".") (digits 3) in
  let offset r :=
    match seq (lit "+") (seq (digits 2) (seq (lit ":") (digits 2))) r with
    | Some r' => Some r'
    | None =>
        match seq (lit "-") (seq (digits 2) (seq (lit ":") (digits 2))) r with
        | Some r' => Some r'
        | None => lit "Z" r
        end
    end in
  let zone := optional offset at_end in
  let seconds r :=
    match seq (lit ":") (digits 2) r with
    | Some r' => optional millis zone r' || zone r
    | None => zone r
    end in
  match date s with
  | None => false
  | Some r =>
      match hm r with
      | Some r' => seconds r' || at_end r
      | None => at_end r
      end
  end.

Definition isValidISO8601 (P : Platform) (dateString : string) : bool :=
  if negb (iso8601Regex dateString) then false else Date_is_valid P dateString.

(** ** extractUrlsFromXML *)

(** [s.split(re)] for an anchored matcher [m] that never matches the
    empty string. *)
Fixpoint split_re_from (m : string -> option (string * string))
         (steps : nat) (s : string) : list string :=
  match steps with
  | 0 => [""]
  | S n =>
      match s with
      | "" => [""]
      | String c r =>
          match m s with
          | Some (_, rest) => "" :: split_re_from m n rest
          | None =>
              match split_re_from m n r with
              | [] => [String c ""]
              | x :: xs => String c x :: xs
              end
          end
      end
  end.

Definition split_re (m : string -> option (string * string)) (s : string) : list string :=
  split_re_from m (S (String.length s)) s.

(** [s.substring(0, s.indexOf(sub))], or [None] when [indexOf] is -1. *)
Fixpoint before (sub s : string) : option string :=
  if String.prefix sub s then Some ""
  else match s with
       | "" => None
       | String c r => option_map (String c) (before sub r)
       end.

Definition extractBlock (P : Platform) (block : string) : option (string * option string) :=
  match before "</url>" block with
  | None => None
  | Some urlContent =>
      match find_first (element "loc") urlContent with
      | None => None
      | Some (loc, _) =>
          let lastModified :=
            match find_first (element "lastmod") urlContent with
            | Some (lastMod, _) =>
                let dateStr := trim lastMod in
                if isValidISO8601 P dateStr then Some dateStr else None
            | None => None
            end in
          Some (trim loc, lastModified)
      end
  end.

(** The [try] block of [extractUrlsFromXML]; none of its operations
    throws, so the [catch] branch is not reached. *)
Definition extractUrlsFromXML (P : Platform) (content : string)
  : list (string * option string) :=
  let urlBlocks := skipn 1 (split_re (open_tag "url") content) in
  flat_map (fun block => match extractBlock P block with
                         | Some e => [e]
                         | None => []
                         end) urlBlocks.

(** ** isValidUrl *)

Definition isValidUrl (urlString : string) : bool :=
  match new_URL urlString with
  | Return u => String.eqb (URL.protocol u) "http:" || String.eqb (URL.protocol u) "https:"
  | Throw _ => false
  end.

(** ** fetchSitemapContent *)

Definition AbortError : Error := mkError "AbortError" "This operation was aborted".
Definition fetch_failed : Error := mkError "TypeError" "fetch failed".

Definition isGzipped (uint8Array : list Byte.byte) : bool :=
  match uint8Array with
  | b0 :: b1 :: _ => Byte.eqb b0 Byte.x1f && Byte.eqb b1 Byte.x8b
  | _ => false
  end.

Definition fetchSitemapContent (P : Platform) (u : string) (timeout_ms : Z)
  : result Error (string * bool) :=
  match fetch P u with
  | None => Throw fetch_failed
  | Some response =>
      if (timeout_ms <=? latency response)%Z then Throw AbortError
      else if negb (ok response)
      then Throw (new_Error ("HTTP " +++ URL.decimal (status response)))
      else
        let uint8Array := body response in
        if isGzipped uint8Array then
          match gunzipSync P uint8Array with
          | Some decompressed => Return (Buffer_toString P decompressed, true)
          | None => Return (TextDecoder_decode P uint8Array, false)
          end
        else Return (TextDecoder_decode P uint8Array, false)
  end.

(** ** analyzeSitemap *)

Definition or_default {A} (o : option A) (d : A) : A :=
  match o with Some a => a | None => d end.

Definition isSpecificSitemap (baseUrl : string) : bool :=
  includes baseUrl "sitemap" &&
  (endsWith baseUrl ".xml" || endsWith baseUrl ".xml.gz" || endsWith baseUrl ".txt").

(** The candidate sitemap URLs, in the order in which they are tried. *)
Definition sitemapUrls (baseUrl : string) (robotsSitemap : option string)
  : result Error (list string) :=
  if isSpecificSitemap baseUrl then Return [baseUrl]
  else
    let* u1 := new_URL2 "/sitemap.xml" baseUrl in
    let* u2 := new_URL2 "/sitemap.xml.gz" baseUrl in
    let* u3 := new_URL2 "/sitemap_index.xml" baseUrl in
    let* u4 := new_URL2 "/sitemap_index.xml.gz" baseUrl in
    let* u5 := new_URL2 "/sitemap.txt" baseUrl in
    let hinted :=
      match robotsSitemap with
      | None | Some "" => []
      | Some h => [h]
      end in
    Return (filter isValidUrl
              (hinted ++ [URL.href u1; URL.href u2; URL.href u3; URL.href u4; URL.href u5])).

Definition childIssue (childSitemapUrl : string) (childError : Error) : Issue :=
  createIssue IssueWarning
    ("Error al procesar sitemap hijo " +++ childSitemapUrl +++ ": " +++ err_message childError)
    Low Technical.

(** The loop over the child sitemaps of a sitemap index.  [child] is the
    recursive call; [None] means that a child analysis does not return. *)
Fixpoint childLoop (child : string -> option (result Error SitemapAnalysis))
         (cs : list string) (acc_urls : list SitemapUrl) (acc_issues : list Issue)
  : option (list SitemapUrl * list Issue) :=
  match cs with
  | [] => Some (acc_urls, acc_issues)
  | childSitemapUrl :: rest =>
      match child childSitemapUrl with
      | None => None
      | Some (Return childResult) =>
          childLoop child rest (acc_urls ++ urls childResult)
                    (acc_issues ++ sitemap_issues childResult)
      | Some (Throw childError) =>
          childLoop child rest acc_urls
                    (acc_issues ++ [childIssue childSitemapUrl childError])
      end
  end.

Definition is_newline (c : ascii) : bool := code c =? 10.

Definition countLowValue (l : list SitemapUrl) : nat := List.length (filter isLowValue l).

(** The body of the [try] block once a candidate has been fetched. *)
Definition analyzeContent (P : Platform)
           (child : string -> option (result Error SitemapAnalysis))
           (options : SitemapAnalysisOptions)
           (content : string) (compressed : bool) : option SitemapAnalysis :=
  let maxChildSitemaps_ := or_default (maxChildSitemaps options) 50 in
  let maxUrls_ := or_default (maxUrls options) 1000 in
  let detectLowValue_ := or_default (detectLowValue options) true in
  let hasXmlDeclaration := includes content "<?xml" in
  let hasUrlset := includes content "<urlset" in
  let hasSitemapIndex := includes content "<sitemapindex" in
  if hasUrlset || hasSitemapIndex then
    let issues0 :=
      if negb hasXmlDeclaration
      then [createIssue IssueWarning "Sitemap XML no tiene declaración XML" Low Technical]
      else [] in
    let walked :=
      if hasSitemapIndex then
        let cs := firstn maxChildSitemaps_
                    (filter isValidUrl
                       (map trim (match_all (element "loc") content))) in
        match childLoop child cs [] issues0 with
        | Some (us, is_) => Some (us, is_, cs)
        | None => None
        end
      else
        Some (map (fun e => {| url := fst e;
                               lastModified := snd e;
                               isLowValue := if detectLowValue_
                                             then isLowValuePage (fst e) else false |})
                  (firstn maxUrls_ (extractUrlsFromXML P content)),
              issues0, [])
    in
    match walked with
    | None => None
    | Some (us, issues1, cs) =>
        let issues2 :=
          if (List.length us =? 0) && (List.length cs =? 0)
          then issues1 ++ [createIssue IssueWarning "Sitemap no contiene URLs" Medium Technical]
          else issues1 in
        let lowValue := countLowValue us in
        (* [lowValueUrls > urls.length * 0.2], computed exactly *)
        let issues3 :=
          if detectLowValue_ && (List.length us <? 5 * lowValue)
          then issues2 ++ [createIssue IssueWarning
                             (nat_to_string lowValue
                                +++ " URLs de bajo valor detectadas (login, cart, etc.)")
                             Medium Technical]
          else issues2 in
        let issues4 :=
          if List.length issues3 =? 0
          then [createIssue IssueSuccess "Sitemap configurado correctamente" Low Technical]
          else issues3 in
        Some {| exists_ := true; accessible := true; isValidXml := true;
                totalUrls := List.length us; urls := us; childSitemaps := cs;
                sitemap_issues := issues4; sitemap_lastModified := None;
                truncated := None; isCompressed := compressed;
                lowValueUrls := countLowValue us |}
    end
  else
    let lines := filter (fun line => negb (String.eqb (trim line) ""))
                        (split_char is_newline content) in
    let us := map (fun u => {| url := trim u;
                               lastModified := None;
                               isLowValue := if detectLowValue_
                                             then isLowValuePage u else false |})
                  (firstn maxUrls_ lines) in
    let issues :=
      if 0 <? List.length us
      then [createIssue IssueWarning "Sitemap en formato texto plano en lugar de XML" Low Technical]
      else [] in
    Some {| exists_ := true; accessible := true; isValidXml := false;
            totalUrls := List.length us; urls := us; childSitemaps := [];
            sitemap_issues := issues; sitemap_lastModified := None;
            truncated := None; isCompressed := compressed;
            lowValueUrls := countLowValue us |}.

Definition notFound : SitemapAnalysis :=
  {| exists_ := false; accessible := false; isValidXml := false;
     totalUrls := 0; urls := []; childSitemaps := [];
     sitemap_issues :=
       [createIssue IssueError "Sitemap no encontrado o no accesible" High Technical];
     sitemap_lastModified := None; truncated := None; isCompressed := false;
     lowValueUrls := 0 |}.

(** The [for] loop over the candidates: a candidate whose fetch throws is
    skipped, the first one that is fetched decides the result. *)
Fixpoint tryCandidates (P : Platform)
         (child : string -> option (result Error SitemapAnalysis))
         (options : SitemapAnalysisOptions) (timeout_ms : Z)
         (candidates : list string) : option SitemapAnalysis :=
  match candidates with
  | [] => Some notFound
  | sitemapUrl :: rest =>
      match fetchSitemapContent P sitemapUrl timeout_ms with
      | Throw _ => tryCandidates P child options timeout_ms rest
      | Return (content, compressed) => analyzeContent P child options content compressed
      end
  end.

Definition childOptions (options : SitemapAnalysisOptions) (childTimeout_ : Z)
  : SitemapAnalysisOptions :=
  {| maxChildSitemaps := maxChildSitemaps options;
     timeout := Some childTimeout_;
     childTimeout := childTimeout options;
     maxUrls := maxUrls options;
     detectLowValue := detectLowValue options |}.

(** [analyzeSitemap] calls itself on every child of a sitemap index.
    [depth] bounds the nesting of these calls: the answer is [None] when
    the call does not return within that nesting depth. *)
Fixpoint analyzeSitemap (depth : nat) (P : Platform) (baseUrl : string)
         (robotsSitemap : option string) (options : SitemapAnalysisOptions)
         {struct depth} : option (result Error SitemapAnalysis) :=
  match depth with
  | 0 => None
  | S depth' =>
      let timeout_ := or_default (timeout options) 15000%Z in
      let childTimeout_ := or_default (childTimeout options) 10000%Z in
      let child c := analyzeSitemap depth' P c None (childOptions options childTimeout_) in
      match sitemapUrls baseUrl robotsSitemap with
      | Throw e => Some (Throw e)
      | Return candidates =>
          option_map Return (tryCandidates P child options timeout_ candidates)
      end
  end.

End Sitemap.

(* ===================================================================== *)
(** * interfaces/analyzers: analysis context and analyzer results *)
(* ===================================================================== *)

(** The fields of an analyzer's [data] object that the orchestrator and
    the API route read back: its own [issues] array, and, for the links
    and technical analyzers, the internal URLs and the sitemap analysis.
    The other fields are carried through unchanged and are not
    represented. *)
Record AnalyzerData : Type := {
  data_issues : option (list Issue);
  data_internalUrls : option (list string);
  data_sitemap : option SitemapAnalysis
}.

Record AnalysisResult : Type := {
  score : any;
  issues : list Issue;
  data : option AnalyzerData
}.

Record AnalysisContext : Type := {
  ctx_url : string;
  ctx_html : string;
  ctx_status : N;
  ctx_loadTime : Z;
  ctx_isMainPage : bool
}.

(** [analyze(context)]: the analyzer returns a result or throws. *)
Definition SEOAnalyzer : Type := AnalysisContext -> result Error AnalysisResult.

(* ===================================================================== *)
(** * analyzers/focused/links-analyzer *)
(* ===================================================================== *)

Module LinksAnalyzer.

Import Regex UrlUtils.

Record Counters : Type := {
  internal : nat;
  external : nat;
  internalUrlsSet : list string
}.

Definition countInternal (st : Counters) (u : string) : Counters :=
  {| internal := S (internal st); external := external st;
     internalUrlsSet := Set_add u (internalUrlsSet st) |}.

Definition countExternal (st : Counters) : Counters :=
  {| internal := internal st; external := S (external st);
     internalUrlsSet := internalUrlsSet st |}.

(** [link.match(hrefPattern)], then [(m[1] || m[2] || '').trim()]. *)
Definition hrefOf (link : string) : option string :=
  option_map trim (find_first href_attr link).

Definition isIgnored (href : string) : bool :=
  String.eqb href "" || startsWith href "#" || startsWith href "javascript:" ||
  startsWith href "mailto:" || startsWith href "tel:".

(** The body of the first [forEach] of the main-page branch, for an
    extracted [href]. *)
Definition classify (pageUrl domain : string) (st : Counters) (href : string) : Counters :=
  if isIgnored href then st
  else if startsWith href "http" then
    match new_URL href with
    | Return u =>
        if String.eqb (URL.hostname u) domain then countInternal st href
        else countExternal st
    | Throw _ => st
    end
  else
    match new_URL2 href pageUrl with
    | Return absoluteUrl => countInternal st (URL.href absoluteUrl)
    | Throw _ => st
    end.

Definition visitLink (pageUrl domain : string) (st : Counters) (link : string) : Counters :=
  match hrefOf link with
  | Some href => classify pageUrl domain st href
  | None => st
  end.

(** The deduplication key of a normalized internal URL. *)
Definition deduplicationKey (normalizedInternalUrl : string) : result Error string :=
  let* urlObj := new_URL normalizedInternalUrl in
  let pathWithoutTrailingSlash := or_else (dropTrailingSlash (URL.pathname urlObj)) "/" in
  Return (URL.protocol urlObj +++ "//" +++ URL.host urlObj +++ pathWithoutTrailingSlash
            +++ URL.search urlObj +++ URL.hash urlObj).

(** The key under which [internalUrl] is deduplicated: [normalizeUrl]
    followed by [deduplicationKey]. *)
Definition normalizedKey (internalUrl : string) : result Error string :=
  let* normalizedInternalUrl := normalizeUrl internalUrl in
  deduplicationKey normalizedInternalUrl.

(** The second [forEach]: fills [deduplicatedUrlsMap]. *)
Definition dedupStep (normalizedMainUrl : string)
           (acc : result Error (list (string * string))) (internalUrl : string)
  : result Error (list (string * string)) :=
  let* deduplicatedUrlsMap := acc in
  let* normalizedInternalUrl := normalizeUrl internalUrl in
  if String.eqb normalizedInternalUrl normalizedMainUrl then Return deduplicatedUrlsMap
  else
    let* key := deduplicationKey normalizedInternalUrl in
    if negb (Map_has key deduplicatedUrlsMap)
    then Return (Map_set key normalizedInternalUrl deduplicatedUrlsMap)
    else Return deduplicatedUrlsMap.

Definition finalUrls (cfg : SEOConfig) (pageUrl : string) (internalUrlsSet_ : list string)
  : result Error (list string) :=
  let* normalizedMainUrl := normalizeUrl pageUrl in
  let* deduplicatedUrlsMap :=
    fold_left (dedupStep normalizedMainUrl) internalUrlsSet_ (Return []) in
  Return (slice 0 (MAX_INTERNAL_URLS cfg) (Map_values deduplicatedUrlsMap)).

(** The [forEach] of the branch for pages other than the main page. *)
Definition countLink (domain : string) (acc : result Error Counters) (link : string)
  : result Error Counters :=
  let* st := acc in
  match hrefOf link with
  | None => Return st
  | Some href =>
      if startsWith href "#" || startsWith href "javascript:" || startsWith href "mailto:"
      then Return st
      else if startsWith href "http" then
        let* u := new_URL href in
        if String.eqb (URL.hostname u) domain
        then Return {| internal := S (internal st); external := external st;
                       internalUrlsSet := internalUrlsSet st |}
        else Return (countExternal st)
      else Return {| internal := S (internal st); external := external st;
                     internalUrlsSet := internalUrlsSet st |}
  end.

Definition linkIssues (isMainPage : bool) (internal_ external_ found : nat)
  : Z * list Issue :=
  let totalLinks := internal_ + external_ in
  let '(score1, issues1) :=
    if totalLinks =? 0 then
      (95%Z, [createWarningIssue "No se encontraron enlaces en la página" Low])
    else if internal_ =? 0 then
      (97%Z, [createWarningIssue
                "No se encontraron enlaces internos. Considera agregar enlaces a otras páginas del sitio"
                Medium])
    else if external_ =? 0 then
      (100%Z, [createInfoIssue
                 "No se encontraron enlaces externos. Considera agregar enlaces a fuentes relevantes"])
    else
      (100%Z, [createSuccessIssue
                 ("Buena estructura de enlaces: " +++ nat_to_string internal_
                    +++ " internos, " +++ nat_to_string external_ +++ " externos")]) in
  let '(score2, issues2) :=
    if 100 <? internal_ then
      ((score1 - 2)%Z,
       issues1 ++ [createWarningIssue
                     ("Muchos enlaces internos (" +++ nat_to_string internal_
                        +++ "). Considera simplificar la navegación") Low])
    else (score1, issues1) in
  let issues3 :=
    if isMainPage && (0 <? found) then
      issues2 ++ [createSuccessIssue
                    ("Se encontraron " +++ nat_to_string found
                       +++ " URLs internas para análisis")]
    else issues2 in
  (Z.max 0 score2, issues3).

Definition start : Counters := {| internal := 0; external := 0; internalUrlsSet := [] |}.

Definition analyze (cfg : SEOConfig) : SEOAnalyzer := fun context =>
  let pageUrl := ctx_url context in
  let html := ctx_html context in
  let* u := new_URL pageUrl in
  let domain := URL.hostname u in
  let linkMatches := match_all anchor_tag html in
  let* scanned :=
    if ctx_isMainPage context then
      let st := fold_left (visitLink pageUrl domain) linkMatches start in
      let* internalUrls := finalUrls cfg pageUrl (internalUrlsSet st) in
      Return (st, internalUrls)
    else
      let* st := fold_left (countLink domain) linkMatches (Return start) in
      Return (st, [])
    in
  let '(st, internalUrls) := scanned in
  let '(score_, issues_) :=
    linkIssues (ctx_isMainPage context) (internal st) (external st)
               (List.length internalUrls) in
  Return {| score := of_Z score_;
            issues := issues_;
            data := Some {| data_issues := Some issues_;
                            data_internalUrls := Some internalUrls;
                            data_sitemap := None |} |}.

End LinksAnalyzer.

(* ===================================================================== *)
(** * errors/index: standardized errors *)
(* ===================================================================== *)

Module Errors.

Inductive SEOErrorType :=
| VALIDATION | NETWORK | TIMEOUT | URL_FORMAT | ANALYSIS | CONFIG | CACHE | UNKNOWN.

Definition SEOErrorType_value (t : SEOErrorType) : string :=
  match t with
  | VALIDATION => "validation" | NETWORK => "network" | TIMEOUT => "timeout"
  | URL_FORMAT => "url_format" | ANALYSIS => "analysis" | CONFIG => "config"
  | CACHE => "cache" | UNKNOWN => "unknown"
  end.

Inductive ErrorCode :=
| URL_REQUIRED | URL_INVALID_FORMAT | URL_PROTOCOL_MISSING | URL_TOO_LONG
| FETCH_FAILED | CONNECTION_TIMEOUT | DNS_RESOLUTION_FAILED | SSL_ERROR
| HTTP_404 | HTTP_403 | HTTP_500 | HTTP_502 | HTTP_503
| EMPTY_RESPONSE | PAGE_TOO_LARGE | CONTENT_PARSING_FAILED | ANALYZER_FAILED
| CONFIG_INVALID | CACHE_ERROR | INTERNAL_ERROR.

Definition ErrorCode_value (c : ErrorCode) : string :=
  match c with
  | URL_REQUIRED => "URL_REQUIRED" | URL_INVALID_FORMAT => "URL_INVALID_FORMAT"
  | URL_PROTOCOL_MISSING => "URL_PROTOCOL_MISSING" | URL_TOO_LONG => "URL_TOO_LONG"
  | FETCH_FAILED => "FETCH_FAILED" | CONNECTION_TIMEOUT => "CONNECTION_TIMEOUT"
  | DNS_RESOLUTION_FAILED => "DNS_RESOLUTION_FAILED" | SSL_ERROR => "SSL_ERROR"
  | HTTP_404 => "HTTP_404" | HTTP_403 => "HTTP_403" | HTTP_500 => "HTTP_500"
  | HTTP_502 => "HTTP_502" | HTTP_503 => "HTTP_503"
  | EMPTY_RESPONSE => "EMPTY_RESPONSE" | PAGE_TOO_LARGE => "PAGE_TOO_LARGE"
  | CONTENT_PARSING_FAILED => "CONTENT_PARSING_FAILED"
  | ANALYZER_FAILED => "ANALYZER_FAILED" | CONFIG_INVALID => "CONFIG_INVALID"
  | CACHE_ERROR => "CACHE_ERROR" | INTERNAL_ERROR => "INTERNAL_ERROR"
  end.

(** ERROR_DEFINITIONS: type, user message and retryable flag of a code
    (severity and suggested action are not read by the pipeline). *)
Definition ERROR_DEFINITIONS (c : ErrorCode) : SEOErrorType * string * bool :=
  match c with
  | URL_REQUIRED => (VALIDATION, "Por favor ingresa una URL para analizar", false)
  | URL_INVALID_FORMAT => (VALIDATION, "El formato de la URL no es válido", false)
  | URL_PROTOCOL_MISSING => (VALIDATION, "La URL debe incluir http:// o https://", false)
  | URL_TOO_LONG => (VALIDATION, "La URL es demasiado larga", false)
  | FETCH_FAILED => (NETWORK, "No se pudo conectar con el sitio web", true)
  | CONNECTION_TIMEOUT => (TIMEOUT, "El sitio web tardó demasiado en responder", true)
  | DNS_RESOLUTION_FAILED => (NETWORK, "No se pudo resolver el nombre del dominio", true)
  | SSL_ERROR => (NETWORK, "Error de certificado SSL/TLS", false)
  | HTTP_404 => (NETWORK, "La página no existe (Error 404)", false)
  | HTTP_403 => (NETWORK, "Acceso denegado al sitio web (Error 403)", false)
  | HTTP_500 => (NETWORK, "Error interno del servidor (Error 500)", true)
  | HTTP_502 => (NETWORK, "Error de gateway (Error 502)", true)
  | HTTP_503 => (NETWORK, "Servicio no disponible (Error 503)", true)
  | EMPTY_RESPONSE => (ANALYSIS, "El sitio web devolvió una respuesta vacía", true)
  | PAGE_TOO_LARGE => (ANALYSIS, "La página es demasiado grande para analizar", false)
  | CONTENT_PARSING_FAILED =>
      (ANALYSIS, "Error al procesar el contenido de la página", true)
  | ANALYZER_FAILED => (ANALYSIS, "Error interno durante el análisis", true)
  | CONFIG_INVALID => (CONFIG, "Error de configuración del sistema", false)
  | CACHE_ERROR => (CACHE, "Error en el sistema de caché", true)
  | INTERNAL_ERROR => (UNKNOWN, "Error interno del sistema", true)
  end.

Record SEOError : Type := {
  seo_code : ErrorCode;
  seo_type : SEOErrorType;
  seo_message : string;
  userMessage : string;
  seo_url : option string;
  seo_httpStatus : option N;
  seo_retryable : bool
}.

Definition createSEOError (c : ErrorCode) (m : string) (u : option string)
           (httpStatus : option N) : SEOError :=
  let '(t, um, r) := ERROR_DEFINITIONS c in
  {| seo_code := c; seo_type := t; seo_message := m; userMessage := um;
     seo_url := u; seo_httpStatus := httpStatus; seo_retryable := r |}.

Definition createHttpError (statusCode : N) (u : string) : SEOError :=
  let c :=
    if (statusCode =? 404)%N then HTTP_404
    else if (statusCode =? 403)%N then HTTP_403
    else if (statusCode =? 500)%N then HTTP_500
    else if (statusCode =? 502)%N then HTTP_502
    else if (statusCode =? 503)%N then HTTP_503
    else FETCH_FAILED in
  createSEOError c ("HTTP " +++ URL.decimal statusCode +++ " error") (Some u) (Some statusCode).

Definition createErrorFromException (e : Error) (u : option string) : SEOError :=
  let m := err_message e in
  let c :=
    if includes m "timeout" || includes m "AbortError" then CONNECTION_TIMEOUT
    else if includes m "fetch" || includes m "network" then FETCH_FAILED
    else if includes m "DNS" || includes m "ENOTFOUND" then DNS_RESOLUTION_FAILED
    else if includes m "SSL" || includes m "certificate" then SSL_ERROR
    else if includes m "empty" || includes m "no content" then EMPTY_RESPONSE
    else if includes m "too large" || includes m "size limit" then PAGE_TOO_LARGE
    else if includes m "parse" || includes m "parsing" then CONTENT_PARSING_FAILED
    else INTERNAL_ERROR in
  createSEOError c m u None.

(** [url.trim().length === 0] reads the length of the encoding, which
    is 0 exactly when the string is empty; [url.length > 2048] counts
    code units. *)
Definition validateUrlFormat (u : string) : option SEOError :=
  if String.eqb u "" || (String.length (trim u) =? 0) then
    Some (createSEOError URL_REQUIRED "URL is required" None None)
  else if 2048 <? js_length u then
    Some (createSEOError URL_TOO_LONG "URL exceeds maximum length" None None)
  else if negb (startsWith u "http://") && negb (startsWith u "https://") then
    Some (createSEOError URL_PROTOCOL_MISSING
            "URL must include protocol (http:// or https://)" None None)
  else
    match new_URL u with
    | Return _ => None
    | Throw _ => Some (createSEOError URL_INVALID_FORMAT "Invalid URL format" None None)
    end.

(** The fields of [formatErrorResponse(error)] that are read downstream. *)
Record ErrorResponse : Type := {
  resp_error : string;
  resp_errorType : string;
  resp_errorCode : string;
  resp_httpStatus : option N
}.

Definition formatErrorResponse (e : SEOError) : ErrorResponse :=
  {| resp_error := userMessage e;
     resp_errorType := SEOErrorType_value (seo_type e);
     resp_errorCode := ErrorCode_value (seo_code e);
     resp_httpStatus := seo_httpStatus e |}.

End Errors.

(* ===================================================================== *)
(** * orchestrator/seo-analysis-orchestrator *)
(* ===================================================================== *)

Inductive Status := Success | Failed.

Definition Status_eqb (a b : Status) : bool :=
  match a, b with
  | Success, Success | Failed, Failed => true
  | _, _ => false
  end.

(** The fields of [CompleteAnalysisResult] read by the API route:
    [technical.sitemap], [links.internalUrls], [performance.seoScore],
    [issues] and the error fields of a failed result. *)
Record CompleteAnalysisResult : Type := {
  page_url : string;
  page_status : Status;
  page_error : option string;
  page_errorType : option string;
  page_errorCode : option string;
  page_httpStatus : option N;
  technical_sitemap : option SitemapAnalysis;
  links_internalUrls : list string;
  seoScore : Z;
  page_issues : list Issue
}.

(** What [fetchWithTimeout] resolves to: the response status, the text of
    the body, and the measured load time. *)
Record PageResponse : Type := {
  response_status : N;
  response_text : string;
  response_loadTime : Z
}.

Definition response_ok (r : PageResponse) : bool :=
  ((200 <=? response_status r) && (response_status r <=? 299))%N.

Module Orchestrator.

Import Errors.

(** ** Scores *)

Definition isValidScore (s : any) : bool :=
  match s with
  | Num (Finite _) => true
  | _ => false
  end.

Definition Math_min (a b : Q) : Q := if Qle_bool a b then a else b.
Definition Math_max (a b : Q) : Q := if Qle_bool a b then b else a.

Definition validateScore (s : any) : any :=
  match s with
  | Num (Finite q) => Num (Finite (Math_max 0 (Math_min 100 q)))
  | _ => of_Z 0
  end.

(** The numeric value of a score for which [isValidScore] holds. *)
Definition valueOf (s : any) : Q :=
  match s with
  | Num (Finite q) => q
  | _ => 0
  end.

(** ** Default analyzer data *)

Definition emptyData : AnalyzerData :=
  {| data_issues := Some []; data_internalUrls := None; data_sitemap := None |}.

Definition defaultData (name : string) : AnalyzerData :=
  if String.eqb name "links" then
    {| data_issues := Some []; data_internalUrls := Some []; data_sitemap := None |}
  else if String.eqb name "eat" then
    {| data_issues := None; data_internalUrls := None; data_sitemap := None |}
  else emptyData.

Definition analyzerNames : list string :=
  ["title"; "description"; "headings"; "images"; "technical"; "keywords";
   "performance"; "links"; "mobile"; "security"; "eat"].

Definition getDefaultAnalyzerData (analyzerName : string) : option AnalyzerData :=
  if Set_has analyzerName analyzerNames then Some (defaultData analyzerName) else None.

(** ** performAnalysis: running one analyzer *)

Definition failureIssue (name : string) (analysisError : SEOError) : Issue :=
  createIssue IssueError
    ("Error en análisis de " +++ name +++ ": " +++ userMessage analysisError)
    High Technical.

Definition runAnalyzer (context : AnalysisContext) (entry : string * SEOAnalyzer)
  : string * AnalysisResult :=
  let '(name, analyzer) := entry in
  match analyzer context with
  | Return r =>
      let validatedScore := validateScore (score r) in
      (name, {| score := validatedScore; issues := issues r; data := data r |})
  | Throw e =>
      let analysisError := createErrorFromException e (Some (ctx_url context)) in
      (name, {| score := of_Z 0;
                issues := [failureIssue name analysisError];
                data := getDefaultAnalyzerData name |})
  end.

(** ** combineAnalysisResults *)

Definition weights : list (string * Q) :=
  [("title", 15 # 100); ("description", 11 # 100); ("headings", 11 # 100);
   ("technical", 11 # 100); ("keywords", 11 # 100); ("eat", 14 # 100);
   ("mobile", 10 # 100); ("images", 7 # 100); ("security", 7 # 100);
   ("performance", 4 # 100); ("links", 2 # 100)].

Record Tally : Type := {
  overall : Q;
  totalWeight : Q;
  validAnalyzers : nat
}.

Definition tallyStep (resultMap : list (string * AnalysisResult))
           (t : Tally) (entry : string * Q) : Tally :=
  let '(name, weight) := entry in
  match Map_get name resultMap with
  | Some r =>
      if isValidScore (score r)
      then {| overall := overall t + valueOf (score r) * weight;
              totalWeight := totalWeight t + weight;
              validAnalyzers := S (validAnalyzers t) |}
      else t
  | None => t
  end.

Definition Qsum (l : list Q) : Q := fold_left Qplus l 0%Q.

(** [Math.round(x * 100) / 100] *)
Definition round2 (x : Q) : Q := inject_Z (Math_round (x * 100)) / 100.

Definition weightedScore (resultMap : list (string * AnalysisResult)) : Q :=
  let t := fold_left (tallyStep resultMap) weights
                     {| overall := 0; totalWeight := 0; validAnalyzers := 0 |} in
  if negb (Qle_bool (totalWeight t) 0) && (0 <? validAnalyzers t) then
    round2 (overall t / totalWeight t)
  else if 0 <? validAnalyzers t then
    let validScores :=
      map (fun r => valueOf (score r))
          (filter (fun r => isValidScore (score r)) (Map_values resultMap)) in
    if 0 <? List.length validScores
    then round2 (Qsum validScores / inject_Z (Z.of_nat (List.length validScores)))
    else 0
  else 0.

Record FocusedAnalysisResult : Type := {
  focused_url : string;
  title : AnalyzerData;
  description : AnalyzerData;
  headings : AnalyzerData;
  images : AnalyzerData;
  technical : AnalyzerData;
  keywords : AnalyzerData;
  performance : AnalyzerData;
  links : AnalyzerData;
  mobile : AnalyzerData;
  security : AnalyzerData;
  eat : AnalyzerData;
  overallScore : Z;
  focused_status : Status
}.

(** [resultMap.get(name)?.data || default] *)
Definition dataOf (resultMap : list (string * AnalysisResult)) (name : string)
  : AnalyzerData :=
  match Map_get name resultMap with
  | Some {| data := Some d |} => d
  | _ => defaultData name
  end.

Definition combineAnalysisResults (results : list (string * AnalysisResult))
           (context : AnalysisContext) : FocusedAnalysisResult :=
  let resultMap := Map_of results in
  {| focused_url := ctx_url context;
     title := dataOf resultMap "title";
     description := dataOf resultMap "description";
     headings := dataOf resultMap "headings";
     images := dataOf resultMap "images";
     technical := dataOf resultMap "technical";
     keywords := dataOf resultMap "keywords";
     performance := dataOf resultMap "performance";
     links := dataOf resultMap "links";
     mobile := dataOf resultMap "mobile";
     security := dataOf resultMap "security";
     eat := dataOf resultMap "eat";
     overallScore := Math_round (weightedScore resultMap);
     focused_status := Success |}.

(** ** convertToLegacyFormat *)

Definition issuesOf (d : AnalyzerData) : list Issue :=
  match data_issues d with Some l => l | None => [] end.

Definition convertToLegacyFormat (f : FocusedAnalysisResult) : CompleteAnalysisResult :=
  let allIssues :=
    issuesOf (title f) ++ issuesOf (description f) ++ issuesOf (headings f)
      ++ issuesOf (images f) ++ issuesOf (technical f) ++ issuesOf (keywords f)
      ++ issuesOf (performance f) ++ issuesOf (links f) ++ issuesOf (mobile f)
      ++ issuesOf (security f) ++ issuesOf (eat f) in
  {| page_url := focused_url f;
     page_status := Success;
     page_error := None;
     page_errorType := None;
     page_errorCode := None;
     page_httpStatus := None;
     technical_sitemap := data_sitemap (technical f);
     links_internalUrls :=
       match data_internalUrls (links f) with Some l => l | None => [] end;
     seoScore := overallScore f;
     page_issues := allIssues |}.

(** ** createErrorResult *)

Definition createErrorResult (u : string) (errorResponse : ErrorResponse)
  : CompleteAnalysisResult :=
  {| page_url := u;
     page_status := Failed;
     page_error := Some (resp_error errorResponse);
     page_errorType := Some (resp_errorType errorResponse);
     page_errorCode := Some (resp_errorCode errorResponse);
     page_httpStatus := resp_httpStatus errorResponse;
     technical_sitemap := None;
     links_internalUrls := [];
     seoScore := 0;
     page_issues := [] |}.

(** ** The orchestrator instance *)

Section Instance.

(** [fetchWithTimeout(url, { timeout })] *)
Variable fetchWithTimeout : string -> Z -> result Error PageResponse.

(** [SEO_THRESHOLDS.PAGE_SIZE_LIMIT], from [constants/scoring]. *)
Variable PAGE_SIZE_LIMIT : nat.

Variable cfg : SEOConfig.

(** The registry, in registration order. *)
Variable analyzers : list (string * SEOAnalyzer).

Definition runAnalyzers (context : AnalysisContext) : list (string * AnalysisResult) :=
  map (runAnalyzer context) analyzers.

Definition performAnalysis (u : string) (timeoutMs : Z) (isMainPage : bool)
  : result Error CompleteAnalysisResult :=
  let* response := fetchWithTimeout u timeoutMs in
  if negb (response_ok response) then
    Return (createErrorResult u
              (formatErrorResponse (createHttpError (response_status response) u)))
  else
    let html := response_text response in
    if String.eqb html "" || (String.length (trim html) =? 0) then
      Return (createErrorResult u
                (formatErrorResponse
                   (createSEOError EMPTY_RESPONSE "Empty server response" (Some u) None)))
    else if PAGE_SIZE_LIMIT <? js_length html then
      Return (createErrorResult u
                (formatErrorResponse
                   (createSEOError PAGE_TOO_LARGE "Page too large to analyze" (Some u) None)))
    else
      let context :=
        {| ctx_url := u; ctx_html := html;
           ctx_status := response_status response;
           ctx_loadTime := response_loadTime response;
           ctx_isMainPage := isMainPage |} in
      let analysisResults := runAnalyzers context in
      let focusedResult := combineAnalysisResults analysisResults context in
      Return (convertToLegacyFormat focusedResult).

Definition analyzeUrl (u : string) (isMainPage : bool) (timeoutMs : Z)
  : CompleteAnalysisResult :=
  let validatedTimeoutMs := Z.min timeoutMs (ANALYSIS_TIMEOUT_MS cfg - 1000) in
  match validateUrlFormat u with
  | Some urlError => createErrorResult u (formatErrorResponse urlError)
  | None =>
      try_catch (performAnalysis u validatedTimeoutMs isMainPage)
        (fun e => createErrorResult u
                    (formatErrorResponse (createErrorFromException e (Some u))))
  end.

(** [analyzePage(url, isMainPage)] of [refactored-analyzer]. *)
Definition analyzePage (u : string) (isMainPage : bool) : CompleteAnalysisResult :=
  analyzeUrl u isMainPage (DEFAULT_TIMEOUT_MS cfg).

End Instance.

End Orchestrator.

(* ===================================================================== *)
(** * errors/enhanced-error-handler: handleAsync *)
(* ===================================================================== *)

Module ErrorHandler.

Inductive ErrorType :=
| NETWORK | VALIDATION | PARSING | TIMEOUT | RATE_LIMIT | PERMISSION
| NOT_FOUND | CONFIGURATION | ANALYSIS | UNKNOWN.

Record EnhancedError : Type := {
  enhanced_type : ErrorType;
  enhanced_message : string;
  recoverable : bool;
  retryable : bool
}.

Definition detectErrorType (e : Error) : ErrorType :=
  let m := toLowerCase (err_message e) in
  let n := toLowerCase (err_name e) in
  if includes n "timeout" || includes m "timeout" then TIMEOUT
  else if includes n "network" || includes m "fetch" then NETWORK
  else if includes m "rate limit" || includes m "429" then RATE_LIMIT
  else if includes m "validation" || includes m "invalid" then VALIDATION
  else if includes m "parse" || includes m "syntax" then PARSING
  else if includes m "not found" || includes m "404" then NOT_FOUND
  else if includes m "permission" || includes m "403" then PERMISSION
  else UNKNOWN.

Definition isRetryable (t : ErrorType) : bool :=
  match t with
  | NETWORK | TIMEOUT | RATE_LIMIT => true
  | _ => false
  end.

Definition isRecoverable (t : ErrorType) : bool :=
  match t with
  | CONFIGURATION | PERMISSION => false
  | _ => true
  end.

(** [handle(error, context)] for a plain [Error]: [enhanceError]. *)
Definition handle (e : Error) : EnhancedError :=
  let t := detectErrorType e in
  {| enhanced_type := t; enhanced_message := err_message e;
     recoverable := isRecoverable t; retryable := isRetryable t |}.

(** The retry loop of [handleAsync], entered at attempt number [attempt]
    with [remaining = retries - attempt] further attempts allowed.  The
    operation is indexed by the attempt number, since the outside world
    may answer differently each time. *)
Fixpoint attempts {T} (operation : nat -> result Error T) (attempt remaining : nat)
  : result EnhancedError T :=
  match operation attempt with
  | Return v => Return v
  | Throw e =>
      let lastError := handle e in
      match remaining with
      | 0 => Throw lastError
      | S n =>
          if negb (retryable lastError) then Throw lastError
          else attempts operation (S attempt) n
      end
  end.

(** [handleAsync(operation, { retries })], without fallback. *)
Definition handleAsync {T} (operation : nat -> result Error T) (retries : nat)
  : result EnhancedError T :=
  attempts operation 0 retries.

End ErrorHandler.

(* ===================================================================== *)
(** * pages/api/analyze-unified: the crawl entrypoint *)
(* ===================================================================== *)

Record AnalysisSummary : Type := {
  totalPages : nat;
  successfulPages : nat;
  failedPages : nat;
  avgSeoScore : Z;
  criticalIssues : nat;
  warningIssues : nat;
  successIssues : nat;
  cachedResults : nat
}.

(** [UnifiedAnalysisResponse]: the main page's result spread at top level,
    the summary and the per-page results. *)
Record UnifiedAnalysisResponse : Type := {
  mainPage : CompleteAnalysisResult;
  summary : AnalysisSummary;
  pages : list CompleteAnalysisResult;
  isMultiPage : bool
}.

(** The [errorResponse] object sent when the main page failed and its
    result carries no error code. *)
Record MainPageError : Type := {
  main_error : string;
  main_errorType : string;
  main_errorCode : string;
  main_retryable : bool;
  main_url : string;
  main_httpStatus : option N
}.

Inductive ResponseBody : Type :=
| FailedPageBody (failure : CompleteAnalysisResult)
| MainPageErrorBody (e : MainPageError)
| ReportBody (report : UnifiedAnalysisResponse).

Record Response : Type := {
  statusCode : N;
  responseBody : ResponseBody
}.

Module Api.

Import ErrorHandler.

Definition BATCH_SIZE : nat := 5.

(** The object built by the [catch] handlers for an analysis that
    threw. *)
Definition failedResult (u message_ : string) : CompleteAnalysisResult :=
  {| page_url := u; page_status := Failed;
     page_error := Some message_;
     page_errorType := Some "analysis";
     page_errorCode := None; page_httpStatus := None;
     technical_sitemap := None; links_internalUrls := [];
     seoScore := 0; page_issues := [] |}.

Definition mainStatusCode (errorType : option string) : N :=
  match errorType with
  | Some t =>
      if String.eqb t "timeout" then 408
      else if String.eqb t "network" then 502
      else if String.eqb t "url_format" then 400
      else if String.eqb t "validation" then 400
      else 500
  | None => 500
  end%N.

(** The body of the error response for a failed main page. *)
Definition mainErrorBody (u : string) (mainPageResult : CompleteAnalysisResult)
  : ResponseBody :=
  match page_errorCode mainPageResult with
  | Some (String _ _) => FailedPageBody mainPageResult
  | _ =>
      MainPageErrorBody
        {| main_error :=
             match page_error mainPageResult with
             | Some (String _ _ as e) => e
             | _ => "Error al analizar la página principal"
             end;
           main_errorType :=
             match page_errorType mainPageResult with
             | Some (String _ _ as t) => t
             | _ => "unknown"
             end;
           main_errorCode := "MAIN_PAGE_ANALYSIS_FAILED";
           main_retryable := true;
           main_url := u;
           main_httpStatus := page_httpStatus mainPageResult |}
  end.

(** ** Step 2: the URLs to analyze *)

Definition addSitemapUrls (u : string) (mainPageResult : CompleteAnalysisResult)
           (urlsToAnalyzeSet : list string) : list string :=
  match technical_sitemap mainPageResult with
  | Some sitemap =>
      if exists_ sitemap then
        fold_left (fun set_ entry =>
                     let sitemapUrl := url entry in
                     if negb (String.eqb sitemapUrl u)
                        && negb (String.eqb sitemapUrl (page_url mainPageResult))
                     then Set_add sitemapUrl set_ else set_)
                  (urls sitemap) urlsToAnalyzeSet
      else urlsToAnalyzeSet
  | None => urlsToAnalyzeSet
  end.

Definition addDiscoveredUrls (mainPageResult : CompleteAnalysisResult)
           (urlsToAnalyzeSet : list string) : list string :=
  fold_left (fun set_ internalUrl =>
               if negb (Set_has internalUrl set_) then Set_add internalUrl set_ else set_)
            (links_internalUrls mainPageResult) urlsToAnalyzeSet.

Definition urlsToAnalyze (cfg : SEOConfig) (u : string)
           (mainPageResult : CompleteAnalysisResult) : list string :=
  slice 0 (MAX_INTERNAL_URLS cfg)
        (addDiscoveredUrls mainPageResult (addSitemapUrls u mainPageResult [])).

(** ** Batches *)

(** The loop [for (i = 0; i < urls.length; i += BATCH_SIZE)
    batches.push(urls.slice(i, i + BATCH_SIZE))]. *)
Equations? batchesFrom (urlsToAnalyze_ : list string) (i : nat) : list (list string)
  by wf (List.length urlsToAnalyze_ - i) lt :=
  batchesFrom urlsToAnalyze_ i with lt_dec i (List.length urlsToAnalyze_) => {
    | left _ := slice i (i + BATCH_SIZE) urlsToAnalyze_
                  :: batchesFrom urlsToAnalyze_ (i + BATCH_SIZE);
    | right _ := [] }.
Proof. unfold BATCH_SIZE. lia. Qed.

Definition batches (urlsToAnalyze_ : list string) : list (list string) :=
  batchesFrom urlsToAnalyze_ 0.

Section Crawl.

(** [analyzePage(url, isMainPage)], as answered at a given attempt: a
    result (with status success or failed) or a thrown error. *)
Variable analyzePage : string -> bool -> nat -> result Error CompleteAnalysisResult.

Variable cfg : SEOConfig.

(** Step 1: the main page, with two retries. *)
Definition analyzeMainPage (u : string) : CompleteAnalysisResult :=
  match handleAsync (analyzePage u true) 2 with
  | Return r => r
  | Throw e =>
      failedResult u (or_else (enhanced_message e) "Error al analizar la página")
  end.

(** One element of a batch: the analysis with one retry, settled. *)
Definition analyzeInternal (internalUrl : string) : CompleteAnalysisResult :=
  match handleAsync (analyzePage internalUrl false) 1 with
  | Return r => r
  | Throw _ => failedResult internalUrl "Error en análisis interno"
  end.

(** [Promise.allSettled(batch.map(...))]: one settled result per URL of
    the batch, in the order of the batch. *)
Definition processBatch (batch : list string) : list CompleteAnalysisResult :=
  map analyzeInternal batch.

(** The [for (const batch of batches)] loop, one batch after the
    other. *)
Definition processBatches (allResults : list CompleteAnalysisResult)
           (bs : list (list string)) : list CompleteAnalysisResult :=
  fold_left (fun acc batch => acc ++ processBatch batch) bs allResults.

(** ** Step 3: the summary *)

Definition isSuccess (r : CompleteAnalysisResult) : bool :=
  Status_eqb (page_status r) Success.

Definition countType (t : IssueType) (l : list Issue) : nat :=
  List.length (filter (fun issue => IssueType_eqb (type issue) t) l).

Definition summarize (allResults : list CompleteAnalysisResult) : AnalysisSummary :=
  let successfulResults := filter isSuccess allResults in
  let failedCount := List.length allResults - List.length successfulResults in
  let avg :=
    if 0 <? List.length successfulResults then
      Math_round (inject_Z (fold_left (fun acc r => (acc + seoScore r)%Z)
                                      successfulResults 0%Z)
                  / inject_Z (Z.of_nat (List.length successfulResults)))
    else 0%Z in
  let allIssues := flat_map page_issues successfulResults in
  {| totalPages := List.length allResults;
     successfulPages := List.length successfulResults;
     failedPages := failedCount;
     avgSeoScore := avg;
     criticalIssues := countType IssueError allIssues;
     warningIssues := countType IssueWarning allIssues;
     successIssues := countType IssueSuccess allIssues;
     cachedResults := 0 |}.

(** The route handler from Step 1 on, for a request that passed the
    security and URL validation and whose URL [u] has been
    normalized. *)
Definition POST (u : string) : Response :=
  let mainPageResult := analyzeMainPage u in
  match page_status mainPageResult with
  | Failed =>
      {| statusCode := mainStatusCode (page_errorType mainPageResult);
         responseBody := mainErrorBody u mainPageResult |}
  | Success =>
      let frontier := urlsToAnalyze cfg u mainPageResult in
      let allResults :=
        if 0 <? List.length frontier
        then processBatches [mainPageResult] (batches frontier)
        else [mainPageResult] in
      {| statusCode := 200%N;
         responseBody :=
           ReportBody {| mainPage := mainPageResult;
                         summary := summarize allResults;
                         pages := allResults;
                         isMultiPage := 1 <? List.length allResults |} |}
  end.

End Crawl.

End Api.

(* ===================================================================== *)
(** * Concrete sites, pages and analyzers *)
(* ===================================================================== *)

Module Examples.

Definition PAGE_SIZE_LIMIT : nat := 4096.

Definition rootUrl : string := "https://example.com/".

(** A site whose main page links to two pages that answer 500. *)
Definition mainHtml : string :=
  "<html><body><a href='/a'>A</a> <a href='https://example.com/b'>B</a></body></html>".

Definition fetchSite (u : string) (timeoutMs : Z) : result Error PageResponse :=
  if String.eqb u rootUrl
  then Return {| response_status := 200; response_text := mainHtml; response_loadTime := 120 |}
  else Return {| response_status := 500; response_text := ""; response_loadTime := 80 |}.

(** A site on which every page, the main page included, answers 404. *)
Definition fetch404 (u : string) (timeoutMs : Z) : result Error PageResponse :=
  Return {| response_status := 404; response_text := "Not Found"; response_loadTime := 30 |}.

Definition linksOnly : list (string * SEOAnalyzer) :=
  [("links", LinksAnalyzer.analyze CONFIG_default)].

Definition analyzePageSite (u : string) (isMainPage : bool) (attempt : nat)
  : result Error CompleteAnalysisResult :=
  Return (Orchestrator.analyzePage fetchSite PAGE_SIZE_LIMIT CONFIG_default linksOnly
                                   u isMainPage).

Definition analyzePage404 (u : string) (isMainPage : bool) (attempt : nat)
  : result Error CompleteAnalysisResult :=
  Return (Orchestrator.analyzePage fetch404 PAGE_SIZE_LIMIT CONFIG_default linksOnly
                                   u isMainPage).

(** Three analyzers, the first of which throws. *)
Definition okResponse : PageResponse :=
  {| response_status := 200;
     response_text := "<html><head><title>Example</title></head></html>";
     response_loadTime := 120 |}.

Definition fetchOk (u : string) (timeoutMs : Z) : result Error PageResponse :=
  Return okResponse.

Definition constantAnalyzer (s : any) : SEOAnalyzer :=
  fun _ => Return {| score := s;
                     issues := [createSuccessIssue "ok"];
                     data := Some {| data_issues := Some [createSuccessIssue "ok"];
                                     data_internalUrls := None;
                                     data_sitemap := None |} |}.

Definition crashingAnalyzer : SEOAnalyzer :=
  fun _ => Throw (new_Error "boom").

Definition twoAnalyzers : list (string * SEOAnalyzer) :=
  [("description", constantAnalyzer (of_Z 100)); ("headings", constantAnalyzer (of_Z 100))].

Definition threeAnalyzers : list (string * SEOAnalyzer) :=
  ("title", crashingAnalyzer) :: twoAnalyzers.

Definition okContext : AnalysisContext :=
  {| ctx_url := rootUrl; ctx_html := response_text okResponse;
     ctx_status := 200; ctx_loadTime := 120; ctx_isMainPage := true |}.


Definition successAt (u : string) : CompleteAnalysisResult :=
  {| page_url := u; page_status := Success; page_error := None;
     page_errorType := None; page_errorCode := None; page_httpStatus := None;
     technical_sitemap := None; links_internalUrls := []; seoScore := 80;
     page_issues := [] |}.


(** ** Sitemaps *)

Definition served (text : string) : HttpResponse :=
  {| latency := 100; status := 200; body := list_byte_of_string text |}.

Definition plainPlatform (site : string -> option HttpResponse) : Platform :=
  {| fetch := site;
     gunzipSync := fun _ => None;
     Buffer_toString := string_of_list_byte;
     TextDecoder_decode := string_of_list_byte;
     Date_is_valid := fun _ => true |}.

(** A sitemap index whose only child is the index itself. *)
Definition selfUrl : string := "https://example.com/sitemap.xml".

Definition selfIndex : string :=
  "<?xml version='1.0'?><sitemapindex><sitemap><loc>https://example.com/sitemap.xml</loc></sitemap></sitemapindex>".

Definition selfReferencing : Platform :=
  plainPlatform (fun u => if String.eqb u selfUrl then Some (served selfIndex) else None).

(** A sitemap index with two children that both list the same page. *)
Definition twoChildIndex : string :=
  "<?xml version='1.0'?><sitemapindex><sitemap><loc>https://example.com/sitemap-a.xml</loc></sitemap><sitemap><loc>https://example.com/sitemap-b.xml</loc></sitemap></sitemapindex>".

Definition childA : string :=
  "<?xml version='1.0'?><urlset><url><loc>https://example.com/page</loc></url><url><loc>https://example.com/a</loc></url></urlset>".

Definition childB : string :=
  "<?xml version='1.0'?><urlset><url><loc>https://example.com/page</loc></url><url><loc>https://example.com/b</loc></url></urlset>".

Definition twoChildren : Platform :=
  plainPlatform (fun u =>
    if String.eqb u "https://example.com/sitemap.xml" then Some (served twoChildIndex)
    else if String.eqb u "https://example.com/sitemap-a.xml" then Some (served childA)
    else if String.eqb u "https://example.com/sitemap-b.xml" then Some (served childB)
    else None).


(** A payload that starts with the gzip magic bytes.  [gzipPlatform]
    inflates it to a urlset; [corruptGzipPlatform] fails to inflate it. *)
Definition gzipPayload : list Byte.byte :=
  Byte.x1f :: Byte.x8b :: list_byte_of_string "https://example.com/from-text".

Definition inflated : string :=
  "<?xml version='1.0'?><urlset><url><loc>https://example.com/from-gzip</loc></url></urlset>".

Definition gzipSite (u : string) : option HttpResponse :=
  if String.eqb u "https://example.com/sitemap.xml"
  then Some {| latency := 100; status := 200; body := gzipPayload |}
  else None.

Definition gzipPlatform : Platform :=
  {| fetch := gzipSite;
     gunzipSync := fun _ => Some (list_byte_of_string inflated);
     Buffer_toString := string_of_list_byte;
     TextDecoder_decode := string_of_list_byte;
     Date_is_valid := fun _ => true |}.

Definition corruptGzipPlatform : Platform := plainPlatform gzipSite.

(** ** Links and frontier *)

(** A main page whose only anchor is protocol-relative and points to
    another host. *)
Definition partnerHtml : string :=
  "<html><body><a href='//other.example/page'>Partner</a></body></html>".

Definition partnerContext : AnalysisContext :=
  {| ctx_url := rootUrl; ctx_html := partnerHtml; ctx_status := 200;
     ctx_loadTime := 120; ctx_isMainPage := true |}.

(** A main-page result whose sitemap lists [/about/] while the links
    analyzer discovered [/about]. *)
Definition aboutSitemap : SitemapAnalysis :=
  {| exists_ := true; accessible := true; isValidXml := true; totalUrls := 2;
     urls := [ {| url := rootUrl; lastModified := None; isLowValue := false |};
               {| url := "https://example.com/about/"; lastModified := None;
                  isLowValue := false |} ];
     childSitemaps := []; sitemap_issues := []; sitemap_lastModified := None;
     truncated := None; isCompressed := false; lowValueUrls := 0 |}.

Definition mainWithSitemap : CompleteAnalysisResult :=
  {| page_url := rootUrl; page_status := Success; page_error := None;
     page_errorType := None; page_errorCode := None; page_httpStatus := None;
     technical_sitemap := Some aboutSitemap;
     links_internalUrls := ["https://example.com/about"; "https://example.com/blog"];
     seoScore := 90; page_issues := [] |}.

End Examples.

(* ===================================================================== *)
(** * Vocabulary of the statements *)
(* ===================================================================== *)

Import Sitemap Orchestrator ErrorHandler LinksAnalyzer Api Examples.

Definition returns_report (r : Response) : Prop :=
  exists report, responseBody r = ReportBody report.

Definition in_range_0_100 (s : any) : Prop :=
  exists q, s = Num (Finite q) /\ (0 <= q <= 100)%Q.

(** Every score stored in the map is a number between 0 and 100. *)
Definition scores_in_range (m : list (string * AnalysisResult)) : Prop :=
  forall r, In r (Map_values m) -> in_range_0_100 (score r).

Definition scoresOf (m : list (string * AnalysisResult)) : list (string * any) :=
  map (fun kv => (fst kv, score (snd kv))) m.

(** An analyzer that returns the score 0, no issue and no data. *)
Definition zeroAnalyzer : SEOAnalyzer :=
  fun _ => Return {| score := of_Z 0; issues := []; data := None |}.

(** The options with which the children of a default call are analyzed. *)
Definition defaultChildOptions : SitemapAnalysisOptions := childOptions no_options 10000%Z.

(** The URL entries contributed by a child sitemap: those of its analysis
    when it returns, none when it throws. *)
Definition childUrls (child : string -> option (result Error SitemapAnalysis))
           (c : string) : list SitemapUrl :=
  match child c with
  | Some (Return r) => urls r
  | _ => []
  end.

(** All the entries of a urlset or plain-text sitemap, in document
    order. *)
Definition documentEntries (P : Platform) (options : SitemapAnalysisOptions)
           (content : string) : list SitemapUrl :=
  let detect := or_default (detectLowValue options) true in
  if includes content "<urlset" then
    map (fun e => {| url := fst e; lastModified := snd e;
                     isLowValue := if detect then isLowValuePage (fst e) else false |})
        (extractUrlsFromXML P content)
  else
    map (fun u => {| url := trim u; lastModified := None;
                     isLowValue := if detect then isLowValuePage u else false |})
        (filter (fun line => negb (String.eqb (trim line) ""))
                (split_char is_newline content)).




(** The first occurrences of the elements of a list, in the order of the
    list. *)
Fixpoint firsts (l : list string) : list string :=
  match l with
  | [] => []
  | x :: r => x :: filter (fun y => negb (String.eqb y x)) (firsts r)
  end.

(** The URLs that the sitemap of the main page offers to the frontier:
    the URLs of its entries, in the order of the sitemap, without the
    requested URL and the URL of the main page; none when the main page
    has no sitemap. *)
Definition sitemapEntries (u : string) (mainPageResult : CompleteAnalysisResult)
  : list string :=
  match technical_sitemap mainPageResult with
  | Some sitemap =>
      if exists_ sitemap
      then filter (fun x => negb (String.eqb x u)
                            && negb (String.eqb x (page_url mainPageResult)))
                  (map url (urls sitemap))
      else []
  | None => []
  end.

(** [stops p s]: [s] is empty or starts with a character satisfying [p]. *)
Definition stops (p : ascii -> bool) (s : string) : Prop :=
  match s with
  | "" => True
  | String c _ => p c = true
  end.

(** The last character of a string. *)
Fixpoint last_char (s : string) : option ascii :=
  match s with
  | "" => None
  | String c "" => Some c
  | String _ r => last_char r
  end.

(** A byte with which no white space character starts. *)
Definition no_ws_lead (c : ascii) : bool :=
  negb (is_ws c)
  && negb ((code c =? 194) || (code c =? 225) || (code c =? 226)
           || (code c =? 227) || (code c =? 239)).

(** Characters that may occur in a path segment, a query or a fragment
    and are not touched by the parser: inside the printable ASCII range,
    outside the percent-encode set of the component, and not a
    delimiter. *)
Definition path_char (c : ascii) : bool := negb (URL.path_set c) && negb (URL.is_slash c).
Definition query_char (c : ascii) : bool := negb (URL.special_query_set c).
Definition fragment_char (c : ascii) : bool := negb (URL.fragment_set c).

Definition visible (c : ascii) : bool := (32 <? code c) && (code c <? 127).

Definition plain_segment (seg : string) : Prop :=
  forallb_str path_char seg = true /\
  URL.is_single_dot seg = false /\ URL.is_double_dot seg = false.

Definition plain_option (p : ascii -> bool) (o : option string) : Prop :=
  match o with
  | Some s => forallb_str p s = true
  | None => True
  end.

(** The components of a URL text that the parser accepts unchanged: a
    lower-case domain host of at least three characters with a dot, a port
    below 65536, path segments free of dot segments, and path, query and
    fragment characters that need no percent-encoding. *)
Definition well_formed (host : string) (port : option N) (segs : list string)
           (q f : option string) : Prop :=
  URL.parse_host host = Some host /\
  3 <= String.length host /\
  includes host "." = true /\
  match port with Some p => (p <= 65535)%N | None => True end /\
  Forall plain_segment segs /\
  plain_option query_char q /\
  plain_option fragment_char f.

Definition port_text (port : option N) : string :=
  match port with
  | None => ""
  | Some p => ":" +++ URL.decimal p
  end.

Definition query_text (q : option string) : string :=
  match q with None => "" | Some q => "?" +++ q end.

Definition fragment_text (f : option string) : string :=
  match f with None => "" | Some f => "#" +++ f end.

(** What the parser makes of a port and of a path under [https]. *)
Definition canon_port (port : option N) : option N :=
  match port with
  | Some p => if (p =? 443)%N then None else Some p
  | None => None
  end.

Definition canon_path (segs : list string) : list string :=
  match segs with
  | [] => [""]
  | _ => segs
  end.

(** The key of a well-formed URL text. *)
Definition key_text (host : string) (port : option N) (segs : list string)
           (q f : option string) : string :=
  let c := URL.mk "https" host (canon_port port) (canon_path segs) q f in
  URL.protocol c +++ "//" +++ URL.host c
    +++ or_else (dropTrailingSlash (URL.path_text (canon_path segs))) "/"
    +++ URL.search c +++ URL.hash c.

(** The path does not already end with a slash. *)
Definition no_trailing_slash (segs : list string) : Prop :=
  forall l, segs <> l ++ [""].

(* ===================================================================== *)
(** * The crawl entrypoint on top of the orchestrator *)
(* ===================================================================== *)

(** The operation [() => analyzePage(url, isMainPage)] that the route
    hands to [handleAsync]: [analyzePage] of [refactored-analyzer] calls
    [orchestrator.analyzeUrl] and rethrows what it throws. *)
Definition pageOperation (fetchWithTimeout : string -> Z -> result Error PageResponse)
           (PAGE_SIZE_LIMIT : nat) (cfg : SEOConfig)
           (analyzers : list (string * SEOAnalyzer))
           (u : string) (isMainPage : bool) (attempt : nat)
  : result Error CompleteAnalysisResult :=
  Return (Orchestrator.analyzePage fetchWithTimeout PAGE_SIZE_LIMIT cfg analyzers
                                   u isMainPage).

(** The timeout that [analyzePage] passes to [fetchWithTimeout]. *)
Definition pageTimeout (cfg : SEOConfig) : Z :=
  Z.min (DEFAULT_TIMEOUT_MS cfg) (ANALYSIS_TIMEOUT_MS cfg - 1000).

(** ** Vocabulary *)

(** Every valid score of a weighted analyzer lies between [lo] and
    [hi]. *)
Definition weighted_between (lo hi : Z) (m : list (string * AnalysisResult)) : Prop :=
  forall name w r,
    In (name, w) Orchestrator.weights -> Map_get name m = Some r ->
    Orchestrator.isValidScore (score r) = true ->
    (inject_Z lo <= Orchestrator.valueOf (score r) <= inject_Z hi)%Q.

(** Some weighted analyzer has a valid score. *)
Definition some_weighted (m : list (string * AnalysisResult)) : Prop :=
  exists name w r,
    In (name, w) Orchestrator.weights /\ Map_get name m = Some r /\
    Orchestrator.isValidScore (score r) = true.

(** An analyzer result without its [issues]. *)
Definition withoutIssues (r : AnalysisResult) : AnalysisResult :=
  {| score := score r; issues := []; data := data r |}.

(** The message of a thrown error mentions one of the words. *)
Definition mentions (m : string) (words : list string) : bool :=
  existsb (includes m) words.

(** The words by which [createErrorFromException] recognises a timeout,
    and those by which it recognises a network error. *)
Definition timeoutWords : list string := ["timeout"; "AbortError"].
Definition networkWords : list string :=
  ["fetch"; "network"; "DNS"; "ENOTFOUND"; "SSL"; "certificate"].

(** The tally with which [combineAnalysisResults] starts. *)
Definition tally0 : Orchestrator.Tally :=
  {| Orchestrator.overall := 0; Orchestrator.totalWeight := 0;
     Orchestrator.validAnalyzers := 0 |}.

(** What holds of the map filled by the deduplication loop of the links
    analyzer: the keys are distinct, and every value is the normalized
    form of a collected link, stored under its own key and different from
    the normalized URL of the page. *)
Definition deduplicated (normalizedMainUrl : string) (found : list string)
           (m : list (string * string)) : Prop :=
  NoDup (map fst m) /\
  Forall (fun kv =>
            LinksAnalyzer.deduplicationKey (snd kv) = Return (fst kv) /\
            snd kv <> normalizedMainUrl /\
            exists y, In y found /\ UrlUtils.normalizeUrl y = Return (snd kv)) m.

(** An entry of a sitemap as discovery delivers it: the URL carries no
    leading or trailing white space, and the [lastModified] date, when
    there is one, is trimmed and passed [isValidISO8601]. *)
Definition entry_is_clean (P : Platform) (e : SitemapUrl) : Prop :=
  trim (url e) = url e /\
  forall d, lastModified e = Some d -> Sitemap.isValidISO8601 P d = true /\ trim d = d.

(** No colon occurs in the string. *)
Definition no_colon (s : string) : bool :=
  forallb_str (fun c => negb (Ascii.eqb c ":")) s.

(* ===================================================================== *)
(** * robots-sitemap-utils: analyzeRobotsTxt *)
(* ===================================================================== *)

Module Robots.

Record RobotsAnalysis : Type := {
  robots_exists : bool;
  robots_accessible : bool;
  robots_content : option string;
  robots_issues : list Issue;
  allowAll : bool;
  blockAll : bool;
  robots_sitemap : option string;
  userAgents : list string
}.


(** [s.substring(n)] *)
Fixpoint substring_from (n : nat) (s : string) : string :=
  match n, s with
  | 0, _ => s
  | S n', String _ r => substring_from n' r
  | S _, "" => ""
  end.

(** [content.split('\n').map(line => line.trim())
      .filter(line => line && !line.startsWith('#'))] *)
Definition robotsLines (content : string) : list string :=
  filter (fun line => negb (String.eqb line "") && negb (startsWith line "#"))
         (map trim (split_char Sitemap.is_newline content)).

(** [line.split(':')[1]?.trim()], which is also
    [line.split(':', 2)[1]?.trim()]. *)
Definition valueAfterColon (line : string) : option string :=
  option_map trim (nth_error (split_char URL.is_colon line) 1).

(** The variables of the loop over the lines. *)
Record Directives : Type := {
  seenUserAgents : list string;
  seenSitemap : option string;
  hasDisallowAll : bool;
  hasAllowAll : bool
}.

Definition noDirectives : Directives :=
  {| seenUserAgents := []; seenSitemap := None;
     hasDisallowAll := false; hasAllowAll := false |}.

Definition isRoot (value : option string) : bool :=
  match value with
  | Some v => String.eqb v "/"
  | None => false
  end.

(** The body of the loop. *)
Definition directive (st : Directives) (line : string) : Directives :=
  let lowerLine := toLowerCase line in
  if startsWith lowerLine "user-agent:" then
    let currentUserAgent :=
      match valueAfterColon line with
      | Some (String _ _ as agent) => agent
      | _ => "*"
      end in
    {| seenUserAgents := Set_add currentUserAgent (seenUserAgents st);
       seenSitemap := seenSitemap st;
       hasDisallowAll := hasDisallowAll st; hasAllowAll := hasAllowAll st |}
  else if startsWith lowerLine "sitemap:" then
    {| seenUserAgents := seenUserAgents st;
       seenSitemap := Some (trim (substring_from (String.length "sitemap:") line));
       hasDisallowAll := hasDisallowAll st; hasAllowAll := hasAllowAll st |}
  else if startsWith lowerLine "disallow:" then
    {| seenUserAgents := seenUserAgents st;
       seenSitemap := seenSitemap st;
       hasDisallowAll := if isRoot (valueAfterColon line) then true else hasDisallowAll st;
       hasAllowAll := hasAllowAll st |}
  else if startsWith lowerLine "allow:" then
    {| seenUserAgents := seenUserAgents st;
       seenSitemap := seenSitemap st;
       hasDisallowAll := hasDisallowAll st;
       hasAllowAll := if isRoot (valueAfterColon line) then true else hasAllowAll st |}
  else st.

Definition emptyIssue : Issue :=
  createIssue IssueWarning "Robots.txt está vacío" Medium Technical.
Definition blocksAllIssue : Issue :=
  createIssue IssueError "Robots.txt bloquea todo el sitio (Disallow: /)" High Technical.
Definition noSitemapIssue : Issue :=
  createIssue IssueWarning "No se especifica sitemap en robots.txt" Medium Technical.
Definition noUserAgentIssue : Issue :=
  createIssue IssueWarning "No se encontraron directivas User-agent" Medium Technical.
Definition successIssue : Issue :=
  createIssue IssueSuccess "Robots.txt configurado correctamente" Low Technical.

(** [!sitemap] *)
Definition noSitemap (sitemap : option string) : bool :=
  match sitemap with
  | Some (String _ _) => false
  | _ => true
  end.

(** What [analyzeRobotsTxt] makes of the text of a robots.txt that was
    fetched. *)
Definition parseRobots (content : string) : RobotsAnalysis :=
  let st := fold_left directive (robotsLines content) noDirectives in
  let issues0 := if String.length content =? 0 then [emptyIssue] else [] in
  let issues1 :=
    if hasDisallowAll st && negb (hasAllowAll st)
    then issues0 ++ [blocksAllIssue] else issues0 in
  let issues2 :=
    if noSitemap (seenSitemap st) then issues1 ++ [noSitemapIssue] else issues1 in
  let issues3 :=
    if List.length (seenUserAgents st) =? 0
    then issues2 ++ [noUserAgentIssue] else issues2 in
  let issues4 :=
    if List.length issues3 =? 0 then issues3 ++ [successIssue] else issues3 in
  {| robots_exists := true; robots_accessible := true; robots_content := Some content;
     robots_issues := issues4;
     allowAll := hasAllowAll st; blockAll := hasDisallowAll st;
     robots_sitemap := seenSitemap st;
     userAgents := seenUserAgents st |}.


(** [robotsAnalysis?.sitemap || undefined], the hint that the technical
    analyzer hands to [analyzeSitemap]. *)
Definition sitemapHint (robotsAnalysis : RobotsAnalysis) : option string :=
  match robots_sitemap robotsAnalysis with
  | Some (String _ _ as s) => Some s
  | _ => None
  end.


(** A line is a directive [name] with the value [/]. *)
Definition isRootRule (name line : string) : bool :=
  startsWith (toLowerCase line) name && isRoot (valueAfterColon line).

End Robots.

(* ===================================================================== *)
(** * security/rate-limiter and security/api-security *)
(* ===================================================================== *)

Module Security.

(** What the security checks read of a [Request]: its method and
    [request.headers.get(name)]. *)
Record Request : Type := {
  method : string;
  headers_get : string -> option string
}.

Record RateLimitConfig : Type := {
  windowMs : Z;
  maxRequests : Z;
  keyGenerator : option (Request -> string)
}.

Record RateLimitEntry : Type := {
  requests : list Z;      (* the time stamps of the requests let through *)
  blocked : bool
}.

(** [Math.min(...)] of integers is an integer, or [Infinity] for no
    argument. *)
Inductive Extended := Fin (z : Z) | PlusInfinity.

Definition Math_min_all (l : list Z) : Extended :=
  match l with
  | [] => PlusInfinity
  | t :: r => Fin (fold_left Z.min r t)
  end.

(** [Math.ceil(x / 1000)] for an integer [x]. *)
Definition Math_ceil (q : Q) : Z := Qceiling q.

Record RateLimitResult : Type := {
  allowed : bool;
  retryAfter : option Extended;
  remainingRequests : option Z
}.

Definition is_comma (c : ascii) : bool := Ascii.eqb c ",".

Definition getKey (config : RateLimitConfig) (request : Request) : string :=
  match keyGenerator config with
  | Some generate => generate request
  | None =>
      match headers_get request "x-forwarded-for" with
      | Some (String _ _ as forwarded) =>
          trim (hd "" (split_char is_comma forwarded))
      | _ => "unknown"
      end
  end.

(** [Math.ceil((oldestRequest + windowMs - now) / 1000)] *)
Definition retryAfterOf (config : RateLimitConfig) (now : Z) (l : list Z) : Extended :=
  match Math_min_all l with
  | Fin oldestRequest =>
      Fin (Math_ceil (inject_Z (oldestRequest + windowMs config - now) / inject_Z 1000))
  | PlusInfinity => PlusInfinity
  end.

Definition denied (config : RateLimitConfig) (now : Z) (l : list Z) : RateLimitResult :=
  {| allowed := false; retryAfter := Some (retryAfterOf config now l);
     remainingRequests := Some 0%Z |}.

(** [isAllowed(request)] at the time [now = Date.now()], on the store of
    the limiter; the store after the call is returned with the answer. *)
Definition isAllowed (config : RateLimitConfig) (store : list (string * RateLimitEntry))
           (request : Request) (now : Z)
  : RateLimitResult * list (string * RateLimitEntry) :=
  let key := getKey config request in
  let windowStart := (now - windowMs config)%Z in
  let entry :=
    match Map_get key store with
    | Some entry => entry
    | None => {| requests := []; blocked := false |}
    end in
  let inWindow := filter (fun timestamp => (windowStart <? timestamp)%Z) (requests entry) in
  if blocked entry && (maxRequests config <=? Z.of_nat (List.length inWindow))%Z then
    (denied config now inWindow,
     Map_set key {| requests := inWindow; blocked := blocked entry |} store)
  else if (maxRequests config <=? Z.of_nat (List.length inWindow))%Z then
    (denied config now inWindow,
     Map_set key {| requests := inWindow; blocked := true |} store)
  else
    let pushed := inWindow ++ [now] in
    ({| allowed := true; retryAfter := None;
        remainingRequests :=
          Some (maxRequests config - Z.of_nat (List.length pushed))%Z |},
     Map_set key {| requests := pushed; blocked := false |} store).

(** [cleanup()], run by the timer at the time [now]: every entry loses
    the time stamps outside the window, and an entry left without time
    stamps is deleted. *)
Definition cleanup (config : RateLimitConfig) (now : Z)
           (store : list (string * RateLimitEntry)) : list (string * RateLimitEntry) :=
  let windowStart := (now - windowMs config)%Z in
  filter (fun kv => negb (List.length (requests (snd kv)) =? 0))
         (map (fun kv => (fst kv,
                          {| requests := filter (fun timestamp => (windowStart <? timestamp)%Z)
                                                (requests (snd kv));
                             blocked := blocked (snd kv) |}))
              store).

(** What happens to a limiter: a request is checked, or the timer runs
    the cleanup. *)
Inductive Event := IsAllowed (request : Request) | Cleanup.

(** The limiter together with the log of the requests it let through,
    each with its key and its time. *)
Definition step (config : RateLimitConfig)
           (st : list (string * RateLimitEntry) * list (string * Z))
           (ev : Z * Event) : list (string * RateLimitEntry) * list (string * Z) :=
  match snd ev with
  | IsAllowed request =>
      let '(answer, store) := isAllowed config (fst st) request (fst ev) in
      (store,
       if allowed answer then snd st ++ [(getKey config request, fst ev)] else snd st)
  | Cleanup => (cleanup config (fst ev) (fst st), snd st)
  end.

(** A new limiter (its store is empty) after the events, in order. *)
Definition run (config : RateLimitConfig) (events : list (Z * Event))
  : list (string * RateLimitEntry) * list (string * Z) :=
  fold_left (step config) events ([], []).

(** The clock does not go back. *)
Fixpoint clock_ok (last : Z) (times : list Z) : Prop :=
  match times with
  | [] => True
  | t :: r => (last <= t)%Z /\ clock_ok t r
  end.

(** The time stamps that the store holds for a key. *)
Definition requestsOf (store : list (string * RateLimitEntry)) (key : string) : list Z :=
  match Map_get key store with
  | Some entry => requests entry
  | None => []
  end.

(** The requests of a key let through after the time [since]. *)
Definition letThrough (key : string) (since : Z) (log : list (string * Z)) : list Z :=
  filter (fun t => (since <? t)%Z)
         (map snd (filter (fun g => String.eqb (fst g) key) log)).

End Security.

(* ===================================================================== *)
(** * utils/validation-utils: validateHeadingHierarchy *)
(* ===================================================================== *)

Module Validation.

(** The function from [headingSequence] on: the levels (1 to 6) of the
    headings that the regular expression finds in the page, in document
    order. *)

Record Hierarchy : Type := {
  hierarchyScore : Z;
  hierarchyIssues : list Issue
}.

(** The variables of the loop over the sequence. *)
Record Walk : Type := {
  index : nat;
  score_ : Z;
  currentMaxLevel : nat;
  violations : list string
}.

(** [a.join(', ')] *)
Fixpoint join (l : list string) : string :=
  match l with
  | [] => ""
  | [x] => x
  | x :: r => x +++ ", " +++ join r
  end.

Definition level_name (j : nat) : string := "H" +++ nat_to_string j.

(** The inner loop [for (j = currentMaxLevel + 1; j < currentLevel; j++)]. *)
Definition skippedLevels (currentMaxLevel_ currentLevel : nat) : list string :=
  map level_name (List.seq (currentMaxLevel_ + 1) (currentLevel - (currentMaxLevel_ + 1))).

Definition visit (w : Walk) (currentLevel : nat) : Walk :=
  if index w =? 0 then
    if negb (currentLevel =? 1) then
      {| index := S (index w);
         score_ := Z.max 0 (score_ w - 8);
         currentMaxLevel := currentLevel;
         violations :=
           violations w ++ ["La página debería comenzar con H1, pero comienza con "
                              +++ level_name currentLevel] |}
    else
      {| index := S (index w); score_ := score_ w;
         currentMaxLevel := currentLevel; violations := violations w |}
  else
    let jumped := currentMaxLevel w + 1 <? currentLevel in
    let skipped := skippedLevels (currentMaxLevel w) currentLevel in
    let penalty := ((Z.of_nat currentLevel - Z.of_nat (currentMaxLevel w) - 1) * 2)%Z in
    {| index := S (index w);
       score_ := if jumped then Z.max 0 (score_ w - penalty) else score_ w;
       currentMaxLevel :=
         if currentMaxLevel w <? currentLevel then currentLevel else currentMaxLevel w;
       violations :=
         if jumped
         then violations w
                ++ ["Salto jerárquico detectado: de " +++ level_name (currentMaxLevel w)
                      +++ " a " +++ level_name currentLevel
                      +++ ", falta" +++ (if 1 <? List.length skipped then "n" else "")
                      +++ " " +++ join skipped]
         else violations w |}.

Definition violationIssue (violation : string) : Issue :=
  createIssue IssueWarning
    (violation
       +++ ". Los encabezados deben seguir un orden secuencial H1→H2→H3→H4→H5→H6")
    Medium Content.

Definition h2BeforeH1 : Issue :=
  createIssue IssueWarning
    "H2 encontrado antes que H1. El primer encabezado debe ser H1" Medium Content.

Definition h3WithoutH2 : Issue :=
  createIssue IssueWarning
    "H3 encontrado sin H2 previo. Debe existir un H2 antes del primer H3" Medium Content.

Definition hierarchySuccess : Issue :=
  createIssue IssueSuccess
    "Excelente estructura jerárquica de encabezados - orden secuencial correcto"
    Low Content.

(** [l.slice(0, l.indexOf(x))], or [None] when [indexOf] is -1. *)
Fixpoint beforeFirst (x : nat) (l : list nat) : option (list nat) :=
  match l with
  | [] => None
  | y :: r => if y =? x then Some [] else option_map (cons y) (beforeFirst x r)
  end.

Definition includesLevel (l : list nat) (x : nat) : bool := existsb (Nat.eqb x) l.

(** [firstIndex !== -1 && !before.includes(needed)] *)
Definition appearsWithout (level needed : nat) (headingSequence : list nat) : bool :=
  match beforeFirst level headingSequence with
  | Some before => negb (includesLevel before needed)
  | None => false
  end.

Definition hierarchyOf (headingSequence : list nat) : Hierarchy :=
  if List.length headingSequence =? 0 then
    {| hierarchyScore := 0; hierarchyIssues := [] |}
  else
    let w := fold_left visit headingSequence
                       {| index := 0; score_ := Z.max 0 0;
                          currentMaxLevel := 0; violations := [] |} in
    let issues0 := map violationIssue (violations w) in
    let '(score1, issues1) :=
      if appearsWithout 2 1 headingSequence
      then (Z.max 0 (score_ w - 6), issues0 ++ [h2BeforeH1])
      else (score_ w, issues0) in
    let '(score2, issues2) :=
      if appearsWithout 3 2 headingSequence
      then (Z.max 0 (score1 - 5), issues1 ++ [h3WithoutH2])
      else (score1, issues1) in
    let issues3 :=
      if (List.length (violations w) =? 0) && (1 <? List.length headingSequence)
      then issues2 ++ [hierarchySuccess] else issues2 in
    {| hierarchyScore := score2; hierarchyIssues := issues3 |}.

(** A sequence that starts with level 1 and never goes more than one
    level below the deepest level reached so far. *)
Fixpoint descends (deepest : nat) (levels : list nat) : bool :=
  match levels with
  | [] => true
  | level :: rest => (level <=? deepest + 1) && descends (Nat.max deepest level) rest
  end.

Definition sequential (headingSequence : list nat) : bool :=
  match headingSequence with
  | [] => false
  | first :: rest => (first =? 1) && descends first rest
  end.

End Validation.

(* ===================================================================== *)
(** * errors: shouldRetryError *)
(* ===================================================================== *)

Module Retry.

Import Errors.

(** [shouldRetryError(error, attemptCount, maxRetries)] *)
Definition shouldRetryError (error : SEOError) (attemptCount maxRetries : Z) : bool :=
  if negb (seo_retryable error) || (maxRetries <=? attemptCount)%Z then false
  else if match seo_type error with
          | VALIDATION | URL_FORMAT => true
          | _ => false
          end then false
  else if match seo_httpStatus error with
          | Some httpStatus =>
              negb (httpStatus =? 0)%N && existsb (N.eqb httpStatus) [404; 403; 401]%N
          | None => false
          end then false
  else true.

End Retry.

(* ===================================================================== *)
(** * Further concrete sites, pages and requests *)
(* ===================================================================== *)

Module Cases.

Import Robots Security.

(** A site on which every request fails in the network. *)
Definition fetchFails (u : string) (timeoutMs : Z) : result Error PageResponse :=
  Throw (new_Error "fetch failed").

(** A site that answers 200 with a blank body: a space and a no-break
    space (U+00A0, the bytes C2 A0). *)
Definition blankResponse : PageResponse :=
  {| response_status := 200;
     response_text := String " " (String (ascii_of_nat 194) (String (ascii_of_nat 160) ""));
     response_loadTime := 50 |}.

Definition fetchBlank (u : string) (timeoutMs : Z) : result Error PageResponse :=
  Return blankResponse.

(** An operation that fails in the network at its first attempt and
    returns at the second. *)
Definition flaky (attempt : nat) : result Error nat :=
  if attempt <? 1 then Throw (new_Error "fetch failed") else Return 7.

(** Two results for the same analyzer with the same score. *)
Definition titleResult (found : list Issue) : AnalysisResult :=
  {| score := of_Z 80; issues := found; data := None |}.

Definition failedAt (u : string) : CompleteAnalysisResult :=
  Api.failedResult u "Error en análisis interno".


(** An inner page with a relative link whose target starts with
    [http]. *)
Definition guideLink : string := "<a href='http-guide'>".

Definition guideContext : AnalysisContext :=
  {| ctx_url := rootUrl; ctx_html := "<p>" +++ guideLink +++ "Guide</a></p>";
     ctx_status := 200; ctx_loadTime := 120; ctx_isMainPage := false |}.






(** A limiter that lets two requests through per minute, and a client
    that asks twice within two seconds. *)
Definition twoPerMinute : RateLimitConfig :=
  {| windowMs := 60000; maxRequests := 2; keyGenerator := None |}.

Definition client (ip : string) : Request :=
  {| method := "POST";
     headers_get := fun name =>
                      if String.eqb name "x-forwarded-for" then Some ip else None |}.

Definition burst : list (Z * Event) :=
  [(1000%Z, IsAllowed (client "203.0.113.7")); (2000%Z, IsAllowed (client "203.0.113.7"));
   (3000%Z, Cleanup)].

End Cases.

(** Case analysis on the 256 characters. *)
Ltac ascii_cases c :=
  destruct c as [[|] [|] [|] [|] [|] [|] [|] [|]];
  vm_compute; intros; try reflexivity; try discriminate; try congruence.

(* ===================================================================== *)
(** * Properties *)
(* ===================================================================== *)

(** ** Strings *)

Lemma prefix_append (p s : string) : String.prefix p (p +++ s) = true.
Proof.
  induction p as [|c p IH]; simpl.
  - destruct s; reflexivity.
  - rewrite IH. destruct (ascii_dec c c); [reflexivity | contradiction].
Qed.

Lemma includes_prefix (s n : string) : String.prefix n s = true -> includes s n = true.
Proof. intros H. destruct s; cbn [includes]; rewrite H; reflexivity. Qed.

Lemma includes_append (a n b : string) : includes (a +++ n +++ b) n = true.
Proof.
  induction a as [|c a IH].
  - cbn [String.append]. apply includes_prefix, prefix_append.
  - cbn [String.append includes]. rewrite IH. apply orb_true_r.
Qed.

(** ** White space and [trim] *)

Lemma trimStart_unfold (s : string) :
  trimStart s = match ws_prefix s with
                | Some r => trimStart r
                | None => s
                end.
Proof.
  destruct s as [|c1 [|c2 [|c3 r]]]; cbn [trimStart ws_prefix]; try reflexivity.
  - destruct (is_ws c1); reflexivity.
  - destruct (is_ws c1); [reflexivity|]. destruct (is_ws2 c1 c2); reflexivity.
  - destruct (is_ws c1); [reflexivity|]. destruct (is_ws2 c1 c2); [reflexivity|].
    destruct (is_ws3 c1 c2 c3); reflexivity.
Qed.

Lemma ws_prefix_length (s r : string) :
  ws_prefix s = Some r -> String.length r < String.length s.
Proof.
  destruct s as [|c1 [|c2 [|c3 r3]]]; cbn [ws_prefix]; try discriminate.
  - destruct (is_ws c1); [|discriminate]. intros H. injection H as <-. cbn. lia.
  - destruct (is_ws c1); [intros H; injection H as <-; cbn; lia|].
    destruct (is_ws2 c1 c2); [|discriminate]. intros H. injection H as <-. cbn. lia.
  - destruct (is_ws c1); [intros H; injection H as <-; cbn; lia|].
    destruct (is_ws2 c1 c2); [intros H; injection H as <-; cbn; lia|].
    destruct (is_ws3 c1 c2 c3); [|discriminate]. intros H. injection H as <-. cbn. lia.
Qed.

(** Induction along the white space at the beginning of a string. *)
Lemma ws_induction (P : string -> Prop) :
  (forall s, (forall r, ws_prefix s = Some r -> P r) -> P s) ->
  forall s, P s.
Proof.
  intros step s. remember (String.length s) as n eqn:E.
  revert s E. induction n as [n IH] using lt_wf_ind. intros s E.
  apply step. intros r Hr. apply (IH (String.length r)); [|reflexivity].
  subst n. exact (ws_prefix_length s r Hr).
Qed.

Lemma ws_prefix_append (a a' w : string) :
  ws_prefix a = Some a' -> ws_prefix (a +++ w) = Some (a' +++ w).
Proof.
  destruct a as [|c1 [|c2 [|c3 r3]]]; cbn [ws_prefix String.append]; try discriminate.
  - destruct (is_ws c1); [|discriminate]. intros H. injection H as <-. reflexivity.
  - destruct (is_ws c1); [intros H; injection H as <-; reflexivity|].
    destruct (is_ws2 c1 c2); [|discriminate].
    intros H. injection H as <-. destruct w; reflexivity.
  - destruct (is_ws c1); [intros H; injection H as <-; reflexivity|].
    destruct (is_ws2 c1 c2); [intros H; injection H as <-; reflexivity|].
    destruct (is_ws3 c1 c2 c3); [|discriminate]. intros H. injection H as <-. reflexivity.
Qed.

Lemma trimStart_length (s : string) : String.length (trimStart s) <= String.length s.
Proof.
  induction s as [s IH] using ws_induction. rewrite trimStart_unfold.
  destruct (ws_prefix s) as [r|] eqn:E; [|lia].
  specialize (IH r eq_refl). pose proof (ws_prefix_length s r E). lia.
Qed.

Lemma trimStart_fixed (s : string) :
  trimStart s = s <-> s = "" \/ ws_prefix s = None.
Proof.
  split.
  - intros H. destruct (ws_prefix s) as [r|] eqn:E; [|right; reflexivity].
    rewrite trimStart_unfold, E in H.
    pose proof (trimStart_length r) as Hl. pose proof (ws_prefix_length s r E) as Hr.
    rewrite H in Hl. lia.
  - intros [->|H]; [reflexivity|]. rewrite trimStart_unfold, H. reflexivity.
Qed.

Lemma ws_prefix_trimStart (s : string) : ws_prefix (trimStart s) = None.
Proof.
  induction s as [s IH] using ws_induction. rewrite trimStart_unfold.
  destruct (ws_prefix s) as [r|] eqn:E; [exact (IH r eq_refl) | exact E].
Qed.

Lemma trimStart_idempotent (s : string) : trimStart (trimStart s) = trimStart s.
Proof. apply trimStart_fixed. right. apply ws_prefix_trimStart. Qed.

Lemma blank_append (a w : string) :
  blank a = true -> blank w = true -> blank (a +++ w) = true.
Proof.
  unfold blank. induction a as [a IH] using ws_induction. intros Ha Hw.
  rewrite trimStart_unfold in Ha. destruct (ws_prefix a) as [r|] eqn:E.
  - rewrite trimStart_unfold, (ws_prefix_append a r w E). exact (IH r eq_refl Ha Hw).
  - apply String.eqb_eq in Ha. subst a. exact Hw.
Qed.

Lemma trimEnd_blank (s : string) : blank s = true -> trimEnd s = "".
Proof. intros H. destruct s as [|c r]; [reflexivity|]. cbn [trimEnd]. rewrite H. reflexivity. Qed.

Lemma trimEnd_cons (c : ascii) (r : string) :
  blank (String c r) = false -> trimEnd (String c r) = String c (trimEnd r).
Proof. intros H. cbn [trimEnd]. rewrite H. reflexivity. Qed.

(** [trimEnd] cuts white space off the end. *)
Lemma trimEnd_split (s : string) :
  exists w, s = trimEnd s +++ w /\ blank w = true.
Proof.
  induction s as [|c r IH].
  - exists "". split; reflexivity.
  - destruct (blank (String c r)) eqn:E.
    + rewrite (trimEnd_blank _ E). exists (String c r). split; [reflexivity | exact E].
    + rewrite (trimEnd_cons _ _ E). destruct IH as (w & Hw & Hb).
      exists w. split; [|exact Hb]. cbn [String.append]. rewrite <- Hw. reflexivity.
Qed.

Lemma blank_trimEnd (s : string) : blank (trimEnd s) = blank s.
Proof.
  destruct (trimEnd_split s) as (w & Hs & Hw).
  destruct (blank s) eqn:E; [rewrite (trimEnd_blank _ E); reflexivity|].
  destruct (blank (trimEnd s)) eqn:E'; [|reflexivity].
  rewrite Hs, (blank_append _ _ E' Hw) in E. discriminate E.
Qed.

Lemma trimEnd_idempotent (s : string) : trimEnd (trimEnd s) = trimEnd s.
Proof.
  induction s as [|c r IH]; [reflexivity|].
  destruct (blank (String c r)) eqn:E.
  - rewrite (trimEnd_blank _ E). reflexivity.
  - rewrite (trimEnd_cons _ _ E). rewrite trimEnd_cons, IH; [reflexivity|].
    rewrite <- (trimEnd_cons _ _ E), blank_trimEnd. exact E.
Qed.

Lemma ws_prefix_trimEnd (s : string) : ws_prefix s = None -> ws_prefix (trimEnd s) = None.
Proof.
  intros H. destruct (trimEnd_split s) as (w & Hs & _).
  destruct (ws_prefix (trimEnd s)) as [r|] eqn:E; [|reflexivity].
  rewrite Hs, (ws_prefix_append _ _ w E) in H. discriminate H.
Qed.

(** What [trim] returns neither starts nor ends with white space. *)
Lemma trimStart_trim (s : string) : trimStart (trim s) = trim s.
Proof.
  unfold trim. apply trimStart_fixed. right.
  apply ws_prefix_trimEnd, ws_prefix_trimStart.
Qed.

Lemma trim_idempotent (s : string) : trim (trim s) = trim s.
Proof.
  unfold trim at 1. rewrite trimStart_trim. unfold trim. apply trimEnd_idempotent.
Qed.

(** A byte with which no white space starts stays where it is. *)
Lemma ws_prefix_lead (c : ascii) (r : string) :
  no_ws_lead c = true -> ws_prefix (String c r) = None.
Proof.
  unfold no_ws_lead. intros H. apply andb_true_iff in H. destruct H as [H1 H2].
  apply negb_true_iff in H1, H2. cbn [ws_prefix]. rewrite H1.
  repeat (apply orb_false_iff in H2; destruct H2 as [H2 ?]).
  destruct r as [|c2 [|c3 r3]]; try reflexivity; unfold is_ws2, is_ws3;
    repeat match goal with
           | E : (code c =? _) = false |- _ => rewrite E; clear E
           end; reflexivity.
Qed.

Lemma blank_lead (c : ascii) (r : string) :
  no_ws_lead c = true -> blank (String c r) = false.
Proof.
  intros H. unfold blank. rewrite trimStart_unfold, (ws_prefix_lead c r H). reflexivity.
Qed.

Lemma trimStart_lead (c : ascii) (r : string) :
  no_ws_lead c = true -> trimStart (String c r) = String c r.
Proof. intros H. apply trimStart_fixed. right. exact (ws_prefix_lead c r H). Qed.

Lemma trimEnd_lead (c : ascii) (r : string) :
  no_ws_lead c = true -> trimEnd (String c r) = String c (trimEnd r).
Proof. intros H. apply trimEnd_cons. exact (blank_lead c r H). Qed.

Lemma trimEnd_all_lead (s : string) :
  forallb_str no_ws_lead s = true -> trimEnd s = s.
Proof.
  induction s as [|c r IH]; [reflexivity|]. cbn [forallb_str]. intros H.
  apply andb_true_iff in H. destruct H as [Hc Hr].
  rewrite (trimEnd_lead c r Hc), (IH Hr). reflexivity.
Qed.

(** What [trim] returns is a piece of its argument. *)
Lemma trimStart_suffix (s : string) : exists a, s = a +++ trimStart s.
Proof.
  induction s as [s IH] using ws_induction. rewrite trimStart_unfold.
  destruct (ws_prefix s) as [r|] eqn:E; [|exists ""; reflexivity].
  destruct (IH r eq_refl) as (a & Ha).
  assert (Hs : exists b, s = b +++ r).
  { clear - E. destruct s as [|c1 [|c2 [|c3 r3]]]; cbn [ws_prefix] in E; try discriminate.
    - destruct (is_ws c1); [|discriminate]. injection E as <-. exists (String c1 "").
      reflexivity.
    - destruct (is_ws c1); [injection E as <-; exists (String c1 ""); reflexivity|].
      destruct (is_ws2 c1 c2); [|discriminate]. injection E as <-.
      exists (String c1 (String c2 "")). reflexivity.
    - destruct (is_ws c1); [injection E as <-; exists (String c1 ""); reflexivity|].
      destruct (is_ws2 c1 c2);
        [injection E as <-; exists (String c1 (String c2 "")); reflexivity|].
      destruct (is_ws3 c1 c2 c3); [|discriminate]. injection E as <-.
      exists (String c1 (String c2 (String c3 ""))). reflexivity. }
  destruct Hs as (b & Hb). exists (b +++ a).
  rewrite Hb at 1. rewrite Ha at 1.
  clear. induction b as [|c b IHb]; [reflexivity|]. cbn [String.append]. rewrite IHb.
  reflexivity.
Qed.

(** ** Batches and retries *)

Lemma batchesFrom_unfold (l : list string) (i : nat) :
  batchesFrom l i =
  if lt_dec i (List.length l)
  then slice i (i + BATCH_SIZE) l :: batchesFrom l (i + BATCH_SIZE)
  else [].
Proof.
  rewrite batchesFrom_equation_1 at 1.
  destruct (lt_dec i (List.length l)); reflexivity.
Qed.

Lemma slice_batch (l : list string) (i : nat) :
  slice i (i + BATCH_SIZE) l = firstn BATCH_SIZE (skipn i l).
Proof. unfold slice. f_equal. lia. Qed.

Lemma skipn_add {A} (l : list A) (i k : nat) :
  skipn (i + k) l = skipn k (skipn i l).
Proof. rewrite Nat.add_comm. symmetry. apply skipn_skipn. Qed.

Lemma concat_batchesFrom (n : nat) :
  forall (l : list string) (i : nat),
    List.length l - i <= n -> concat (batchesFrom l i) = skipn i l.
Proof.
  induction n as [|n IH]; intros l i Hn; rewrite batchesFrom_unfold;
    destruct (lt_dec i (List.length l)) as [Hlt|Hge].
  - lia.
  - simpl. symmetry. apply skipn_all2. lia.
  - simpl. rewrite IH by (unfold BATCH_SIZE; lia).
    rewrite slice_batch, skipn_add. apply firstn_skipn.
  - simpl. symmetry. apply skipn_all2. lia.
Qed.




Lemma attempts_return {T} (op : nat -> result Error T) (a r : nat) (v : T) :
  op a = Return v -> attempts op a r = Return v.
Proof. intros H. destruct r; simpl; rewrite H; reflexivity. Qed.

Lemma attempts_unfold {T} (op : nat -> result Error T) (a r : nat) :
  attempts op a r =
  match op a with
  | Return v => Return v
  | Throw e =>
      match r with
      | 0 => Throw (handle e)
      | S n => if negb (retryable (handle e)) then Throw (handle e)
               else attempts op (S a) n
      end
  end.
Proof. destruct r; reflexivity. Qed.


Lemma processBatches_app analyzePage (bs : list (list string)) :
  forall acc,
    processBatches analyzePage acc bs
    = acc ++ map (analyzeInternal analyzePage) (concat bs).
Proof.
  unfold processBatches, processBatch.
  induction bs as [|b bs IH]; intros acc; simpl.
  - symmetry. apply app_nil_r.
  - rewrite IH, map_app, app_assoc. reflexivity.
Qed.

Lemma batches_concat (l : list string) : concat (batches l) = l.
Proof. unfold batches. rewrite (concat_batchesFrom (List.length l)); [reflexivity | lia]. Qed.


(** ** The crawl entrypoint *)

Lemma mainStatusCode_cases (t : option string) :
  In (mainStatusCode t) [400; 408; 500; 502]%N.
Proof.
  unfold mainStatusCode. destruct t as [t|]; [|simpl; tauto].
  repeat match goal with
         | |- context [if ?b then _ else _] => destruct b
         end; simpl; tauto.
Qed.

Lemma mainErrorBody_not_report (u : string) (r : CompleteAnalysisResult) :
  forall report, mainErrorBody u r <> ReportBody report.
Proof.
  intros report. unfold mainErrorBody.
  destruct (page_errorCode r) as [[|c s]|]; discriminate.
Qed.

(** C1 (amended).  For a crawl whose root URL passed validation: when the
    analysis of the main page succeeds, the entrypoint answers 200 with a
    report that holds the main page's result followed by one result per
    frontier URL, whatever happens to the other pages, and whose summary
    counts every page as successful or failed; when the analysis of the
    main page fails, the entrypoint answers 400, 408, 500 or 502 with an
    error body and no report. *)
Theorem crawl_reports_iff_main_page_succeeds
        (analyzePage : string -> bool -> nat -> result Error CompleteAnalysisResult)
        (cfg : SEOConfig) (u : string) :
  let main := analyzeMainPage analyzePage u in
  (page_status main = Success ->
   exists report,
     POST analyzePage cfg u = {| statusCode := 200%N; responseBody := ReportBody report |} /\
     mainPage report = main /\
     pages report = main :: map (analyzeInternal analyzePage) (urlsToAnalyze cfg u main) /\
     totalPages (summary report) = List.length (pages report) /\
     successfulPages (summary report) + failedPages (summary report)
       = totalPages (summary report)) /\
  (page_status main = Failed ->
   In (statusCode (POST analyzePage cfg u)) [400; 408; 500; 502]%N /\
   ~ returns_report (POST analyzePage cfg u)).
Proof.
  intros main. split; intros Hmain.
  - assert (Hpages :
      (if 0 <? List.length (urlsToAnalyze cfg u main)
       then processBatches analyzePage [main] (batches (urlsToAnalyze cfg u main))
       else [main])
      = main :: map (analyzeInternal analyzePage) (urlsToAnalyze cfg u main)).
    { destruct (urlsToAnalyze cfg u main) as [|x l] eqn:E.
      - reflexivity.
      - simpl Nat.ltb. cbv iota.
        rewrite processBatches_app, batches_concat. reflexivity. }
    unfold POST. fold main. rewrite Hmain.
    eexists. split; [reflexivity|]. cbn [mainPage pages summary].
    rewrite Hpages. repeat split.
    unfold summarize. cbn [totalPages successfulPages failedPages].
    pose proof (filter_length_le (isSuccess)
                  (main :: map (analyzeInternal analyzePage) (urlsToAnalyze cfg u main))).
    lia.
  - unfold POST. fold main. rewrite Hmain. cbn [statusCode responseBody]. split.
    + apply mainStatusCode_cases.
    + intros [report H]. cbn in H. exact (mainErrorBody_not_report _ _ _ H).
Qed.

(** C1 counterexample: the root URL passes validation, the main page
    answers 404, and the entrypoint answers 502 with the failed page
    instead of a report. *)
Lemma crawl_without_report_when_main_page_fails :
  Errors.validateUrlFormat rootUrl = None /\
  statusCode (POST analyzePage404 CONFIG_default rootUrl) = 502%N /\
  ~ returns_report (POST analyzePage404 CONFIG_default rootUrl).
Proof.
  split; [reflexivity|]. split; [reflexivity|].
  intros [report H]. vm_compute in H. discriminate H.
Qed.

Lemma crawl_reports_iff_main_page_succeeds_witness :
  page_status (analyzeMainPage analyzePageSite rootUrl) = Success /\
  page_status (analyzeMainPage analyzePage404 rootUrl) = Failed /\
  (exists report,
      POST analyzePageSite CONFIG_default rootUrl
      = {| statusCode := 200%N; responseBody := ReportBody report |} /\
      failedPages (summary report) = 2) /\
  ~ returns_report (POST analyzePage404 CONFIG_default rootUrl).
Proof.
  split; [reflexivity|]. split; [reflexivity|]. split.
  - destruct (crawl_reports_iff_main_page_succeeds analyzePageSite CONFIG_default rootUrl)
      as [Hok _].
    destruct (Hok eq_refl) as (report & Hpost & _).
    exists report. split; [exact Hpost|].
    vm_compute in Hpost. injection Hpost as Hpost. subst report. reflexivity.
  - destruct (crawl_reports_iff_main_page_succeeds analyzePage404 CONFIG_default rootUrl)
      as [_ Hfail].
    exact (proj2 (Hfail eq_refl)).
Defined.


(** ** Maps *)

Lemma Map_get_set {V} (k k' : string) (v : V) (m : list (string * V)) :
  Map_get k (Map_set k' v m) = if String.eqb k k' then Some v else Map_get k m.
Proof.
  induction m as [|[k0 v0] m IH]; simpl.
  - destruct (String.eqb k k'); reflexivity.
  - destruct (String.eqb k' k0) eqn:E0; simpl.
    + apply String.eqb_eq in E0. subst k0.
      destruct (String.eqb k k'); reflexivity.
    + destruct (String.eqb k k0) eqn:E1.
      * apply String.eqb_eq in E1. subst k0.
        rewrite String.eqb_sym in E0. rewrite E0. reflexivity.
      * exact IH.
Qed.

Lemma Map_set_values_in {V} (k : string) (v x : V) (m : list (string * V)) :
  In x (Map_values (Map_set k v m)) -> x = v \/ In x (Map_values m).
Proof.
  unfold Map_values. induction m as [|[k0 v0] m IH]; simpl.
  - intros [H|[]]; auto.
  - destruct (String.eqb k k0); simpl.
    + intros [H|H]; auto.
    + intros [H|H]; auto. destruct (IH H); auto.
Qed.

Lemma Map_of_values_in {V} (l : list (string * V)) (x : V) :
  In x (Map_values (Map_of l)) -> In x (map snd l).
Proof.
  unfold Map_of.
  assert (G : forall m, In x (Map_values (fold_left (fun m e => Map_set (fst e) (snd e) m) l m))
                        -> In x (map snd l) \/ In x (Map_values m)).
  { induction l as [|[k v] l IH]; intros m H; simpl in *.
    - auto.
    - destruct (IH _ H) as [H1|H1]; auto.
      destruct (Map_set_values_in _ _ _ _ H1); auto. }
  intros H. destruct (G [] H) as [H1|[]]. exact H1.
Qed.

Lemma Map_get_in_values {V} (k : string) (m : list (string * V)) (v : V) :
  Map_get k m = Some v -> In v (Map_values m).
Proof.
  unfold Map_values. induction m as [|[k0 v0] m IH]; simpl; [discriminate|].
  destruct (String.eqb k k0); intros H.
  - left. congruence.
  - right. auto.
Qed.

(** ** Scores *)

Lemma Math_clamp_range (q : Q) : (0 <= Math_max 0 (Math_min 100 q) <= 100)%Q.
Proof.
  unfold Math_max, Math_min.
  destruct (Qle_bool 100 q) eqn:E1.
  - destruct (Qle_bool 0 100) eqn:E2; [lra | discriminate].
  - destruct (Qle_bool 0 q) eqn:E2.
    + apply Qle_bool_iff in E2. split; [exact E2|].
      destruct (Qlt_le_dec q 100) as [H|H]; [lra|].
      apply Qle_bool_iff in H. congruence.
    + lra.
Qed.

Lemma zero_in_range : in_range_0_100 (of_Z 0).
Proof.
  exists (inject_Z 0). split; [reflexivity|]. split; unfold Qle; simpl; lia.
Qed.

Lemma validateScore_range (s : any) : in_range_0_100 (validateScore s).
Proof.
  destruct s as [| |s|[| |q]]; simpl; try apply zero_in_range.
  eexists. split; [reflexivity|]. apply Math_clamp_range.
Qed.

Lemma runAnalyzer_range (context : AnalysisContext) (entry : string * SEOAnalyzer) :
  in_range_0_100 (score (snd (runAnalyzer context entry))).
Proof.
  destruct entry as [name analyzer]. unfold runAnalyzer.
  destruct (analyzer context) as [r|e]; simpl.
  - apply validateScore_range.
  - apply zero_in_range.
Qed.

Lemma Math_round_range (q : Q) (lo hi : Z) :
  (inject_Z lo <= q <= inject_Z hi)%Q -> (lo <= Math_round q <= hi)%Z.
Proof.
  intros [H1 H2]. unfold Math_round. split.
  - rewrite <- (Qfloor_Z lo). apply Qfloor_resp_le. lra.
  - assert (H : (Qfloor (q + (1 # 2)) <= Qfloor (inject_Z hi + (1 # 2)))%Z)
      by (apply Qfloor_resp_le; lra).
    assert (H' : Qfloor (inject_Z hi + (1 # 2)) = hi).
    { unfold Qfloor, inject_Z, Qplus, Qnum, Qden. simpl.
      symmetry. apply Z.div_unique with (r := 1%Z); lia. }
    lia.
Qed.

Lemma round2_range (x : Q) : (0 <= x <= 100)%Q -> (0 <= round2 x <= 100)%Q.
Proof.
  intros [H1 H2]. unfold round2.
  assert (H : (0 <= Math_round (x * 100) <= 10000)%Z).
  { apply Math_round_range.
    change (inject_Z 0) with 0%Q. change (inject_Z 10000) with 10000%Q. split; lra. }
  destruct H as [Ha Hb].
  split.
  - apply Qle_shift_div_l; [reflexivity|].
    rewrite Qmult_0_l. rewrite <- (Zle_Qle 0). exact Ha.
  - apply Qle_shift_div_r; [reflexivity|].
    change (100 * 100)%Q with (inject_Z 10000). rewrite <- Zle_Qle. exact Hb.
Qed.

Lemma tally_invariant (m : list (string * AnalysisResult)) :
  scores_in_range m ->
  forall (ws : list (string * Q)) (t : Tally),
    Forall (fun e => (0 < snd e)%Q) ws ->
    (0 <= overall t <= 100 * totalWeight t)%Q ->
    (0 <= totalWeight t)%Q ->
    (0 < validAnalyzers t -> (0 < totalWeight t)%Q) ->
    let t' := fold_left (tallyStep m) ws t in
    (0 <= overall t' <= 100 * totalWeight t')%Q /\
    (0 <= totalWeight t')%Q /\
    (0 < validAnalyzers t' -> (0 < totalWeight t')%Q).
Proof.
  intros Hm ws. induction ws as [|[name w] ws IH]; intros t Hws H1 H2 H3; simpl.
  - auto.
  - inversion Hws as [|? ? Hw Hws']; subst. simpl in Hw.
    apply IH; try assumption; unfold tallyStep;
      destruct (Map_get name m) as [r|] eqn:E; try assumption;
      destruct (Hm r (Map_get_in_values _ _ _ E)) as [q [Hq Hr]];
      rewrite Hq; simpl.
    + nra.
    + lra.
    + intros _. lra.
Qed.

Lemma weights_positive : Forall (fun e : string * Q => (0 < snd e)%Q) weights.
Proof. unfold weights. repeat constructor. Qed.

Lemma Qsum_range (l : list Q) :
  Forall (fun q => (0 <= q <= 100)%Q) l ->
  forall acc n, (0 <= acc <= 100 * inject_Z (Z.of_nat n))%Q ->
    (0 <= fold_left Qplus l acc <= 100 * inject_Z (Z.of_nat (n + List.length l)))%Q.
Proof.
  induction 1 as [|q l Hq Hl IH]; intros acc n Hacc; simpl.
  - rewrite Nat.add_0_r. exact Hacc.
  - replace (n + S (List.length l)) with (S n + List.length l) by lia.
    apply IH. rewrite Nat2Z.inj_succ. unfold Z.succ. rewrite inject_Z_plus.
    change (inject_Z 1) with 1%Q. lra.
Qed.

Lemma weightedScore_range (m : list (string * AnalysisResult)) :
  scores_in_range m -> (0 <= weightedScore m <= 100)%Q.
Proof.
  intros Hm. unfold weightedScore.
  set (t0 := {| overall := 0; totalWeight := 0; validAnalyzers := 0 |}).
  assert (H0 : (0 <= overall t0 <= 100 * totalWeight t0)%Q) by (simpl; lra).
  assert (H1 : (0 <= totalWeight t0)%Q) by (simpl; lra).
  assert (H2 : 0 < validAnalyzers t0 -> (0 < totalWeight t0)%Q) by (simpl; lia).
  destruct (tally_invariant m Hm weights t0 weights_positive H0 H1 H2) as (Ho & Ht & Hv).
  clear H0 H1 H2.
  set (t := fold_left (tallyStep m) weights t0) in *.
  destruct (negb (Qle_bool (totalWeight t) 0) && (0 <? validAnalyzers t)) eqn:E.
  - apply andb_true_iff in E. destruct E as [_ E]. apply Nat.ltb_lt in E.
    specialize (Hv E). apply round2_range. split.
    + apply Qle_shift_div_l; [exact Hv | lra].
    + apply Qle_shift_div_r; [exact Hv | lra].
  - destruct (0 <? validAnalyzers t); [|lra].
    set (valid := map (fun r => valueOf (score r))
                      (filter (fun r => isValidScore (score r)) (Map_values m))).
    destruct (0 <? List.length valid) eqn:El; [|lra].
    apply Nat.ltb_lt in El.
    assert (Hvalid : Forall (fun q => (0 <= q <= 100)%Q) valid).
    { apply Forall_forall. intros q Hq. unfold valid in Hq.
      apply in_map_iff in Hq. destruct Hq as (r & Hr & Hin).
      apply filter_In in Hin. destruct Hin as [Hin _].
      destruct (Hm r Hin) as (q' & Hq' & Hrange). rewrite Hq' in Hr. simpl in Hr.
      subst q'. exact Hrange. }
    assert (Hzero : (0 <= 0 <= 100 * inject_Z (Z.of_nat 0))%Q)
      by (split; unfold Qle; simpl; lia).
    pose proof (Qsum_range valid Hvalid 0%Q 0 Hzero) as Hsum.
    simpl in Hsum.
    assert (Hn : (0 < inject_Z (Z.of_nat (List.length valid)))%Q).
    { change 0%Q with (inject_Z 0). rewrite <- Zlt_Qlt. lia. }
    apply round2_range. unfold Qsum. split.
    + apply Qle_shift_div_l; [exact Hn | lra].
    + apply Qle_shift_div_r; [exact Hn | lra].
Qed.

Lemma runAnalyzers_in_range (analyzers : list (string * SEOAnalyzer)) (context : AnalysisContext) :
  scores_in_range (Map_of (runAnalyzers analyzers context)).
Proof.
  intros r Hr. apply Map_of_values_in in Hr. unfold runAnalyzers in Hr.
  rewrite map_map in Hr. apply in_map_iff in Hr. destruct Hr as (entry & Heq & _).
  subst r. apply runAnalyzer_range.
Qed.

Lemma overallScore_range (analyzers : list (string * SEOAnalyzer)) (context : AnalysisContext) :
  (0 <= overallScore (combineAnalysisResults (runAnalyzers analyzers context) context) <= 100)%Z.
Proof.
  simpl. apply Math_round_range. change (inject_Z 0) with 0%Q.
  change (inject_Z 100) with 100%Q.
  apply weightedScore_range, runAnalyzers_in_range.
Qed.

Lemma validateScore_fixes_valid (q : Q) :
  (0 <= q <= 100)%Q -> (valueOf (validateScore (Num (Finite q))) == q)%Q.
Proof.
  intros [H0 H100]. simpl. unfold Math_max, Math_min.
  destruct (Qle_bool 100 q) eqn:E.
  - apply Qle_bool_iff in E. simpl. lra.
  - assert (E0 : Qle_bool 0 q = true) by (apply Qle_bool_iff; exact H0).
    rewrite E0. reflexivity.
Qed.

Lemma validateScore_above (q : Q) :
  (100 <= q)%Q -> validateScore (Num (Finite q)) = of_Z 100.
Proof.
  intros H. cbn [validateScore]. unfold Math_max, Math_min.
  apply Qle_bool_iff in H. rewrite H. reflexivity.
Qed.

Lemma validateScore_below (q : Q) :
  (q < 0)%Q -> validateScore (Num (Finite q)) = of_Z 0.
Proof.
  intros H. cbn [validateScore]. unfold Math_max, Math_min.
  destruct (Qle_bool 100 q) eqn:E1; [apply Qle_bool_iff in E1; lra|].
  destruct (Qle_bool 0 q) eqn:E2; [apply Qle_bool_iff in E2; lra|].
  reflexivity.
Qed.

Lemma validateScore_no_number (s : any) :
  isValidScore s = false -> validateScore s = of_Z 0.
Proof.
  destruct s as [| |s|[| |q]]; try reflexivity. discriminate.
Qed.

Lemma runAnalyzer_success (context : AnalysisContext) (name : string)
      (analyzer : SEOAnalyzer) (r : AnalysisResult) :
  analyzer context = Return r ->
  runAnalyzer context (name, analyzer)
  = (name, {| score := validateScore (score r); issues := issues r; data := data r |}).
Proof. intros H. unfold runAnalyzer. rewrite H. reflexivity. Qed.

Section OrchestratorInstance.

Variable fetchWithTimeout : string -> Z -> result Error PageResponse.
Variable PAGE_SIZE_LIMIT : nat.
Variable cfg : SEOConfig.

Lemma analyzeUrl_score_range (analyzers : list (string * SEOAnalyzer))
      (u : string) (isMainPage : bool) (timeoutMs : Z) :
  (0 <= seoScore (analyzeUrl fetchWithTimeout PAGE_SIZE_LIMIT cfg analyzers
                             u isMainPage timeoutMs) <= 100)%Z.
Proof.
  unfold analyzeUrl. destruct (Errors.validateUrlFormat u); [simpl; lia|].
  unfold performAnalysis.
  destruct (fetchWithTimeout u _) as [response|e]; [|simpl; lia].
  unfold rbind.
  destruct (negb (response_ok response)); [simpl; lia|].
  destruct (String.eqb _ _ || _); [simpl; lia|].
  destruct (PAGE_SIZE_LIMIT <? _); [simpl; lia|].
  unfold try_catch. cbn [seoScore convertToLegacyFormat].
  apply overallScore_range.
Qed.

(** C10.  Whatever an analyzer returns as its score (a number, NaN, an
    infinity, a negative or huge value, or no number at all), the
    orchestrator replaces it by a number between 0 and 100 before
    combining: a value already in that range is kept, a number of 100 or
    more becomes 100, a negative number becomes 0, and NaN, an infinity
    and whatever is no number become 0; and the overall score of every
    page, and the score reported by [analyzeUrl], is an integer between 0
    and 100. *)
Theorem orchestrator_score_is_clamped_integer (analyzers : list (string * SEOAnalyzer)) :
  (forall s, in_range_0_100 (validateScore s)) /\
  (forall q, (0 <= q <= 100)%Q -> (valueOf (validateScore (Num (Finite q))) == q)%Q) /\
  (forall q, (100 <= q)%Q -> validateScore (Num (Finite q)) = of_Z 100) /\
  (forall q, (q < 0)%Q -> validateScore (Num (Finite q)) = of_Z 0) /\
  (forall s, isValidScore s = false -> validateScore s = of_Z 0) /\
  (forall context name analyzer r,
      analyzer context = Return r ->
      runAnalyzer context (name, analyzer)
      = (name, {| score := validateScore (score r); issues := issues r; data := data r |})) /\
  (forall context,
      (0 <= overallScore (combineAnalysisResults (runAnalyzers analyzers context) context)
       <= 100)%Z) /\
  (forall u isMainPage timeoutMs,
      (0 <= seoScore (analyzeUrl fetchWithTimeout PAGE_SIZE_LIMIT cfg analyzers
                                 u isMainPage timeoutMs) <= 100)%Z).
Proof.
  split; [exact validateScore_range|].
  split; [exact validateScore_fixes_valid|].
  split; [exact validateScore_above|].
  split; [exact validateScore_below|].
  split; [exact validateScore_no_number|].
  split; [exact runAnalyzer_success|].
  split; [intros; apply overallScore_range|].
  intros. apply analyzeUrl_score_range.
Qed.

End OrchestratorInstance.

(** ** A failing analyzer *)

Lemma Map_get_scoresOf (k : string) (m : list (string * AnalysisResult)) :
  Map_get k (scoresOf m) = option_map score (Map_get k m).
Proof.
  induction m as [|[k0 v0] m IH]; simpl; [reflexivity|].
  destruct (String.eqb k k0); [reflexivity | exact IH].
Qed.

Lemma scoresOf_Map_set (k : string) (v : AnalysisResult) (m : list (string * AnalysisResult)) :
  scoresOf (Map_set k v m) = Map_set k (score v) (scoresOf m).
Proof.
  induction m as [|[k0 v0] m IH]; simpl; [reflexivity|].
  destruct (String.eqb k k0); simpl; [reflexivity | rewrite IH; reflexivity].
Qed.

Lemma scoresOf_Map_of (l : list (string * AnalysisResult)) :
  scoresOf (Map_of l) = Map_of (scoresOf l).
Proof.
  unfold Map_of.
  assert (G : forall m,
             scoresOf (fold_left (fun m e => Map_set (fst e) (snd e) m) l m)
             = fold_left (fun m e => Map_set (fst e) (snd e) m) (scoresOf l) (scoresOf m)).
  { induction l as [|[k v] l IH]; intros m; simpl; [reflexivity|].
    rewrite IH, scoresOf_Map_set. reflexivity. }
  exact (G []).
Qed.

Lemma valid_scores_of (l : list AnalysisResult) :
  map (fun r => valueOf (score r)) (filter (fun r => isValidScore (score r)) l)
  = map valueOf (filter isValidScore (map score l)).
Proof.
  induction l as [|r l IH]; simpl; [reflexivity|].
  destruct (isValidScore (score r)); simpl; rewrite IH; reflexivity.
Qed.

Lemma Map_values_scoresOf (m : list (string * AnalysisResult)) :
  map score (Map_values m) = Map_values (scoresOf m).
Proof. unfold Map_values, scoresOf. rewrite !map_map. reflexivity. Qed.

Lemma tallyStep_ext (m1 m2 : list (string * AnalysisResult)) :
  scoresOf m1 = scoresOf m2 ->
  forall t e, tallyStep m1 t e = tallyStep m2 t e.
Proof.
  intros H t [name w]. unfold tallyStep.
  pose proof (Map_get_scoresOf name m1) as H1.
  pose proof (Map_get_scoresOf name m2) as H2.
  rewrite H in H1. rewrite H1 in H2.
  destruct (Map_get name m1) as [r1|], (Map_get name m2) as [r2|];
    simpl in H2; try discriminate; [|reflexivity].
  injection H2 as H2. rewrite H2. reflexivity.
Qed.

Lemma weightedScore_ext (m1 m2 : list (string * AnalysisResult)) :
  scoresOf m1 = scoresOf m2 -> weightedScore m1 = weightedScore m2.
Proof.
  intros H. unfold weightedScore.
  assert (Hfold : forall ws t, fold_left (tallyStep m1) ws t = fold_left (tallyStep m2) ws t).
  { induction ws as [|e ws IH]; intros t; simpl; [reflexivity|].
    rewrite (tallyStep_ext _ _ H). apply IH. }
  rewrite Hfold, !valid_scores_of, !Map_values_scoresOf, H. reflexivity.
Qed.

Lemma runAnalyzers_throw_scores (context : AnalysisContext)
      (before after : list (string * SEOAnalyzer)) (name : string)
      (analyzer : SEOAnalyzer) (e : Error) :
  analyzer context = Throw e ->
  scoresOf (runAnalyzers (before ++ (name, analyzer) :: after) context)
  = scoresOf (runAnalyzers (before ++ (name, zeroAnalyzer) :: after) context).
Proof.
  intros H. unfold runAnalyzers, scoresOf. rewrite !map_app. simpl.
  rewrite H. reflexivity.
Qed.

Section AnalyzerFailure.

Variable fetchWithTimeout : string -> Z -> result Error PageResponse.
Variable PAGE_SIZE_LIMIT : nat.

Lemma performAnalysis_success (analyzers : list (string * SEOAnalyzer))
      (u : string) (timeoutMs : Z) (isMainPage : bool) (response : PageResponse) :
  fetchWithTimeout u timeoutMs = Return response ->
  response_ok response = true ->
  trim (response_text response) <> "" ->
  js_length (response_text response) <= PAGE_SIZE_LIMIT ->
  let context := {| ctx_url := u; ctx_html := response_text response;
                    ctx_status := response_status response;
                    ctx_loadTime := response_loadTime response;
                    ctx_isMainPage := isMainPage |} in
  performAnalysis fetchWithTimeout PAGE_SIZE_LIMIT analyzers u timeoutMs isMainPage
  = Return (convertToLegacyFormat
              (combineAnalysisResults (runAnalyzers analyzers context) context)).
Proof.
  intros Hfetch Hok Htrim Hsize context. unfold performAnalysis.
  rewrite Hfetch. unfold rbind. rewrite Hok. cbn [negb].
  assert (H1 : String.eqb (response_text response) "" = false).
  { apply String.eqb_neq. intros E. apply Htrim. rewrite E. reflexivity. }
  assert (H2 : (String.length (trim (response_text response)) =? 0) = false).
  { apply Nat.eqb_neq. destruct (trim (response_text response)); [contradiction|discriminate]. }
  assert (H3 : (PAGE_SIZE_LIMIT <? js_length (response_text response)) = false)
    by (apply Nat.ltb_ge; exact Hsize).
  rewrite H1, H2, H3. reflexivity.
Qed.

(** C2 (amended).  For a page whose fetch and validation succeed, when a
    registered analyzer throws, the orchestrator still returns a result
    with status [Success]; the failed analyzer is replaced by an outcome
    with score 0 that carries exactly one error-type, high-priority issue
    naming the analyzer; the overall score is the one obtained when the
    failed analyzer is replaced by an analyzer that scores 0 (the zero
    counts with the analyzer's weight); and every other analyzer that
    returned keeps its issues and data, with its score clamped to
    0..100. *)
Theorem failing_analyzer_is_isolated_as_zero_score
        (before after : list (string * SEOAnalyzer)) (name : string)
        (analyzer : SEOAnalyzer) (e : Error)
        (u : string) (timeoutMs : Z) (isMainPage : bool) (response : PageResponse) :
  let context := {| ctx_url := u; ctx_html := response_text response;
                    ctx_status := response_status response;
                    ctx_loadTime := response_loadTime response;
                    ctx_isMainPage := isMainPage |} in
  let registry := before ++ (name, analyzer) :: after in
  let substitute := snd (runAnalyzer context (name, analyzer)) in
  fetchWithTimeout u timeoutMs = Return response ->
  response_ok response = true ->
  trim (response_text response) <> "" ->
  js_length (response_text response) <= PAGE_SIZE_LIMIT ->
  analyzer context = Throw e ->
  (exists r,
      performAnalysis fetchWithTimeout PAGE_SIZE_LIMIT registry u timeoutMs isMainPage
      = Return r /\
      page_status r = Success /\
      seoScore r
      = Math_round (weightedScore
                      (Map_of (runAnalyzers (before ++ (name, zeroAnalyzer) :: after)
                                            context)))) /\
  score substitute = of_Z 0 /\
  (exists i, issues substitute = [i] /\ type i = IssueError /\ priority i = High /\
             includes (message i) name = true) /\
  (forall name' analyzer' r',
      In (name', analyzer') (before ++ after) ->
      analyzer' context = Return r' ->
      In (name', {| score := validateScore (score r'); issues := issues r'; data := data r' |})
         (runAnalyzers registry context)).
Proof.
  intros context registry substitute Hfetch Hok Htrim Hsize Hthrow.
  split; [|split; [|split]].
  - eexists. split.
    + exact (performAnalysis_success registry u timeoutMs isMainPage response
                                     Hfetch Hok Htrim Hsize).
    + split; [reflexivity|]. cbn [seoScore convertToLegacyFormat overallScore combineAnalysisResults].
      fold context. f_equal. apply weightedScore_ext.
      rewrite !scoresOf_Map_of. f_equal.
      apply runAnalyzers_throw_scores with (e := e). exact Hthrow.
  - unfold substitute, runAnalyzer. rewrite Hthrow. reflexivity.
  - unfold substitute, runAnalyzer. rewrite Hthrow. cbn [snd issues].
    eexists. split; [reflexivity|]. repeat split.
    unfold failureIssue. cbn [message]. apply includes_append.
  - intros name' analyzer' r' Hin Hret. unfold registry, runAnalyzers.
    rewrite <- (runAnalyzer_success context name' analyzer' r' Hret).
    apply in_map. apply in_app_iff. apply in_app_iff in Hin.
    destruct Hin; [left | right; right]; assumption.
Qed.

End AnalyzerFailure.

Lemma orchestrator_score_is_clamped_integer_witness :
  (valueOf (validateScore (of_Z 50)) == 50)%Q /\
  validateScore (of_Z 250) = of_Z 100 /\
  validateScore (of_Z (-5)) = of_Z 0 /\
  runAnalyzer okContext ("title", constantAnalyzer (Num NaN))
  = ("title", {| score := of_Z 0;
                 issues := [createSuccessIssue "ok"];
                 data := Some {| data_issues := Some [createSuccessIssue "ok"];
                                 data_internalUrls := None;
                                 data_sitemap := None |} |}) /\
  (0 <= seoScore (analyzeUrl fetchOk PAGE_SIZE_LIMIT CONFIG_default
                             [("title", constantAnalyzer (of_Z 250));
                              ("links", constantAnalyzer (Num (Infinity false)))]
                             rootUrl true 9000) <= 100)%Z.
Proof.
  destruct (orchestrator_score_is_clamped_integer
              fetchOk PAGE_SIZE_LIMIT CONFIG_default
              [("title", constantAnalyzer (of_Z 250));
               ("links", constantAnalyzer (Num (Infinity false)))])
    as (_ & Hfix & Habove & Hbelow & _ & Hrun & _ & Hurl).
  split; [|split; [|split; [|split]]].
  - apply (Hfix (inject_Z 50)). split; unfold Qle; simpl; lia.
  - apply (Habove (inject_Z 250)). unfold Qle; simpl; lia.
  - apply (Hbelow (inject_Z (-5))). unfold Qlt; simpl; lia.
  - exact (Hrun okContext "title" (constantAnalyzer (Num NaN))
                {| score := Num NaN;
                   issues := [createSuccessIssue "ok"];
                   data := Some {| data_issues := Some [createSuccessIssue "ok"];
                                   data_internalUrls := None;
                                   data_sitemap := None |} |}
                eq_refl).
  - apply Hurl.
Defined.

(** C2 counterexample: with three analyzers of which [title] throws and
    the two others score 100, the overall score is 59, whereas the two
    non-failing analyzers alone give 100; and the page's issue list
    contains no error issue. *)
Lemma failing_analyzer_lowers_the_overall_score :
  exists r3 r2,
    performAnalysis fetchOk PAGE_SIZE_LIMIT threeAnalyzers rootUrl 9000 true = Return r3 /\
    performAnalysis fetchOk PAGE_SIZE_LIMIT twoAnalyzers rootUrl 9000 true = Return r2 /\
    page_status r3 = Success /\
    seoScore r3 = 59%Z /\
    seoScore r2 = 100%Z /\
    seoScore r3 <> seoScore r2 /\
    filter (fun i => IssueType_eqb (type i) IssueError) (page_issues r3) = [].
Proof.
  eexists. eexists.
  split; [vm_compute; reflexivity|]. split; [vm_compute; reflexivity|].
  repeat split. discriminate.
Qed.

Lemma failing_analyzer_is_isolated_as_zero_score_witness :
  (exists r,
      performAnalysis fetchOk PAGE_SIZE_LIMIT threeAnalyzers rootUrl 9000 true = Return r /\
      page_status r = Success /\
      seoScore r = 59%Z) /\
  In ("headings",
      {| score := validateScore (of_Z 100);
         issues := [createSuccessIssue "ok"];
         data := Some {| data_issues := Some [createSuccessIssue "ok"];
                         data_internalUrls := None;
                         data_sitemap := None |} |})
     (runAnalyzers threeAnalyzers okContext).
Proof.
  destruct (failing_analyzer_is_isolated_as_zero_score
              fetchOk PAGE_SIZE_LIMIT [] twoAnalyzers "title" crashingAnalyzer
              (new_Error "boom") rootUrl 9000 true okResponse)
    as ((r & Hrun & Hstatus & Hscore) & _ & _ & Hothers);
    try reflexivity.
  - vm_compute. discriminate.
  - vm_compute. lia.
  - split.
    + exists r. split; [exact Hrun|]. split; [exact Hstatus|].
      rewrite Hscore. vm_compute. reflexivity.
    + exact (Hothers "headings" (constantAnalyzer (of_Z 100))
                     {| score := of_Z 100;
                        issues := [createSuccessIssue "ok"];
                        data := Some {| data_issues := Some [createSuccessIssue "ok"];
                                        data_internalUrls := None;
                                        data_sitemap := None |} |}
                     (or_intror (or_introl eq_refl)) eq_refl).
Defined.

(** ** Fetching a sitemap *)

(** C7.  When a sitemap URL is fetched successfully within the timeout
    and the payload starts with the gzip magic bytes 0x1f 0x8b, the
    content handed to the parser is the inflated payload (marked as
    compressed); when inflating fails, the content is the raw payload
    decoded as text (marked as not compressed); in both cases the call
    returns and the candidate loop goes on to analyze that content. *)
Theorem gzip_payload_is_inflated_or_read_as_text
        (P : Platform) (u : string) (timeout_ms : Z) (response : HttpResponse)
        (rest : list Byte.byte)
        (child : string -> option (result Error SitemapAnalysis))
        (options : SitemapAnalysisOptions) (others : list string) :
  fetch P u = Some response ->
  (latency response < timeout_ms)%Z ->
  ok response = true ->
  body response = Byte.x1f :: Byte.x8b :: rest ->
  (forall inflated,
      gunzipSync P (body response) = Some inflated ->
      fetchSitemapContent P u timeout_ms = Return (Buffer_toString P inflated, true) /\
      tryCandidates P child options timeout_ms (u :: others)
      = analyzeContent P child options (Buffer_toString P inflated) true) /\
  (gunzipSync P (body response) = None ->
   fetchSitemapContent P u timeout_ms
   = Return (TextDecoder_decode P (body response), false) /\
   tryCandidates P child options timeout_ms (u :: others)
   = analyzeContent P child options (TextDecoder_decode P (body response)) false).
Proof.
  intros Hfetch Hlat Hok Hbody.
  assert (Hstep : fetchSitemapContent P u timeout_ms
                  = match gunzipSync P (body response) with
                    | Some inflated => Return (Buffer_toString P inflated, true)
                    | None => Return (TextDecoder_decode P (body response), false)
                    end).
  { unfold fetchSitemapContent. rewrite Hfetch.
    replace (timeout_ms <=? latency response)%Z with false
      by (symmetry; apply Z.leb_gt; exact Hlat).
    rewrite Hok. cbn [negb]. rewrite Hbody. reflexivity. }
  split.
  - intros inflated Hgunzip. rewrite Hgunzip in Hstep. split; [exact Hstep|].
    cbn [tryCandidates]. rewrite Hstep. reflexivity.
  - intros Hgunzip. rewrite Hgunzip in Hstep. split; [exact Hstep|].
    cbn [tryCandidates]. rewrite Hstep. reflexivity.
Qed.

Lemma gzip_payload_is_inflated_or_read_as_text_witness :
  fetchSitemapContent gzipPlatform selfUrl 15000 = Return (inflated, true) /\
  fetchSitemapContent corruptGzipPlatform selfUrl 15000
  = Return (string_of_list_byte gzipPayload, false) /\
  (exists r,
      analyzeSitemap 1 corruptGzipPlatform rootUrl None no_options = Some (Return r) /\
      exists_ r = true /\ isCompressed r = false).
Proof.
  split; [|split].
  - destruct (gzip_payload_is_inflated_or_read_as_text
                gzipPlatform selfUrl 15000
                {| latency := 100; status := 200; body := gzipPayload |}
                (list_byte_of_string "https://example.com/from-text")
                (fun _ => None) no_options [] eq_refl eq_refl eq_refl eq_refl)
      as [Hinflated _].
    exact (proj1 (Hinflated _ eq_refl)).
  - destruct (gzip_payload_is_inflated_or_read_as_text
                corruptGzipPlatform selfUrl 15000
                {| latency := 100; status := 200; body := gzipPayload |}
                (list_byte_of_string "https://example.com/from-text")
                (fun _ => None) no_options [] eq_refl eq_refl eq_refl eq_refl)
      as [_ Hcorrupt].
    exact (proj1 (Hcorrupt eq_refl)).
  - eexists. split; [vm_compute; reflexivity|]. split; reflexivity.
Defined.

(** ** A sitemap index that lists itself *)

Lemma analyzeSitemap_unfold (depth : nat) (P : Platform) (baseUrl : string)
      (robotsSitemap : option string) (options : SitemapAnalysisOptions) :
  analyzeSitemap (S depth) P baseUrl robotsSitemap options =
  match sitemapUrls baseUrl robotsSitemap with
  | Throw e => Some (Throw e)
  | Return candidates =>
      option_map Return
        (tryCandidates P
           (fun c => analyzeSitemap depth P c None
                       (childOptions options (or_default (childTimeout options) 10000%Z)))
           options (or_default (timeout options) 15000%Z) candidates)
  end.
Proof. reflexivity. Qed.

Lemma self_index_waits_for_itself
      (child : string -> option (result Error SitemapAnalysis))
      (options : SitemapAnalysisOptions) (timeout_ms : Z) (candidates : list string) :
  options = no_options \/ options = defaultChildOptions ->
  timeout_ms = 15000%Z \/ timeout_ms = 10000%Z ->
  child selfUrl = None ->
  tryCandidates selfReferencing child options timeout_ms (selfUrl :: candidates) = None.
Proof.
  intros [Ho|Ho] [Ht|Ht] Hchild; subst options timeout_ms;
    cbn [tryCandidates];
    match goal with
    | |- context [fetchSitemapContent ?p ?u ?t] =>
        let r := eval vm_compute in (fetchSitemapContent p u t) in
        change (fetchSitemapContent p u t) with r
    end;
    cbv beta iota;
    unfold analyzeContent;
    match goal with
    | |- context [includes ?c "<?xml"] =>
        change (includes c "<?xml") with true
    end;
    match goal with
    | |- context [includes ?c "<urlset"] =>
        change (includes c "<urlset") with false
    end;
    match goal with
    | |- context [includes ?c "<sitemapindex"] =>
        change (includes c "<sitemapindex") with true
    end;
    cbv beta iota zeta; cbn [orb negb];
    match goal with
    | |- context [childLoop child ?cs ?a ?b] =>
        let r := eval vm_compute in cs in
        change cs with r
    end;
    cbn [childLoop]; unfold selfUrl in Hchild; rewrite Hchild; reflexivity.
Qed.

(** C5.  A sitemap index that lists itself: each request is answered
    within the timeout and the index has a single child, so neither the
    timeout nor the child-count cap applies, and the traversal does not
    return at any nesting depth. *)
Theorem self_referencing_sitemap_index_never_returns (depth : nat) :
  analyzeSitemap depth selfReferencing rootUrl None no_options = None.
Proof.
  assert (G : forall d base options,
             base = rootUrl \/ base = selfUrl ->
             options = no_options \/ options = defaultChildOptions ->
             analyzeSitemap d selfReferencing base None options = None).
  { induction d as [|d IH]; intros base options Hbase Hoptions; [reflexivity|].
    rewrite analyzeSitemap_unfold.
    assert (Hcands : exists rest, sitemapUrls base None = Return (selfUrl :: rest)).
    { destruct Hbase; subst base; eexists; vm_compute; reflexivity. }
    destruct Hcands as [rest Hcands]. rewrite Hcands.
    rewrite self_index_waits_for_itself; [reflexivity | exact Hoptions | |].
    - destruct Hoptions; subst options; [left | right]; reflexivity.
    - apply IH; [right; reflexivity|].
      right. destruct Hoptions; subst options; reflexivity. }
  apply G; left; reflexivity.
Qed.

(** ** Documents and indexes *)

Lemma childLoop_urls (child : string -> option (result Error SitemapAnalysis))
      (cs : list string) :
  forall acc_urls acc_issues us is_,
    childLoop child cs acc_urls acc_issues = Some (us, is_) ->
    us = acc_urls ++ flat_map (childUrls child) cs.
Proof.
  induction cs as [|c cs IH]; intros au ai us is_ H; simpl in H.
  - injection H as H _. subst us. symmetry. apply app_nil_r.
  - simpl. unfold childUrls at 1.
    destruct (child c) as [[r|e]|]; [| |discriminate].
    + apply IH in H. rewrite H, app_assoc. reflexivity.
    + apply IH in H. exact H.
Qed.

Lemma analyzeContent_document (P : Platform)
      (child : string -> option (result Error SitemapAnalysis))
      (options : SitemapAnalysisOptions) (content : string) (compressed : bool) :
  includes content "<sitemapindex" = false ->
  exists r,
    analyzeContent P child options content compressed = Some r /\
    urls r = firstn (or_default (maxUrls options) 1000) (documentEntries P options content) /\
    childSitemaps r = [].
Proof.
  intros Hindex. unfold analyzeContent, documentEntries. rewrite Hindex.
  destruct (includes content "<urlset"); cbn [orb];
    eexists; (split; [reflexivity|]); cbn [urls childSitemaps];
    (split; [|reflexivity]); symmetry; apply firstn_map.
Qed.

Lemma analyzeContent_index (P : Platform)
      (child : string -> option (result Error SitemapAnalysis))
      (options : SitemapAnalysisOptions) (content : string) (compressed : bool)
      (r : SitemapAnalysis) :
  includes content "<sitemapindex" = true ->
  analyzeContent P child options content compressed = Some r ->
  urls r = flat_map (childUrls child) (childSitemaps r) /\
  List.length (childSitemaps r) <= or_default (maxChildSitemaps options) 50.
Proof.
  intros Hindex H. unfold analyzeContent in H. rewrite Hindex in H.
  rewrite orb_true_r in H.
  match type of H with
  | context [childLoop child ?cs ?a ?b] =>
      destruct (childLoop child cs a b) as [[us is_]|] eqn:Hloop; [|discriminate H]
  end.
  injection H as H. subst r. cbn [urls childSitemaps]. split.
  - apply childLoop_urls in Hloop. exact Hloop.
  - apply firstn_le_length.
Qed.




Lemma tryCandidates_result (P : Platform)
      (child : string -> option (result Error SitemapAnalysis))
      (options : SitemapAnalysisOptions) (timeout_ms : Z) (candidates : list string)
      (r : SitemapAnalysis) :
  tryCandidates P child options timeout_ms candidates = Some r ->
  r = notFound \/
  exists content compressed, analyzeContent P child options content compressed = Some r.
Proof.
  induction candidates as [|c cs IH]; simpl.
  - intros H. left. congruence.
  - destruct (fetchSitemapContent P c timeout_ms) as [[content compressed]|e].
    + intros H. right. eauto.
    + exact IH.
Qed.







(** ** The nesting depth only has to be large enough *)

Lemma childLoop_extends (child child' : string -> option (result Error SitemapAnalysis)) :
  (forall c r, child c = Some r -> child' c = Some r) ->
  forall cs au ai res,
    childLoop child cs au ai = Some res -> childLoop child' cs au ai = Some res.
Proof.
  intros Hext cs. induction cs as [|c cs IH]; intros au ai res H; simpl in *.
  - exact H.
  - destruct (child c) as [r|] eqn:E; [|discriminate H].
    rewrite (Hext _ _ E). destruct r; apply IH; exact H.
Qed.

Lemma analyzeContent_extends (P : Platform)
      (child child' : string -> option (result Error SitemapAnalysis))
      (options : SitemapAnalysisOptions) (content : string) (compressed : bool)
      (r : SitemapAnalysis) :
  (forall c r, child c = Some r -> child' c = Some r) ->
  analyzeContent P child options content compressed = Some r ->
  analyzeContent P child' options content compressed = Some r.
Proof.
  intros Hext. unfold analyzeContent.
  destruct (includes content "<urlset" || includes content "<sitemapindex"); [|auto].
  destruct (includes content "<sitemapindex"); [|auto].
  match goal with
  | |- context [childLoop child ?cs ?a ?b] =>
      destruct (childLoop child cs a b) as [res|] eqn:Hloop; [|discriminate]
  end.
  rewrite (childLoop_extends _ _ Hext _ _ _ _ Hloop). auto.
Qed.

Lemma analyzeSitemap_depth_monotone (P : Platform) (depth : nat) :
  forall baseUrl robotsSitemap options r,
    analyzeSitemap depth P baseUrl robotsSitemap options = Some r ->
    analyzeSitemap (S depth) P baseUrl robotsSitemap options = Some r.
Proof.
  induction depth as [|depth IH]; intros baseUrl robotsSitemap options r H;
    [discriminate H|].
  rewrite analyzeSitemap_unfold in *.
  destruct (sitemapUrls baseUrl robotsSitemap) as [candidates|e]; [|exact H].
  match type of H with
  | option_map _ ?t = _ => destruct t as [r'|] eqn:Htry; [|discriminate H]
  end.
  assert (Htry' : forall cs r0,
             tryCandidates P
               (fun c => analyzeSitemap depth P c None
                           (childOptions options (or_default (childTimeout options) 10000%Z)))
               options (or_default (timeout options) 15000%Z) cs = Some r0 ->
             tryCandidates P
               (fun c => analyzeSitemap (S depth) P c None
                           (childOptions options (or_default (childTimeout options) 10000%Z)))
               options (or_default (timeout options) 15000%Z) cs = Some r0).
  { induction cs as [|c cs IHcs]; intros r0 Hr0; [exact Hr0|].
    cbn [tryCandidates] in *.
    destruct (fetchSitemapContent P c _) as [[content compressed]|e].
    - eapply analyzeContent_extends; [|exact Hr0].
      intros c0 r1. apply IH.
    - apply IHcs. exact Hr0. }
  rewrite (Htry' _ _ Htry). exact H.
Qed.

(** ** Sets *)

Lemma Set_has_In (x : string) (s : list string) : Set_has x s = true <-> In x s.
Proof.
  unfold Set_has. rewrite existsb_exists. split.
  - intros (y & Hy & E). apply String.eqb_eq in E. subst y. exact Hy.
  - intros H. exists x. split; [exact H | apply String.eqb_refl].
Qed.

Lemma Set_has_not_In (x : string) (s : list string) : Set_has x s = false <-> ~ In x s.
Proof.
  rewrite <- Set_has_In. destruct (Set_has x s); split; intros; congruence.
Qed.

Lemma Set_add_spec (x : string) (s : list string) :
  (In x s /\ Set_add x s = s) \/ (~ In x s /\ Set_add x s = s ++ [x]).
Proof.
  unfold Set_add. destruct (Set_has x s) eqn:E.
  - left. split; [apply Set_has_In; exact E | reflexivity].
  - right. split; [apply Set_has_not_In; exact E | reflexivity].
Qed.

Lemma NoDup_snoc (x : string) (s : list string) :
  NoDup s -> ~ In x s -> NoDup (s ++ [x]).
Proof.
  intros Hs Hx. apply NoDup_app; [exact Hs | repeat constructor; intros [] | ].
  intros y Hy [E|[]]. subst y. exact (Hx Hy).
Qed.

Lemma NoDup_Set_add (x : string) (s : list string) : NoDup s -> NoDup (Set_add x s).
Proof.
  intros Hs. destruct (Set_add_spec x s) as [[_ E]|[Hx E]]; rewrite E.
  - exact Hs.
  - apply NoDup_snoc; assumption.
Qed.

(** Adding to a set, one after the other, the elements of [l] that pass
    the test [keep]: the set grows at its end, without duplicates, by
    elements of [l] that pass the test. *)
Lemma fold_Set_add (keep : string -> bool) (l : list string) :
  forall s,
    NoDup s ->
    exists added,
      fold_left (fun set_ x => if keep x then Set_add x set_ else set_) l s = s ++ added /\
      NoDup (s ++ added) /\
      (forall x, In x added <-> In x l /\ keep x = true /\ ~ In x s).
Proof.
  induction l as [|y l IH]; intros s Hs; simpl.
  - exists []. rewrite app_nil_r. split; [reflexivity|]. split; [exact Hs|].
    intros x. simpl. tauto.
  - destruct (keep y) eqn:Hk.
    + destruct (Set_add_spec y s) as [[Hy E]|[Hy E]]; rewrite E.
      * destruct (IH s Hs) as (added & Hfold & Hnd & Hin).
        exists added. split; [exact Hfold|]. split; [exact Hnd|].
        intros x. rewrite Hin. split; [tauto|].
        intros [[->|H] [H1 H2]]; [contradiction|tauto].
      * destruct (IH (s ++ [y]) (NoDup_snoc _ _ Hs Hy)) as (added & Hfold & Hnd & Hin).
        exists (y :: added). rewrite Hfold, <- app_assoc. simpl.
        split; [reflexivity|]. split; [rewrite <- app_assoc in Hnd; exact Hnd|].
        intros x. simpl. rewrite Hin, in_app_iff. simpl. split.
        -- intros [->|(H1 & H2 & H3)]; [tauto|]. tauto.
        -- intros [[->|H1] [H2 H3]]; [tauto|].
           destruct (string_dec y x) as [->|Hne]; [tauto|]. right. tauto.
    + destruct (IH s Hs) as (added & Hfold & Hnd & Hin).
      exists added. split; [exact Hfold|]. split; [exact Hnd|].
      intros x. rewrite Hin. split; [tauto|].
      intros [[->|H] [H1 H2]]; [congruence|tauto].
Qed.

(** The elements of [firsts l] are those of [l]. *)
Lemma In_firsts (x : string) (l : list string) : In x (firsts l) <-> In x l.
Proof.
  induction l as [|y l IH]; [reflexivity|]. cbn [firsts]. simpl.
  rewrite filter_In, IH, negb_true_iff, String.eqb_neq. split.
  - intros [H|[H _]]; [left | right]; exact H.
  - intros [H|H]; [left; exact H|].
    destruct (string_dec y x) as [E|E]; [left; exact E | right].
    split; [exact H | intros E'; apply E; symmetry; exact E'].
Qed.

Lemma filter_filter (f g : string -> bool) (l : list string) :
  filter f (filter g l) = filter (fun x => g x && f x) l.
Proof.
  induction l as [|y l IH]; [reflexivity|]. cbn [filter].
  destruct (g y); cbn [filter andb]; [destruct (f y)|]; rewrite IH; reflexivity.
Qed.

Lemma filter_always (f : string -> bool) (l : list string) :
  (forall x, f x = true) -> filter f l = l.
Proof.
  intros H. induction l as [|x l IH]; [reflexivity|]. cbn [filter].
  rewrite H, IH. reflexivity.
Qed.

Lemma Set_has_snoc (x y : string) (s : list string) :
  Set_has x (s ++ [y]) = Set_has x s || String.eqb x y.
Proof.
  unfold Set_has. rewrite existsb_app. cbn [existsb]. rewrite orb_false_r. reflexivity.
Qed.

(** Adding the elements of [l] to a set, one after the other, appends to
    it the first occurrences of the elements that it does not hold. *)
Lemma fold_Set_add_firsts (l : list string) :
  forall s,
    fold_left (fun set_ x => Set_add x set_) l s
    = s ++ filter (fun x => negb (Set_has x s)) (firsts l).
Proof.
  induction l as [|y l IH]; intros s; cbn [fold_left firsts filter].
  - rewrite app_nil_r. reflexivity.
  - rewrite IH, filter_filter. unfold Set_add.
    destruct (Set_has y s) eqn:Hy; cbn [negb].
    + f_equal. apply filter_ext_in. intros x _.
      destruct (String.eqb x y) eqn:E; [|reflexivity].
      apply String.eqb_eq in E. subst x. rewrite Hy. reflexivity.
    + rewrite <- app_assoc. cbn [app]. do 2 f_equal.
      apply filter_ext. intros x. rewrite Set_has_snoc, negb_orb.
      apply andb_comm.
Qed.

Lemma fold_Set_add_filter (keep : string -> bool) (l : list string) :
  forall s,
    fold_left (fun set_ x => if keep x then Set_add x set_ else set_) l s
    = fold_left (fun set_ x => Set_add x set_) (filter keep l) s.
Proof.
  induction l as [|y l IH]; intros s; cbn [fold_left filter]; [reflexivity|].
  destruct (keep y); cbn [fold_left]; apply IH.
Qed.

(** ** The frontier *)

Lemma slice_0 {A} (n : nat) (l : list A) : slice 0 n l = firstn n l.
Proof. unfold slice. rewrite Nat.sub_0_r. reflexivity. Qed.

Lemma NoDup_firstn_of {A} (n : nat) (l : list A) : NoDup l -> NoDup (firstn n l).
Proof.
  intros H. rewrite <- (firstn_skipn n l) in H. exact (NoDup_app_remove_r _ _ H).
Qed.

Lemma addDiscoveredUrls_fold (main : CompleteAnalysisResult) (s : list string) :
  addDiscoveredUrls main s
  = fold_left (fun set_ x => if (fun _ => true) x then Set_add x set_ else set_)
              (links_internalUrls main) s.
Proof.
  unfold addDiscoveredUrls. revert s.
  induction (links_internalUrls main) as [|x l IH]; intros s; simpl; [reflexivity|].
  rewrite <- IH. f_equal. unfold Set_add. destruct (Set_has x s); reflexivity.
Qed.

Lemma addSitemapUrls_spec (u : string) (main : CompleteAnalysisResult) :
  NoDup (addSitemapUrls u main []) /\
  (forall x, In x (addSitemapUrls u main []) -> x <> u /\ x <> page_url main).
Proof.
  unfold addSitemapUrls.
  destruct (technical_sitemap main) as [sitemap|]; [|split; [constructor | intros x []]].
  destruct (exists_ sitemap); [|split; [constructor | intros x []]].
  set (keep := fun x => negb (String.eqb x u) && negb (String.eqb x (page_url main))).
  assert (E : forall l s,
             fold_left (fun set_ entry =>
                          let sitemapUrl := url entry in
                          if negb (String.eqb sitemapUrl u)
                             && negb (String.eqb sitemapUrl (page_url main))
                          then Set_add sitemapUrl set_ else set_) l s
             = fold_left (fun set_ x => if keep x then Set_add x set_ else set_)
                         (map url l) s).
  { induction l as [|e l IH]; intros s; simpl; [reflexivity | apply IH]. }
  rewrite E.
  destruct (fold_Set_add keep (map url (urls sitemap)) [] (NoDup_nil _))
    as (added & Hfold & Hnd & Hin).
  rewrite Hfold. simpl in *. split; [exact Hnd|].
  intros x Hx. apply Hin in Hx. destruct Hx as (_ & Hk & _).
  unfold keep in Hk. apply andb_true_iff in Hk. destruct Hk as [H1 H2].
  apply negb_true_iff in H1, H2. apply String.eqb_neq in H1, H2. split; assumption.
Qed.

Lemma addSitemapUrls_fold (u : string) (main : CompleteAnalysisResult) (s : list string) :
  addSitemapUrls u main s
  = fold_left (fun set_ x => Set_add x set_) (sitemapEntries u main) s.
Proof.
  unfold addSitemapUrls, sitemapEntries.
  destruct (technical_sitemap main) as [sitemap|]; [|reflexivity].
  destruct (exists_ sitemap); [|reflexivity].
  rewrite <- fold_Set_add_filter. revert s.
  induction (urls sitemap) as [|e l IH]; intros s; [reflexivity | apply IH].
Qed.

Lemma addSitemapUrls_firsts (u : string) (main : CompleteAnalysisResult) :
  addSitemapUrls u main [] = firsts (sitemapEntries u main).
Proof.
  rewrite addSitemapUrls_fold, fold_Set_add_firsts. cbn [app].
  apply filter_always. reflexivity.
Qed.

Lemma merged_firsts (u : string) (main : CompleteAnalysisResult) :
  addDiscoveredUrls main (addSitemapUrls u main [])
  = firsts (sitemapEntries u main ++ links_internalUrls main).
Proof.
  rewrite addDiscoveredUrls_fold, (fold_Set_add_filter (fun _ => true)).
  rewrite addSitemapUrls_fold, <- fold_left_app, fold_Set_add_firsts. cbn [app].
  rewrite !filter_always by reflexivity. reflexivity.
Qed.

Lemma finalUrls_capped (cfg : SEOConfig) (pageUrl : string) (found l : list string) :
  LinksAnalyzer.finalUrls cfg pageUrl found = Return l ->
  List.length l <= MAX_INTERNAL_URLS cfg.
Proof.
  unfold LinksAnalyzer.finalUrls, rbind.
  destruct (UrlUtils.normalizeUrl pageUrl) as [n|e]; [|discriminate].
  destruct (fold_left _ found _) as [m|e]; [|discriminate].
  intros H. injection H as H. subst l. rewrite slice_0. apply firstn_le_length.
Qed.

(** C3 (amended).  The frontier is the sitemap URLs (other than the
    requested URL and the main page's URL) followed by the discovered
    links that are not among them, cut to the first [MAX_INTERNAL_URLS]
    entries, the cap that link discovery applies to its own result.
    Every URL of an entry of the main page's sitemap, other than these
    two, is in the set built from the sitemap; that set is the list of
    their first occurrences in the order of the sitemap, and the merged
    list is the list of the first occurrences in the sitemap URLs
    followed by the links.  The sitemap URLs consume the cap first: the
    frontier is the first [MAX_INTERNAL_URLS] of them, followed by as
    many of the discovered-only links as the cap leaves room for.  Two
    entries of the frontier are never the same string; URLs are compared
    as written, not by their normalized key. *)
Theorem frontier_merges_by_exact_url_with_sitemap_first
        (cfg : SEOConfig) (u : string) (main : CompleteAnalysisResult) :
  let fromSitemap := addSitemapUrls u main [] in
  let merged := addDiscoveredUrls main fromSitemap in
  urlsToAnalyze cfg u main = firstn (MAX_INTERNAL_URLS cfg) merged /\
  NoDup (urlsToAnalyze cfg u main) /\
  List.length (urlsToAnalyze cfg u main) <= MAX_INTERNAL_URLS cfg /\
  (exists discoveredOnly,
      merged = fromSitemap ++ discoveredOnly /\
      (forall x, In x discoveredOnly <->
                 In x (links_internalUrls main) /\ ~ In x fromSitemap) /\
      urlsToAnalyze cfg u main
      = firstn (MAX_INTERNAL_URLS cfg) fromSitemap
          ++ firstn (MAX_INTERNAL_URLS cfg - List.length fromSitemap) discoveredOnly) /\
  (forall x, In x fromSitemap -> x <> u /\ x <> page_url main) /\
  (forall sitemap,
      technical_sitemap main = Some sitemap ->
      exists_ sitemap = true ->
      forall x, In x (map url (urls sitemap)) -> x <> u -> x <> page_url main ->
                In x fromSitemap) /\
  fromSitemap = firsts (sitemapEntries u main) /\
  merged = firsts (sitemapEntries u main ++ links_internalUrls main) /\
  (forall pageUrl found l,
      LinksAnalyzer.finalUrls cfg pageUrl found = Return l ->
      List.length l <= MAX_INTERNAL_URLS cfg).
Proof.
  intros fromSitemap merged.
  destruct (addSitemapUrls_spec u main) as [Hnd Hne]. fold fromSitemap in Hnd, Hne.
  destruct (fold_Set_add (fun _ => true) (links_internalUrls main) fromSitemap Hnd)
    as (added & Hfold & Hnd' & Hin).
  rewrite <- addDiscoveredUrls_fold in Hfold. fold merged in Hfold.
  assert (Hf : urlsToAnalyze cfg u main = firstn (MAX_INTERNAL_URLS cfg) merged)
    by (unfold urlsToAnalyze; apply slice_0).
  split; [exact Hf|]. rewrite Hf.
  split; [|split; [|split; [|split; [|split; [|split; [|split]]]]]].
  - apply NoDup_firstn_of. rewrite Hfold. exact Hnd'.
  - apply firstn_le_length.
  - exists added. split; [exact Hfold|]. split.
    + intros x. rewrite Hin. tauto.
    + rewrite Hfold. apply firstn_app.
  - exact Hne.
  - intros sitemap Hs He x Hx Hu Hp. unfold fromSitemap.
    rewrite addSitemapUrls_firsts. apply In_firsts.
    unfold sitemapEntries. rewrite Hs, He. apply filter_In. split; [exact Hx|].
    apply String.eqb_neq in Hu, Hp. rewrite Hu, Hp. reflexivity.
  - apply addSitemapUrls_firsts.
  - apply merged_firsts.
  - apply finalUrls_capped.
Qed.

(** C3 counterexample: [/about/] from the sitemap and [/about] from the
    links have the same normalized key and are both in the frontier. *)
Lemma frontier_keeps_urls_with_the_same_key :
  LinksAnalyzer.normalizedKey "https://example.com/about/"
  = Return "https://example.com/about"%string /\
  LinksAnalyzer.normalizedKey "https://example.com/about"
  = Return "https://example.com/about"%string /\
  urlsToAnalyze CONFIG_default rootUrl mainWithSitemap
  = ["https://example.com/about/"; "https://example.com/about";
     "https://example.com/blog"]%string.
Proof. repeat split; vm_compute; reflexivity. Qed.

Lemma frontier_merges_by_exact_url_with_sitemap_first_witness :
  urlsToAnalyze CONFIG_default rootUrl mainWithSitemap
  = ["https://example.com/about/"; "https://example.com/about";
     "https://example.com/blog"]%string /\
  ~ In rootUrl (addSitemapUrls rootUrl mainWithSitemap []) /\
  (forall l, LinksAnalyzer.finalUrls CONFIG_default rootUrl
               ["https://example.com/a"; "https://example.com/a/"]%string = Return l ->
             List.length l <= 99).
Proof.
  destruct (frontier_merges_by_exact_url_with_sitemap_first
              CONFIG_default rootUrl mainWithSitemap)
    as (Hf & _ & _ & _ & Hne & _ & _ & _ & Hcap).
  split; [|split].
  - rewrite Hf. vm_compute. reflexivity.
  - intros Hin. destruct (Hne _ Hin) as [H _]. apply H. reflexivity.
  - intros l Hl. exact (Hcap _ _ _ Hl).
Defined.

(** ** Link classification *)

(** Targets on the ignore list leave the counters and the set unchanged. *)
Lemma classify_ignored (pageUrl domain href : string) (st : Counters) :
  isIgnored href = true -> classify pageUrl domain st href = st.
Proof. intros H. unfold classify. rewrite H. reflexivity. Qed.

Lemma isIgnored_targets (rest : string) :
  isIgnored "" = true /\
  isIgnored ("#" +++ rest) = true /\
  isIgnored ("javascript:" +++ rest) = true /\
  isIgnored ("mailto:" +++ rest) = true /\
  isIgnored ("tel:" +++ rest) = true.
Proof.
  unfold isIgnored, startsWith.
  repeat split; try reflexivity; rewrite prefix_append;
    rewrite ?orb_true_r; reflexivity.
Qed.

(** An absolute [http...] target is counted as internal only when its
    host name is the page's host name. *)
Lemma classify_absolute_checks_host (pageUrl domain href : string) (st : Counters) :
  startsWith href "http" = true ->
  internal (classify pageUrl domain st href) = S (internal st) ->
  exists u, URL.parse href = Some u /\ URL.hostname u = domain.
Proof.
  intros Hhttp. unfold classify. rewrite Hhttp.
  destruct (isIgnored href); [intros H; lia|].
  unfold new_URL. destruct (URL.parse href) as [u|]; [|intros H; lia].
  destruct (String.eqb (URL.hostname u) domain) eqn:E; [|simpl; intros H; lia].
  intros _. exists u. split; [reflexivity | apply String.eqb_eq; exact E].
Qed.

(** C6.  On the page [https://example.com/] the protocol-relative target
    [//other.example/page] resolves to the host [other.example]; it is
    nevertheless counted as internal and returned among the internal
    URLs. *)
Theorem protocol_relative_link_to_another_host_is_internal :
  option_map URL.hostname (URL.parse_with_base "//other.example/page" rootUrl)
  = Some "other.example"%string /\
  option_map URL.hostname (URL.parse rootUrl) = Some "example.com"%string /\
  isIgnored "//other.example/page" = false /\
  classify rootUrl "example.com" start "//other.example/page"
  = {| internal := 1; external := 0;
       internalUrlsSet := ["https://other.example/page"%string] |} /\
  (exists r d,
      analyze CONFIG_default partnerContext = Return r /\
      data r = Some d /\
      data_internalUrls d = Some ["https://other.example/page"%string]).
Proof.
  split; [vm_compute; reflexivity|]. split; [vm_compute; reflexivity|].
  split; [vm_compute; reflexivity|]. split; [vm_compute; reflexivity|].
  eexists. eexists. split; [vm_compute; reflexivity|]. split; reflexivity.
Qed.

(** ** More on strings *)

Lemma append_assoc (a b c : string) : (a +++ b) +++ c = a +++ b +++ c.
Proof. induction a as [|x a IH]; simpl; [reflexivity | rewrite IH; reflexivity]. Qed.

Lemma append_empty_r (a : string) : a +++ "" = a.
Proof. induction a as [|x a IH]; simpl; [reflexivity | rewrite IH; reflexivity]. Qed.

Lemma forallb_str_append (p : ascii -> bool) (a b : string) :
  forallb_str p (a +++ b) = forallb_str p a && forallb_str p b.
Proof.
  induction a as [|x a IH]; simpl; [reflexivity|].
  rewrite IH. apply andb_assoc.
Qed.

Lemma forallb_str_impl (p q : ascii -> bool) (s : string) :
  (forall c, p c = true -> q c = true) ->
  forallb_str p s = true -> forallb_str q s = true.
Proof.
  intros Hpq. induction s as [|x s IH]; simpl; [reflexivity|].
  intros H. apply andb_true_iff in H. destruct H as [H1 H2].
  rewrite (Hpq _ H1), (IH H2). reflexivity.
Qed.

Lemma break_at_append (p : ascii -> bool) (a b : string) :
  forallb_str (fun c => negb (p c)) a = true ->
  stops p b ->
  break_at p (a +++ b) = (a, b).
Proof.
  intros Ha Hb. induction a as [|x a IH]; simpl in *.
  - destruct b as [|c b]; [reflexivity|]. simpl in *. rewrite Hb. reflexivity.
  - apply andb_true_iff in Ha. destruct Ha as [Hx Ha].
    apply negb_true_iff in Hx. rewrite Hx, (IH Ha). reflexivity.
Qed.

Lemma break_at_all (p : ascii -> bool) (a : string) :
  forallb_str (fun c => negb (p c)) a = true -> break_at p a = (a, "").
Proof.
  intros Ha. rewrite <- (append_empty_r a) at 1.
  apply break_at_append; [exact Ha | exact I].
Qed.

Lemma dropWhile_stops (p : ascii -> bool) (s : string) :
  stops (fun c => negb (p c)) s -> dropWhile p s = s.
Proof.
  destruct s as [|c s]; simpl; [reflexivity|].
  intros H. apply negb_true_iff in H. rewrite H. reflexivity.
Qed.

Lemma dropWhileEnd_none (p : ascii -> bool) (s : string) :
  forallb_str (fun c => negb (p c)) s = true -> dropWhileEnd p s = s.
Proof.
  induction s as [|c s IH]; simpl; [reflexivity|].
  intros H. apply andb_true_iff in H. destruct H as [Hc Hs].
  apply negb_true_iff in Hc. rewrite (IH Hs), Hc. destruct s; reflexivity.
Qed.

Lemma remove_chars_none (p : ascii -> bool) (s : string) :
  forallb_str (fun c => negb (p c)) s = true -> remove_chars p s = s.
Proof.
  induction s as [|c s IH]; simpl; [reflexivity|].
  intros H. apply andb_true_iff in H. destruct H as [Hc Hs].
  apply negb_true_iff in Hc. rewrite Hc, (IH Hs). reflexivity.
Qed.

Lemma encode_none (set : ascii -> bool) (s : string) :
  forallb_str (fun c => negb (set c)) s = true -> URL.encode set s = s.
Proof.
  induction s as [|c s IH]; simpl; [reflexivity|].
  intros H. apply andb_true_iff in H. destruct H as [Hc Hs].
  apply negb_true_iff in Hc. rewrite Hc, (IH Hs). reflexivity.
Qed.

Lemma split_char_none (sep : ascii -> bool) (s : string) :
  forallb_str (fun c => negb (sep c)) s = true -> split_char sep s = [s].
Proof.
  induction s as [|c s IH]; simpl; [reflexivity|].
  intros H. apply andb_true_iff in H. destruct H as [Hc Hs].
  apply negb_true_iff in Hc. rewrite Hc, (IH Hs). reflexivity.
Qed.

Lemma split_char_append (sep : ascii -> bool) (a b : string) (c : ascii) :
  forallb_str (fun c => negb (sep c)) a = true ->
  sep c = true ->
  split_char sep (a +++ String c b) = a :: split_char sep b.
Proof.
  intros Ha Hc. induction a as [|x a IH]; simpl in *.
  - rewrite Hc. reflexivity.
  - apply andb_true_iff in Ha. destruct Ha as [Hx Ha].
    apply negb_true_iff in Hx. rewrite Hx, (IH Ha). reflexivity.
Qed.

Lemma dropTrailingSlash_snoc (s : string) : dropTrailingSlash (s +++ "/") = s.
Proof.
  induction s as [|c s IH]; [reflexivity|].
  cbn [String.append dropTrailingSlash]. rewrite IH.
  destruct s; reflexivity.
Qed.

Lemma dropTrailingSlash_other (s : string) :
  last_char s <> Some "/"%char -> dropTrailingSlash s = s.
Proof.
  induction s as [|c s IH]; [reflexivity|].
  destruct s as [|d s].
  - simpl. intros H. destruct (Ascii.eqb c "/") eqn:E; [|reflexivity].
    apply Ascii.eqb_eq in E. subst c. contradiction H. reflexivity.
  - intros H. change (dropTrailingSlash (String c (String d s)))
      with (String c (dropTrailingSlash (String d s))).
    rewrite IH; [reflexivity | exact H].
Qed.

Lemma last_char_append (a b : string) :
  b <> "" -> last_char (a +++ b) = last_char b.
Proof.
  intros Hb. induction a as [|c a IH]; [reflexivity|].
  cbn [String.append]. destruct (a +++ b) eqn:E.
  - destruct a; [simpl in E; contradiction | discriminate E].
  - rewrite <- E at 1. rewrite <- IH. rewrite E. reflexivity.
Qed.

(** ** Characters *)

Lemma host_char_facts (c : ascii) :
  URL.is_host_char c = true ->
  visible c = true /\ URL.is_authority_end c = false /\ URL.is_colon c = false /\
  URL.is_slash c = false.
Proof. ascii_cases c; repeat split. Qed.

Lemma digit_facts (c : ascii) :
  is_digit c = true ->
  visible c = true /\ URL.is_authority_end c = false.
Proof. ascii_cases c; repeat split. Qed.

Lemma path_char_facts (c : ascii) :
  path_char c = true ->
  visible c = true /\ URL.is_path_end c = false /\ URL.is_slash c = false /\
  URL.path_set c = false.
Proof. ascii_cases c; repeat split. Qed.

Lemma query_char_facts (c : ascii) :
  query_char c = true ->
  visible c = true /\ URL.is_hash c = false /\ URL.special_query_set c = false.
Proof. ascii_cases c; repeat split. Qed.

Lemma fragment_char_facts (c : ascii) :
  fragment_char c = true -> visible c = true /\ URL.fragment_set c = false.
Proof. ascii_cases c; repeat split. Qed.

Lemma visible_facts (c : ascii) :
  visible c = true ->
  no_ws_lead c = true /\ URL.is_c0_or_space c = false /\ URL.is_tab_or_newline c = false.
Proof. ascii_cases c; repeat split. Qed.

Lemma decimal_digits (d : Decimal.uint) :
  forallb_str is_digit (NilEmpty.string_of_uint d) = true.
Proof. induction d; simpl; try reflexivity; exact IHd. Qed.

Lemma decimal_parse (p : N) :
  NilEmpty.uint_of_string (URL.decimal p) = Some (N.to_uint p).
Proof. unfold URL.decimal. apply NilEmpty.usu. Qed.

Lemma decimal_nonempty (p : N) : URL.decimal p <> "".
Proof.
  intros E. pose proof (decimal_parse p) as H. rewrite E in H. simpl in H.
  injection H as H. pose proof (DecimalN.Unsigned.of_to p) as Hp.
  rewrite <- H in Hp. simpl in Hp. subst p. discriminate E.
Qed.

(** ** The parser on well-formed URL texts *)

Lemma href_text (sch host : string) (port : option N) (segs : list string)
      (q f : option string) :
  URL.href (URL.mk sch host port segs q f)
  = sch +++ "://" +++ host +++ port_text port +++ URL.path_text segs
        +++ query_text q +++ fragment_text f.
Proof.
  unfold URL.href, URL.host, URL.pathname. cbn [URL.scheme URL.hostname URL.port URL.path
    URL.query URL.fragment].
  fold (port_text port) (query_text q) (fragment_text f).
  rewrite append_assoc. reflexivity.
Qed.

Lemma parse_query_fragment_plain (q f : option string) :
  plain_option query_char q -> plain_option fragment_char f ->
  URL.parse_query_fragment (query_text q +++ fragment_text f) = (q, f).
Proof.
  intros Hq Hf.
  assert (Hfrag : forall fs, forallb_str fragment_char fs = true ->
                             URL.encode URL.fragment_set fs = fs).
  { intros fs H. apply encode_none. revert H. apply forallb_str_impl.
    intros c Hc. destruct (fragment_char_facts c Hc) as [_ H]. rewrite H. reflexivity. }
  destruct q as [qs|]; simpl in Hq.
  - cbn [query_text String.append URL.parse_query_fragment].
    rewrite break_at_append.
    + rewrite encode_none.
      * destruct f as [fs|]; simpl in Hf; cbn [fragment_text String.append];
          [rewrite (Hfrag fs Hf)|]; reflexivity.
      * revert Hq. apply forallb_str_impl. intros c Hc.
        destruct (query_char_facts c Hc) as (_ & _ & H). rewrite H. reflexivity.
    + revert Hq. apply forallb_str_impl. intros c Hc.
      destruct (query_char_facts c Hc) as (_ & H & _). rewrite H. reflexivity.
    + destruct f; simpl; [reflexivity | exact I].
  - cbn [query_text String.append].
    destruct f as [fs|]; simpl in Hf; cbn [fragment_text String.append URL.parse_query_fragment];
      [rewrite (Hfrag fs Hf)|]; reflexivity.
Qed.

Lemma path_segments_plain (segs : list string) :
  Forall plain_segment segs ->
  forall acc, URL.path_segments acc segs = acc ++ segs.
Proof.
  induction 1 as [|seg segs (Hchars & Hdot & Hdots) _ IH]; intros acc; simpl.
  - symmetry. apply app_nil_r.
  - rewrite Hdot, Hdots, IH, <- app_assoc. simpl. rewrite encode_none; [reflexivity|].
    revert Hchars. apply forallb_str_impl. intros c Hc.
    destruct (path_char_facts c Hc) as (_ & _ & _ & H). rewrite H. reflexivity.
Qed.

Lemma segment_no_slash (seg : string) :
  plain_segment seg -> forallb_str (fun c => negb (URL.is_slash c)) seg = true.
Proof.
  intros (Hchars & _). revert Hchars. apply forallb_str_impl. intros c Hc.
  destruct (path_char_facts c Hc) as (_ & _ & H & _). rewrite H. reflexivity.
Qed.

Lemma split_path_text (segs : list string) :
  Forall plain_segment segs ->
  forall seg, plain_segment seg ->
    split_char URL.is_slash (seg +++ URL.path_text segs) = seg :: segs.
Proof.
  induction 1 as [|s segs Hs _ IH]; intros seg Hseg.
  - cbn [URL.path_text]. rewrite append_empty_r.
    apply split_char_none, segment_no_slash, Hseg.
  - cbn [URL.path_text String.append].
    rewrite split_char_append; [|apply segment_no_slash, Hseg | reflexivity].
    rewrite (IH s Hs). reflexivity.
Qed.

Lemma parse_path_plain (segs : list string) :
  Forall plain_segment segs ->
  URL.parse_path [] (URL.strip_slash (URL.path_text segs)) = canon_path segs.
Proof.
  intros H. destruct H as [|seg segs Hseg Hsegs]; [reflexivity|].
  cbn [URL.path_text String.append URL.strip_slash].
  change (URL.is_slash "/") with true. cbv iota.
  unfold URL.parse_path. rewrite (split_path_text segs Hsegs seg Hseg).
  rewrite path_segments_plain; [reflexivity | constructor; assumption].
Qed.

Lemma parse_host_chars (host : string) :
  URL.parse_host host = Some host ->
  host <> "" /\ forallb_str URL.is_host_char host = true.
Proof.
  unfold URL.parse_host. destruct (String.eqb host "") eqn:E; [discriminate|].
  apply String.eqb_neq in E. destruct (forallb_str URL.is_host_char host); [|discriminate].
  intros _. split; [exact E | reflexivity].
Qed.

Lemma port_text_stops (port : option N) : stops URL.is_colon (port_text port).
Proof. destruct port; simpl; [reflexivity | exact I]. Qed.

Lemma parse_authority_plain (host : string) (port : option N) :
  URL.parse_host host = Some host ->
  match port with Some p => (p <= 65535)%N | None => True end ->
  URL.parse_authority "https" (host +++ port_text port) = Some (host, canon_port port).
Proof.
  intros Hhost Hport. destruct (parse_host_chars host Hhost) as [_ Hchars].
  unfold URL.parse_authority. rewrite break_at_append.
  - rewrite Hhost. destruct port as [p|]; [|reflexivity].
    cbn [port_text String.append]. unfold URL.parse_port.
    destruct (String.eqb (URL.decimal p) "") eqn:E;
      [apply String.eqb_eq in E; destruct (decimal_nonempty p E)|].
    rewrite decimal_parse, DecimalN.Unsigned.of_to.
    apply N.leb_le in Hport. rewrite Hport. reflexivity.
  - revert Hchars. apply forallb_str_impl. intros c Hc.
    destruct (host_char_facts c Hc) as (_ & _ & H & _). rewrite H. reflexivity.
  - apply port_text_stops.
Qed.

Lemma forallb_str_visible_text (host : string) (port : option N) (segs : list string)
      (q f : option string) :
  well_formed host port segs q f ->
  forallb_str visible
    (host +++ port_text port +++ URL.path_text segs +++ query_text q +++ fragment_text f)
  = true.
Proof.
  intros (Hhost & _ & _ & _ & Hsegs & Hq & Hf).
  destruct (parse_host_chars host Hhost) as [_ Hchars].
  rewrite !forallb_str_append. repeat (apply andb_true_iff; split).
  - revert Hchars. apply forallb_str_impl. intros c Hc.
    apply (host_char_facts c Hc).
  - destruct port as [p|]; [|reflexivity]. cbn [port_text String.append forallb_str].
    apply andb_true_iff. split; [reflexivity|].
    generalize (decimal_digits (N.to_uint p)). apply forallb_str_impl.
    intros c Hc. apply (digit_facts c Hc).
  - induction Hsegs as [|seg segs (Hseg & _) _ IH]; [reflexivity|].
    cbn [URL.path_text String.append forallb_str]. rewrite forallb_str_append, IH.
    rewrite andb_true_r. apply andb_true_iff. split; [reflexivity|].
    revert Hseg. apply forallb_str_impl. intros c Hc. apply (path_char_facts c Hc).
  - destruct q as [qs|]; [|reflexivity]. cbn [query_text String.append forallb_str].
    apply andb_true_iff. split; [reflexivity|]. simpl in Hq.
    revert Hq. apply forallb_str_impl. intros c Hc. apply (query_char_facts c Hc).
  - destruct f as [fs|]; [|reflexivity]. cbn [fragment_text String.append forallb_str].
    apply andb_true_iff. split; [reflexivity|]. simpl in Hf.
    revert Hf. apply forallb_str_impl. intros c Hc. apply (fragment_char_facts c Hc).
Qed.

Lemma tail_stops (segs : list string) (q f : option string) :
  stops URL.is_authority_end (URL.path_text segs +++ query_text q +++ fragment_text f).
Proof.
  destruct segs as [|seg segs]; [|reflexivity].
  destruct q as [qs|]; [reflexivity|].
  destruct f as [fs|]; [reflexivity | exact I].
Qed.

Lemma query_fragment_stops (q f : option string) :
  stops URL.is_path_end (query_text q +++ fragment_text f).
Proof.
  destruct q as [qs|]; [reflexivity|].
  destruct f as [fs|]; [reflexivity | exact I].
Qed.

Lemma path_text_chars (segs : list string) :
  Forall plain_segment segs ->
  forallb_str (fun c => negb (URL.is_path_end c)) (URL.path_text segs) = true.
Proof.
  induction 1 as [|seg segs (Hseg & _) _ IH]; [reflexivity|].
  cbn [URL.path_text String.append forallb_str]. rewrite forallb_str_append, IH.
  rewrite andb_true_r. apply andb_true_iff. split; [reflexivity|].
  revert Hseg. apply forallb_str_impl. intros c Hc.
  destruct (path_char_facts c Hc) as (_ & H & _). rewrite H. reflexivity.
Qed.

Lemma authority_chars (host : string) (port : option N) :
  URL.parse_host host = Some host ->
  forallb_str (fun c => negb (URL.is_authority_end c)) (host +++ port_text port) = true.
Proof.
  intros Hhost. destruct (parse_host_chars host Hhost) as [_ Hchars].
  rewrite forallb_str_append. apply andb_true_iff. split.
  - revert Hchars. apply forallb_str_impl. intros c Hc.
    destruct (host_char_facts c Hc) as (_ & H & _). rewrite H. reflexivity.
  - destruct port as [p|]; [|reflexivity]. cbn [port_text String.append forallb_str].
    apply andb_true_iff. split; [reflexivity|].
    generalize (decimal_digits (N.to_uint p)). apply forallb_str_impl.
    intros c Hc. destruct (digit_facts c Hc) as (_ & H). rewrite H. reflexivity.
Qed.

Lemma preprocess_visible (s : string) :
  forallb_str visible s = true -> URL.preprocess s = s.
Proof.
  intros H. unfold URL.preprocess.
  rewrite dropWhile_stops, dropWhileEnd_none, remove_chars_none; try reflexivity.
  - revert H. apply forallb_str_impl. intros c Hc.
    destruct (visible_facts c Hc) as (_ & _ & E). rewrite E. reflexivity.
  - revert H. apply forallb_str_impl. intros c Hc.
    destruct (visible_facts c Hc) as (_ & E & _). rewrite E. reflexivity.
  - destruct s as [|c s]; [exact I|]. simpl in *.
    apply andb_true_iff in H. destruct H as [Hc _].
    destruct (visible_facts c Hc) as (_ & E & _). rewrite E. reflexivity.
Qed.

Lemma trim_visible (s : string) : forallb_str visible s = true -> trim s = s.
Proof.
  intros H.
  assert (Hlead : forallb_str no_ws_lead s = true).
  { revert H. apply forallb_str_impl. intros c Hc.
    destruct (visible_facts c Hc) as (E & _). exact E. }
  unfold trim. destruct s as [|c s]; [reflexivity|].
  cbn [forallb_str] in Hlead. apply andb_true_iff in Hlead. destruct Hlead as [Hc Hs].
  rewrite (trimStart_lead c s Hc). apply trimEnd_all_lead.
  cbn [forallb_str]. rewrite Hc, Hs. reflexivity.
Qed.

(** The parser on the text of a well-formed [https] URL. *)
Lemma parse_https_text (host : string) (port : option N) (segs : list string)
      (q f : option string) :
  well_formed host port segs q f ->
  URL.parse (URL.href (URL.mk "https" host port segs q f))
  = Some (URL.mk "https" host (canon_port port) (canon_path segs) q f).
Proof.
  intros Hwf. pose proof (forallb_str_visible_text _ _ _ _ _ Hwf) as Hvis.
  destruct Hwf as (Hhost & _ & _ & Hport & Hsegs & Hq & Hf).
  destruct (parse_host_chars host Hhost) as [Hne Hchars].
  rewrite href_text. unfold URL.parse.
  rewrite preprocess_visible by exact Hvis.
  change (URL.parse_scheme ("https" +++ "://" +++ host +++ port_text port
                              +++ URL.path_text segs +++ query_text q +++ fragment_text f))
    with (Some ("https", "//" +++ host +++ port_text port +++ URL.path_text segs
                           +++ query_text q +++ fragment_text f)).
  change (URL.is_special "https") with true. cbv iota.
  unfold URL.parse_after_scheme.
  change (dropWhile URL.is_slash ("//" +++ host +++ port_text port +++ URL.path_text segs
                                    +++ query_text q +++ fragment_text f))
    with (dropWhile URL.is_slash (host +++ port_text port +++ URL.path_text segs
                                    +++ query_text q +++ fragment_text f)).
  rewrite dropWhile_stops.
  2:{ destruct host as [|c host]; [contradiction|]. simpl in *.
      apply andb_true_iff in Hchars. destruct Hchars as [Hc _].
      destruct (host_char_facts c Hc) as (_ & _ & _ & E). rewrite E. reflexivity. }
  rewrite <- (append_assoc host). rewrite break_at_append;
    [| apply authority_chars; exact Hhost | apply tail_stops].
  rewrite parse_authority_plain by assumption.
  rewrite break_at_append; [| apply path_text_chars; exact Hsegs | apply query_fragment_stops].
  rewrite parse_query_fragment_plain by assumption.
  rewrite parse_path_plain by assumption. reflexivity.
Qed.

(** ** normalizeUrl and the deduplication key *)

Lemma host_is_no_scheme (host x : string) :
  URL.parse_host host = Some host ->
  3 <= String.length host ->
  includes host "." = true ->
  startsWith (host +++ x) "http://" = false /\ startsWith (host +++ x) "https://" = false.
Proof.
  intros Hhost Hlen Hdot. destruct (parse_host_chars host Hhost) as [_ Hchars].
  unfold startsWith.
  destruct host as [|c1 [|c2 [|c3 [|c4 [|c5 host]]]]]; simpl in Hlen; try lia;
    cbn [String.append String.prefix];
    (destruct (ascii_dec "h" c1) as [<-|]; [|split; reflexivity]);
    (destruct (ascii_dec "t" c2) as [<-|]; [|split; reflexivity]);
    (destruct (ascii_dec "t" c3) as [<-|]; [|split; reflexivity]).
  - vm_compute in Hdot. discriminate Hdot.
  - destruct (ascii_dec "p" c4) as [<-|]; [|split; reflexivity].
    vm_compute in Hdot. discriminate Hdot.
  - destruct (ascii_dec "p" c4) as [<-|]; [|split; reflexivity].
    split.
    + destruct (ascii_dec ":" c5) as [<-|]; [|reflexivity].
      vm_compute in Hchars. discriminate Hchars.
    + destruct (ascii_dec "s" c5) as [<-|]; [|reflexivity].
      destruct host as [|c6 host]; cbn [String.append String.prefix].
      * destruct x as [|c x]; [reflexivity|].
        cbn [String.prefix]. destruct (ascii_dec ":" c) as [<-|]; [|reflexivity].
        vm_compute in Hdot. discriminate Hdot.
      * destruct (ascii_dec ":" c6) as [<-|]; [|reflexivity].
        vm_compute in Hchars. discriminate Hchars.
Qed.

Lemma well_formed_canonical (host : string) (port : option N) (segs : list string)
      (q f : option string) :
  well_formed host port segs q f ->
  well_formed host (canon_port port) (canon_path segs) q f.
Proof.
  intros (H1 & H2 & H3 & H4 & H5 & H6 & H7). repeat split; try assumption.
  - destruct port as [p|]; [|exact I]. simpl. destruct (p =? 443)%N; [exact I | exact H4].
  - destruct segs; [|exact H5]. repeat constructor.
Qed.

Lemma canon_port_idempotent (port : option N) : canon_port (canon_port port) = canon_port port.
Proof.
  destruct port as [p|]; [|reflexivity]. simpl.
  destruct (p =? 443)%N eqn:E; [reflexivity|]. simpl. rewrite E. reflexivity.
Qed.

Lemma canon_path_idempotent (segs : list string) : canon_path (canon_path segs) = canon_path segs.
Proof. destruct segs; reflexivity. Qed.

Lemma normalizeUrl_text (sch host : string) (port : option N) (segs : list string)
      (q f : option string) :
  sch = "http" \/ sch = "https" ->
  well_formed host port segs q f ->
  UrlUtils.normalizeUrl (URL.href (URL.mk sch host port segs q f))
  = Return (URL.href (URL.mk "https" host (canon_port port) (canon_path segs) q f)).
Proof.
  intros Hsch Hwf. pose proof (forallb_str_visible_text _ _ _ _ _ Hwf) as Hvis.
  pose proof Hwf as (Hhost & Hlen & Hdot & _).
  set (rest := host +++ port_text port +++ URL.path_text segs
                    +++ query_text q +++ fragment_text f) in *.
  assert (Hstrip : UrlUtils.strip_user_prefix (trim (sch +++ "://" +++ rest)) = rest).
  { rewrite trim_visible.
    - destruct Hsch; subst sch; reflexivity.
    - destruct Hsch; subst sch; cbn [String.append forallb_str]; exact Hvis. }
  rewrite href_text. fold rest. unfold UrlUtils.normalizeUrl. rewrite Hstrip.
  destruct (host_is_no_scheme host
              (port_text port +++ URL.path_text segs +++ query_text q +++ fragment_text f)
              Hhost Hlen Hdot) as [E1 E2].
  fold rest in E1, E2. rewrite E1, E2. cbn [negb andb].
  change ("https://" +++ rest) with ("https" +++ "://" +++ rest).
  unfold rest. rewrite <- href_text. unfold new_URL.
  rewrite parse_https_text by exact Hwf. cbn [URL.hostname].
  replace (String.eqb host "") with false
    by (symmetry; apply String.eqb_neq; intros ->; simpl in Hlen; lia).
  replace (String.length host <? 3) with false by (symmetry; apply Nat.ltb_ge; exact Hlen).
  rewrite Hdot. reflexivity.
Qed.

Lemma normalizedKey_text (sch host : string) (port : option N) (segs : list string)
      (q f : option string) :
  sch = "http" \/ sch = "https" ->
  well_formed host port segs q f ->
  LinksAnalyzer.normalizedKey (URL.href (URL.mk sch host port segs q f))
  = Return (key_text host port segs q f).
Proof.
  intros Hsch Hwf. unfold LinksAnalyzer.normalizedKey.
  rewrite (normalizeUrl_text sch host port segs q f Hsch Hwf). unfold rbind.
  unfold LinksAnalyzer.deduplicationKey, rbind, new_URL.
  rewrite parse_https_text by (apply well_formed_canonical; exact Hwf).
  rewrite canon_port_idempotent, canon_path_idempotent. reflexivity.
Qed.

Lemma path_text_app (a b : list string) :
  URL.path_text (a ++ b) = URL.path_text a +++ URL.path_text b.
Proof.
  induction a as [|x a IH]; [reflexivity|].
  cbn [app URL.path_text String.append]. rewrite IH, append_assoc. reflexivity.
Qed.

Lemma last_char_no_slash (s : string) :
  forallb_str (fun c => negb (URL.is_slash c)) s = true -> last_char s <> Some "/"%char.
Proof.
  induction s as [|c s IH]; [discriminate|].
  cbn [forallb_str]. intros H. apply andb_true_iff in H. destruct H as [Hc Hs].
  destruct s as [|d s].
  - simpl. intros E. injection E as E. subst c. discriminate Hc.
  - exact (IH Hs).
Qed.

Lemma key_path_trailing_slash (segs : list string) :
  Forall plain_segment segs ->
  no_trailing_slash segs ->
  or_else (dropTrailingSlash (URL.path_text (canon_path (segs ++ [""])))) "/"
  = or_else (dropTrailingSlash (URL.path_text (canon_path segs))) "/".
Proof.
  intros Hsegs Hlast.
  assert (E : canon_path (segs ++ [""]) = segs ++ [""]) by (destruct segs; reflexivity).
  rewrite E, path_text_app.
  change (URL.path_text [""]) with "/". rewrite dropTrailingSlash_snoc.
  destruct segs as [|s0 segs0] using rev_ind; [reflexivity|].
  clear IHsegs0.
  assert (E' : canon_path (segs0 ++ [s0]) = segs0 ++ [s0]) by (destruct segs0; reflexivity).
  rewrite E', dropTrailingSlash_other; [reflexivity|].
  rewrite path_text_app. cbn [URL.path_text]. rewrite append_empty_r.
  assert (Hs0 : s0 <> "") by (intros ->; exact (Hlast segs0 eq_refl)).
  apply Forall_app in Hsegs. destruct Hsegs as [_ Hs]. inversion Hs as [|? ? Hplain _]; subst.
  rewrite last_char_append by (destruct s0; [contradiction|discriminate]).
  rewrite (last_char_append "/" s0 Hs0).
  apply last_char_no_slash, segment_no_slash, Hplain.
Qed.

(** C8 (amended).  For every well-formed [http] or [https] URL, with any
    port, query and fragment: the URL and the same URL with one slash
    added to a path that does not already end with a slash have the same
    normalized key; and an [https] URL with the explicit port 443 has the
    same key as the URL without port. *)
Theorem normalized_key_ignores_one_trailing_slash_and_port_443
        (sch host : string) (port : option N) (segs : list string) (q f : option string) :
  sch = "http" \/ sch = "https" ->
  well_formed host port segs q f ->
  (no_trailing_slash segs ->
   exists key,
     LinksAnalyzer.normalizedKey (URL.href (URL.mk sch host port (segs ++ [""]) q f))
     = Return key /\
     LinksAnalyzer.normalizedKey (URL.href (URL.mk sch host port segs q f)) = Return key) /\
  (exists key,
      LinksAnalyzer.normalizedKey (URL.href (URL.mk "https" host (Some 443%N) segs q f))
      = Return key /\
      LinksAnalyzer.normalizedKey (URL.href (URL.mk "https" host None segs q f))
      = Return key).
Proof.
  intros Hsch Hwf. pose proof Hwf as (H1 & H2 & H3 & H4 & H5 & H6 & H7). split.
  - intros Hlast. exists (key_text host port segs q f). split.
    + rewrite normalizedKey_text; [|exact Hsch|].
      * unfold key_text. cbn [URL.protocol URL.host URL.search URL.hash URL.scheme
                               URL.hostname URL.port URL.query URL.fragment].
        rewrite (key_path_trailing_slash segs H5 Hlast). reflexivity.
      * repeat split; try assumption. apply Forall_app. split; [exact H5|].
        repeat constructor.
    + apply normalizedKey_text; assumption.
  - exists (key_text host None segs q f). split.
    + rewrite normalizedKey_text; [reflexivity | right; reflexivity |].
      repeat split; try assumption. simpl. lia.
    + apply normalizedKey_text; [right; reflexivity|].
      repeat split; try assumption.
Qed.

(** C8 counterexample: under [http] the default port 80 is kept by the
    normalization (which rewrites the scheme to [https] first), and a
    second trailing slash is kept as well. *)
Lemma normalized_key_keeps_port_80_and_a_second_slash :
  LinksAnalyzer.normalizedKey "http://example.com:80/a"
  = Return "https://example.com:80/a" /\
  LinksAnalyzer.normalizedKey "http://example.com/a" = Return "https://example.com/a" /\
  LinksAnalyzer.normalizedKey "http://example.com:80/a"
  <> LinksAnalyzer.normalizedKey "http://example.com/a" /\
  LinksAnalyzer.normalizedKey "https://example.com/a//"
  <> LinksAnalyzer.normalizedKey "https://example.com/a/".
Proof.
  split; [vm_compute; reflexivity|]. split; [vm_compute; reflexivity|].
  split; vm_compute; discriminate.
Qed.

Lemma normalized_key_ignores_one_trailing_slash_and_port_443_witness :
  LinksAnalyzer.normalizedKey "http://example.com:8080/blog/post/?page=2#top"
  = LinksAnalyzer.normalizedKey "http://example.com:8080/blog/post?page=2#top" /\
  LinksAnalyzer.normalizedKey "https://example.com:443/blog/post"
  = LinksAnalyzer.normalizedKey "https://example.com/blog/post".
Proof.
  assert (Hwf : well_formed "example.com" (Some 8080%N) ["blog"; "post"]
                            (Some "page=2") (Some "top")).
  { repeat split; try reflexivity; try (vm_compute; lia).
    - vm_compute. discriminate.
    - repeat constructor. }
  assert (Hwf' : well_formed "example.com" None ["blog"; "post"] None None).
  { repeat split; try reflexivity; try (vm_compute; lia). repeat constructor. }
  split.
  - destruct (normalized_key_ignores_one_trailing_slash_and_port_443
                "http" "example.com" (Some 8080%N) ["blog"; "post"]
                (Some "page=2") (Some "top") (or_introl eq_refl) Hwf)
      as [Hslash _].
    destruct Hslash as (key & Hk1 & Hk2).
    + intros l E. destruct l as [|a [|b [|c l]]]; discriminate E.
    + change (LinksAnalyzer.normalizedKey
                (URL.href (URL.mk "http" "example.com" (Some 8080%N)
                                  (["blog"; "post"] ++ [""]) (Some "page=2") (Some "top")))
              = LinksAnalyzer.normalizedKey
                  (URL.href (URL.mk "http" "example.com" (Some 8080%N)
                                    ["blog"; "post"] (Some "page=2") (Some "top")))).
      rewrite Hk1, Hk2. reflexivity.
  - destruct (normalized_key_ignores_one_trailing_slash_and_port_443
                "https" "example.com" None ["blog"; "post"] None None
                (or_intror eq_refl) Hwf')
      as [_ (key & Hk1 & Hk2)].
    change (LinksAnalyzer.normalizedKey
              (URL.href (URL.mk "https" "example.com" (Some 443%N) ["blog"; "post"] None None))
            = LinksAnalyzer.normalizedKey
                (URL.href (URL.mk "https" "example.com" None ["blog"; "post"] None None))).
    rewrite Hk1, Hk2. reflexivity.
Defined.

(* ===================================================================== *)
(** * Further properties of the pipeline *)
(* ===================================================================== *)

Import Robots Security Validation.

(** ** The orchestrator's overall score *)

(** X1.  [validateScore] is idempotent, and what it returns always passes
    [isValidScore]. *)
Theorem validateScore_is_idempotent (s : any) :
  validateScore (validateScore s) = validateScore s /\
  isValidScore (validateScore s) = true.
Proof.
  destruct s as [| |s|[| |q]]; try (split; reflexivity).
  split; [|reflexivity].
  cbn [validateScore]. do 2 f_equal. unfold Math_max, Math_min.
  destruct (Qle_bool 100 q) eqn:E1.
  - reflexivity.
  - destruct (Qle_bool 0 q) eqn:E2.
    + rewrite E1, E2. reflexivity.
    + reflexivity.
Qed.

Lemma tally_weight (m : list (string * AnalysisResult)) :
  forall (ws : list (string * Q)) (t : Tally),
    Forall (fun e => (0 < snd e)%Q) ws ->
    (0 <= totalWeight t)%Q ->
    (0 < validAnalyzers t -> (0 < totalWeight t)%Q) ->
    let t' := fold_left (tallyStep m) ws t in
    (0 <= totalWeight t')%Q /\
    (0 < validAnalyzers t' -> (0 < totalWeight t')%Q) /\
    validAnalyzers t <= validAnalyzers t'.
Proof.
  induction ws as [|[name w] ws IH]; intros t Hws H1 H2; simpl.
  - auto.
  - inversion Hws as [|? ? Hw Hws']; subst. simpl in Hw.
    set (t1 := tallyStep m t (name, w)).
    assert (G : (0 <= totalWeight t1)%Q /\
                (0 < validAnalyzers t1 -> (0 < totalWeight t1)%Q) /\
                validAnalyzers t <= validAnalyzers t1).
    { unfold t1, tallyStep. destruct (Map_get name m) as [r|]; [|auto].
      destruct (isValidScore (score r)); [|auto].
      cbn [totalWeight validAnalyzers overall].
      split; [lra|]. split; [intros _; lra | lia]. }
    destruct G as (G1 & G2 & G3).
    destruct (IH t1 Hws' G1 G2) as (I1 & I2 & I3).
    split; [exact I1|]. split; [exact I2 | exact (Nat.le_trans _ _ _ G3 I3)].
Qed.

Lemma tally_counts (m : list (string * AnalysisResult)) (name : string) (w : Q)
      (r : AnalysisResult) :
  Map_get name m = Some r -> isValidScore (score r) = true ->
  forall (ws : list (string * Q)) (t : Tally),
    Forall (fun e => (0 < snd e)%Q) ws ->
    (0 <= totalWeight t)%Q ->
    (0 < validAnalyzers t -> (0 < totalWeight t)%Q) ->
    In (name, w) ws ->
    0 < validAnalyzers (fold_left (tallyStep m) ws t).
Proof.
  intros Hget Hvalid. induction ws as [|[name' w'] ws IH]; intros t Hws H1 H2 Hin.
  - destruct Hin.
  - inversion Hws as [|? ? Hw Hws']; subst. simpl in Hw. simpl.
    set (t1 := tallyStep m t (name', w')).
    assert (G : (0 <= totalWeight t1)%Q /\
                (0 < validAnalyzers t1 -> (0 < totalWeight t1)%Q)).
    { unfold t1, tallyStep. destruct (Map_get name' m) as [r'|]; [|auto].
      destruct (isValidScore (score r')); [|auto].
      cbn [totalWeight validAnalyzers overall].
      split; [lra | intros _; lra]. }
    destruct G as [G1 G2].
    destruct Hin as [E|Hin].
    + injection E as -> ->.
      assert (H : 0 < validAnalyzers t1).
      { unfold t1, tallyStep. rewrite Hget, Hvalid. simpl. lia. }
      pose proof (tally_weight m ws t1 Hws' G1 G2) as (_ & _ & Hle).
      exact (Nat.lt_le_trans _ _ _ H Hle).
    + exact (IH t1 Hws' G1 G2 Hin).
Qed.

Lemma tally_between (lo hi : Z) (m : list (string * AnalysisResult)) :
  weighted_between lo hi m ->
  forall (ws : list (string * Q)) (t : Tally),
    (forall e, In e ws -> In e weights) ->
    (inject_Z lo * totalWeight t <= overall t <= inject_Z hi * totalWeight t)%Q ->
    let t' := fold_left (tallyStep m) ws t in
    (inject_Z lo * totalWeight t' <= overall t' <= inject_Z hi * totalWeight t')%Q.
Proof.
  intros Hm. induction ws as [|[name w] ws IH]; intros t Hws H1; simpl.
  - exact H1.
  - apply IH; [intros e He; apply Hws; right; exact He|].
    assert (Hw : (0 < w)%Q).
    { pose proof weights_positive as Hp. rewrite Forall_forall in Hp.
      exact (Hp (name, w) (Hws _ (or_introl eq_refl))). }
    unfold tallyStep. destruct (Map_get name m) as [r|] eqn:E; [|exact H1].
    destruct (isValidScore (score r)) eqn:V; [|exact H1].
    pose proof (Hm name w r (Hws _ (or_introl eq_refl)) E V) as Hr.
    cbn [totalWeight validAnalyzers overall]. split; nra.
Qed.

Lemma round2_between (lo hi : Z) (x : Q) :
  (inject_Z lo <= x <= inject_Z hi)%Q -> (inject_Z lo <= round2 x <= inject_Z hi)%Q.
Proof.
  intros [H1 H2]. unfold round2.
  assert (H : (lo * 100 <= Math_round (x * 100) <= hi * 100)%Z).
  { apply Math_round_range. rewrite !inject_Z_mult.
    change (inject_Z 100) with 100%Q. split; nra. }
  destruct H as [Ha Hb]. rewrite Zle_Qle in Ha, Hb. rewrite inject_Z_mult in Ha, Hb.
  change (inject_Z 100) with 100%Q in Ha, Hb.
  split.
  - apply Qle_shift_div_l; [reflexivity | exact Ha].
  - apply Qle_shift_div_r; [reflexivity | exact Hb].
Qed.

Lemma weightedScore_cases (m : list (string * AnalysisResult)) :
  let t := fold_left (tallyStep m) weights tally0 in
  (0 < validAnalyzers t /\ (0 < totalWeight t)%Q /\
   weightedScore m = round2 (overall t / totalWeight t)) \/
  (validAnalyzers t = 0 /\ weightedScore m = 0%Q).
Proof.
  intros t.
  assert (H0 : (0 <= totalWeight tally0)%Q) by (simpl; lra).
  assert (H1 : 0 < validAnalyzers tally0 -> (0 < totalWeight tally0)%Q)
    by (simpl; intros H; lia).
  destruct (tally_weight m weights tally0 weights_positive H0 H1) as (_ & Hpos & _).
  fold t in Hpos. unfold weightedScore. fold tally0. fold t.
  destruct (validAnalyzers t) as [|n] eqn:En.
  - right. split; [reflexivity|]. rewrite andb_false_r. reflexivity.
  - left. assert (Hn : 0 < S n) by lia. specialize (Hpos Hn).
    split; [exact Hn|]. split; [exact Hpos|].
    destruct (Qle_bool (totalWeight t) 0) eqn:E.
    + apply Qle_bool_iff in E. lra.
    + reflexivity.
Qed.

(** X2.  When at least one weighted analyzer has a valid score and every
    valid score of a weighted analyzer lies between two integers [lo] and
    [hi], the overall score of the page lies between [lo] and [hi] (the
    overall score is a rounded weighted mean: rounding can carry it past
    a fractional score, never past an integer bound of the scores).
    Without any valid weighted score the overall score is 0. *)
Theorem overall_score_stays_within_integer_bounds_of_the_scores
        (results : list (string * AnalysisResult)) (context : AnalysisContext)
        (lo hi : Z) :
  (some_weighted (Map_of results) ->
   weighted_between lo hi (Map_of results) ->
   (lo <= overallScore (combineAnalysisResults results context) <= hi)%Z) /\
  (~ some_weighted (Map_of results) ->
   overallScore (combineAnalysisResults results context) = 0%Z).
Proof.
  cbn [overallScore combineAnalysisResults]. set (m := Map_of results).
  pose proof (weightedScore_cases m) as Hcases. cbv zeta in Hcases.
  assert (H0 : (0 <= totalWeight tally0)%Q) by (simpl; lra).
  assert (H1 : 0 < validAnalyzers tally0 -> (0 < totalWeight tally0)%Q)
    by (simpl; intros H; lia).
  split.
  - intros (name & w & r & Hin & Hget & Hvalid) Hbetween.
    pose proof (tally_counts m name w r Hget Hvalid weights tally0
                             weights_positive H0 H1 Hin) as Hcount.
    destruct Hcases as [(_ & Hpos & E)|[E _]]; [|lia].
    rewrite E. apply Math_round_range. apply round2_between.
    assert (Hb : (inject_Z lo * totalWeight tally0 <= overall tally0
                  <= inject_Z hi * totalWeight tally0)%Q) by (simpl; lra).
    pose proof (tally_between lo hi m Hbetween weights tally0 (fun e He => He) Hb) as Ht.
    cbv zeta in Ht. destruct Ht as [Ha Hb'].
    split.
    + apply Qle_shift_div_l; [exact Hpos | exact Ha].
    + apply Qle_shift_div_r; [exact Hpos | exact Hb'].
  - intros Hnone.
    destruct Hcases as [(Hcount & _ & _)|[_ E]]; [|rewrite E; reflexivity].
    exfalso. apply Hnone.
    assert (G : forall ws t,
               0 < validAnalyzers (fold_left (tallyStep m) ws t) ->
               0 < validAnalyzers t \/
               exists name w r, In (name, w) ws /\ Map_get name m = Some r /\
                                isValidScore (score r) = true).
    { induction ws as [|[name w] ws IH]; intros t H; simpl in H; [left; exact H|].
      destruct (IH _ H) as [H'|(n' & w' & r' & Hin & Hr)].
      - unfold tallyStep in H'. destruct (Map_get name m) as [r|] eqn:E; [|left; exact H'].
        destruct (isValidScore (score r)) eqn:V; [|left; exact H'].
        right. exists name, w, r. split; [left; reflexivity | split; assumption].
      - right. exists n', w', r'. split; [right; exact Hin | exact Hr]. }
    destruct (G weights tally0 Hcount) as [H|H]; [simpl in H; lia | exact H].
Qed.

Lemma tally_agree (m1 m2 : list (string * AnalysisResult)) :
  (forall name w, In (name, w) weights ->
                  option_map score (Map_get name m1) = option_map score (Map_get name m2)) ->
  forall ws t, (forall e, In e ws -> In e weights) ->
               fold_left (tallyStep m1) ws t = fold_left (tallyStep m2) ws t.
Proof.
  intros H. induction ws as [|[name w] ws IH]; intros t Hws; cbn [fold_left];
    [reflexivity|].
  assert (E : tallyStep m1 t (name, w) = tallyStep m2 t (name, w)).
  { unfold tallyStep. pose proof (H name w (Hws _ (or_introl eq_refl))) as Hs.
    destruct (Map_get name m1) as [r1|], (Map_get name m2) as [r2|];
      simpl in Hs; try discriminate; [|reflexivity].
    injection Hs as Hs. rewrite Hs. reflexivity. }
  rewrite E. apply IH. intros e He. apply Hws. right. exact He.
Qed.

Lemma weightedScore_agree (m1 m2 : list (string * AnalysisResult)) :
  (forall name w, In (name, w) weights ->
                  option_map score (Map_get name m1) = option_map score (Map_get name m2)) ->
  weightedScore m1 = weightedScore m2.
Proof.
  intros H.
  pose proof (tally_agree m1 m2 H weights tally0 (fun e He => He)) as Ht.
  pose proof (weightedScore_cases m1) as C1. pose proof (weightedScore_cases m2) as C2.
  cbv zeta in C1, C2. rewrite Ht in C1.
  destruct C1 as [(V1 & _ & E1)|[V1 E1]], C2 as [(V2 & _ & E2)|[V2 E2]];
    rewrite E1, E2; try reflexivity; lia.
Qed.

(** X3.  The overall score depends on the analyzer results only through
    the validated scores stored under the eleven names of the weight
    table: two result maps that agree on these scores give the same
    overall score, whatever they hold under other names and whatever the
    issues and data of the results. *)
Theorem overall_score_depends_only_on_weighted_scores
        (results1 results2 : list (string * AnalysisResult))
        (context1 context2 : AnalysisContext) :
  (forall name w, In (name, w) weights ->
                  option_map score (Map_get name (Map_of results1))
                  = option_map score (Map_get name (Map_of results2))) ->
  overallScore (combineAnalysisResults results1 context1)
  = overallScore (combineAnalysisResults results2 context2).
Proof.
  intros H. cbn [overallScore combineAnalysisResults].
  rewrite (weightedScore_agree _ _ H). reflexivity.
Qed.

(** ** What the page result reads of the analyzer results *)

Lemma Map_set_mapped {V W} (f : V -> W) (k : string) (v : V) (m : list (string * V)) :
  Map_set k (f v) (map (fun e => (fst e, f (snd e))) m)
  = map (fun e => (fst e, f (snd e))) (Map_set k v m).
Proof.
  induction m as [|[k0 v0] m IH]; simpl; [reflexivity|].
  destruct (String.eqb k k0); simpl; [reflexivity | rewrite IH; reflexivity].
Qed.

Lemma Map_of_mapped {V W} (f : V -> W) (l : list (string * V)) :
  Map_of (map (fun e => (fst e, f (snd e))) l)
  = map (fun e => (fst e, f (snd e))) (Map_of l).
Proof.
  unfold Map_of.
  assert (G : forall m,
             fold_left (fun m e => Map_set (fst e) (snd e) m)
                       (map (fun e => (fst e, f (snd e))) l)
                       (map (fun e => (fst e, f (snd e))) m)
             = map (fun e => (fst e, f (snd e)))
                   (fold_left (fun m e => Map_set (fst e) (snd e) m) l m)).
  { induction l as [|[k v] l IH]; intros m; simpl; [reflexivity|].
    rewrite Map_set_mapped. apply IH. }
  exact (G []).
Qed.

Lemma Map_get_mapped {V W} (f : V -> W) (k : string) (m : list (string * V)) :
  Map_get k (map (fun e => (fst e, f (snd e))) m) = option_map f (Map_get k m).
Proof.
  induction m as [|[k0 v0] m IH]; simpl; [reflexivity|].
  destruct (String.eqb k k0); [reflexivity | exact IH].
Qed.

Lemma dataOf_withoutIssues (m : list (string * AnalysisResult)) (name : string) :
  dataOf (map (fun e => (fst e, withoutIssues (snd e))) m) name = dataOf m name.
Proof.
  unfold dataOf. rewrite Map_get_mapped.
  destruct (Map_get name m) as [[s i [d|]]|]; reflexivity.
Qed.

(** X4.  The result of a page does not read the [issues] field of the analyzer
    results: erasing it in every result leaves the combined result, and so
    the page's issue list, unchanged.  The issues of a page are those
    stored in the analyzers' [data]. *)
Theorem page_result_ignores_the_issues_field
        (results : list (string * AnalysisResult)) (context : AnalysisContext) :
  combineAnalysisResults results context
  = combineAnalysisResults (map (fun e => (fst e, withoutIssues (snd e))) results) context.
Proof.
  unfold combineAnalysisResults. rewrite Map_of_mapped.
  rewrite !dataOf_withoutIssues.
  rewrite (weightedScore_agree
             (map (fun e => (fst e, withoutIssues (snd e))) (Map_of results))
             (Map_of results)).
  - reflexivity.
  - intros name w _. rewrite Map_get_mapped.
    destruct (Map_get name (Map_of results)); reflexivity.
Qed.

(** ** The summary of a report *)

Lemma sum_between (lo hi : Z) (l : list CompleteAnalysisResult) :
  (forall r, In r l -> (lo <= seoScore r <= hi)%Z) ->
  forall (acc : Z) (n : nat),
    (lo * Z.of_nat n <= acc <= hi * Z.of_nat n)%Z ->
    (lo * Z.of_nat (n + List.length l)
     <= fold_left (fun acc r => (acc + seoScore r)%Z) l acc
     <= hi * Z.of_nat (n + List.length l))%Z.
Proof.
  induction l as [|r l IH]; intros Hl acc n Hacc; simpl.
  - rewrite Nat.add_0_r. exact Hacc.
  - replace (n + S (List.length l)) with (S n + List.length l) by lia.
    apply IH; [intros x Hx; apply Hl; right; exact Hx|].
    pose proof (Hl r (or_introl eq_refl)). lia.
Qed.

Lemma average_between (allResults : list CompleteAnalysisResult) (lo hi : Z) :
  (exists r, In r allResults /\ isSuccess r = true) ->
  (forall r, In r allResults -> isSuccess r = true -> (lo <= seoScore r <= hi)%Z) ->
  (lo <= avgSeoScore (summarize allResults) <= hi)%Z.
Proof.
  unfold summarize. cbn [avgSeoScore]. set (ok := filter isSuccess allResults).
  intros (r0 & Hin & Hok) Hbounds.
  assert (Hne : 0 < List.length ok).
  { assert (H : In r0 ok) by (apply filter_In; split; assumption).
    destruct ok; [destruct H | simpl; lia]. }
  replace (0 <? List.length ok) with true by (symmetry; apply Nat.ltb_lt; exact Hne).
  assert (Hsum := sum_between lo hi ok
                    (fun r Hr => Hbounds r (proj1 (proj1 (filter_In _ _ _) Hr))
                                         (proj2 (proj1 (filter_In _ _ _) Hr)))
                    0%Z 0 ltac:(lia)).
  simpl Nat.add in Hsum. destruct Hsum as [Ha Hb].
  apply Math_round_range.
  assert (Hn : (0 < inject_Z (Z.of_nat (List.length ok)))%Q).
  { rewrite <- (Zlt_Qlt 0). lia. }
  rewrite Zle_Qle, inject_Z_mult in Ha, Hb. split.
  - apply Qle_shift_div_l; [exact Hn | exact Ha].
  - apply Qle_shift_div_r; [exact Hn | exact Hb].
Qed.

(** X5.  The average score of a summary is computed over the successful
    pages only: it lies between the smallest and the largest score of the
    successful pages, and it is 0 when no page succeeded. *)
Theorem summary_average_lies_between_the_page_scores
        (allResults : list CompleteAnalysisResult) (lo hi : Z) :
  ((exists r, In r allResults /\ isSuccess r = true) ->
   (forall r, In r allResults -> isSuccess r = true -> (lo <= seoScore r <= hi)%Z) ->
   (lo <= avgSeoScore (summarize allResults) <= hi)%Z) /\
  ((forall r, In r allResults -> isSuccess r = false) ->
   avgSeoScore (summarize allResults) = 0%Z).
Proof.
  split; [apply average_between|].
  unfold summarize. cbn [avgSeoScore]. set (ok := filter isSuccess allResults).
  intros Hnone.
  assert (E : ok = []).
  { unfold ok. induction allResults as [|r l IH]; [reflexivity|]. simpl.
    rewrite (Hnone r (or_introl eq_refl)).
    apply IH. intros x Hx. apply Hnone. right. exact Hx. }
  rewrite E. reflexivity.
Qed.

(** X6.  A failed page contributes to a summary only through the page
    counts: with one more failed page, [totalPages] and [failedPages] grow
    by one, and the average score and the issue counts are unchanged (the
    issues of a failed page are not counted). *)
Theorem failed_page_only_changes_the_page_counts
        (before after : list CompleteAnalysisResult) (failure : CompleteAnalysisResult) :
  page_status failure = Failed ->
  let s := summarize (before ++ after) in
  summarize (before ++ failure :: after)
  = {| totalPages := S (totalPages s);
       successfulPages := successfulPages s;
       failedPages := S (failedPages s);
       avgSeoScore := avgSeoScore s;
       criticalIssues := criticalIssues s;
       warningIssues := warningIssues s;
       successIssues := successIssues s;
       cachedResults := cachedResults s |}.
Proof.
  intros Hfailed s.
  assert (E : filter isSuccess (before ++ failure :: after)
              = filter isSuccess (before ++ after)).
  { rewrite !filter_app. simpl. unfold isSuccess at 2. rewrite Hfailed. reflexivity. }
  unfold s, summarize. rewrite E.
  cbn [totalPages successfulPages failedPages avgSeoScore criticalIssues
       warningIssues successIssues cachedResults].
  pose proof (filter_length_le isSuccess (before ++ after)) as Hle.
  rewrite !length_app in *. simpl List.length.
  f_equal; lia.
Qed.

(** ** The crawl entrypoint on top of the orchestrator *)

Lemma analyzeMainPage_pageOperation
      (fetchWithTimeout : string -> Z -> result Error PageResponse)
      (limit : nat) (cfg : SEOConfig) (analyzers : list (string * SEOAnalyzer))
      (u : string) :
  analyzeMainPage (pageOperation fetchWithTimeout limit cfg analyzers) u
  = analyzePage fetchWithTimeout limit cfg analyzers u true.
Proof. reflexivity. Qed.

Lemma analyzeInternal_pageOperation
      (fetchWithTimeout : string -> Z -> result Error PageResponse)
      (limit : nat) (cfg : SEOConfig) (analyzers : list (string * SEOAnalyzer))
      (u : string) :
  analyzeInternal (pageOperation fetchWithTimeout limit cfg analyzers) u
  = analyzePage fetchWithTimeout limit cfg analyzers u false.
Proof. reflexivity. Qed.

Lemma POST_failed_page
      (analyzePage : string -> bool -> nat -> result Error CompleteAnalysisResult)
      (cfg : SEOConfig) (u : string) (e : Errors.SEOError) :
  analyzeMainPage analyzePage u = createErrorResult u (Errors.formatErrorResponse e) ->
  POST analyzePage cfg u
  = {| statusCode := mainStatusCode (Some (Errors.SEOErrorType_value (Errors.seo_type e)));
       responseBody := FailedPageBody (createErrorResult u (Errors.formatErrorResponse e)) |}.
Proof.
  intros H. unfold POST. rewrite H. cbn [page_status createErrorResult page_errorType].
  f_equal. unfold mainErrorBody.
  cbn [page_errorCode createErrorResult Errors.formatErrorResponse Errors.resp_errorCode].
  destruct (Errors.seo_code e); reflexivity.
Qed.

Lemma createHttpError_type (s : N) (u : string) :
  Errors.seo_type (Errors.createHttpError s u) = Errors.NETWORK /\
  Errors.seo_httpStatus (Errors.createHttpError s u) = Some s.
Proof.
  unfold Errors.createHttpError.
  repeat match goal with
         | |- context [if ?b then _ else _] => destruct b
         end; split; reflexivity.
Qed.

(** X7.  Whatever status outside 200..299 the main page answers, the
    crawl entrypoint answers 502: the page is reported failed, with error
    type [network] and the page's own HTTP status in the body, and it is
    not fetched again. *)
Theorem non_ok_main_page_is_answered_with_502
        (fetchWithTimeout : string -> Z -> result Error PageResponse)
        (limit : nat) (cfg : SEOConfig) (analyzers : list (string * SEOAnalyzer))
        (u : string) (response : PageResponse) :
  Errors.validateUrlFormat u = None ->
  fetchWithTimeout u (pageTimeout cfg) = Return response ->
  response_ok response = false ->
  exists failure,
    POST (pageOperation fetchWithTimeout limit cfg analyzers) cfg u
    = {| statusCode := 502%N; responseBody := FailedPageBody failure |} /\
    page_status failure = Failed /\
    page_url failure = u /\
    page_errorType failure = Some "network" /\
    page_httpStatus failure = Some (response_status response).
Proof.
  intros Hvalid Hfetch Hok.
  assert (E : analyzeMainPage (pageOperation fetchWithTimeout limit cfg analyzers) u
              = createErrorResult u
                  (Errors.formatErrorResponse
                     (Errors.createHttpError (response_status response) u))).
  { rewrite analyzeMainPage_pageOperation. unfold analyzePage, analyzeUrl.
    rewrite Hvalid. fold (pageTimeout cfg). unfold performAnalysis.
    rewrite Hfetch. unfold rbind. rewrite Hok. reflexivity. }
  destruct (createHttpError_type (response_status response) u) as [Ht Hs].
  eexists. split.
  - rewrite (POST_failed_page _ cfg u _ E). rewrite Ht. reflexivity.
  - cbn [page_status page_url page_errorType page_httpStatus createErrorResult
         Errors.formatErrorResponse Errors.resp_errorType Errors.resp_httpStatus].
    rewrite Ht, Hs. repeat split.
Qed.

(** X8.  When the fetch of the main page throws, the status of the answer is
    decided by the words of the error message: 408 when it mentions
    [timeout] or [AbortError]; otherwise 502 when it mentions [fetch],
    [network], [DNS], [ENOTFOUND], [SSL] or [certificate]; otherwise
    500. *)
Theorem fetch_exception_decides_the_status_by_its_message
        (fetchWithTimeout : string -> Z -> result Error PageResponse)
        (limit : nat) (cfg : SEOConfig) (analyzers : list (string * SEOAnalyzer))
        (u : string) (e : Error) :
  Errors.validateUrlFormat u = None ->
  fetchWithTimeout u (pageTimeout cfg) = Throw e ->
  let answer := POST (pageOperation fetchWithTimeout limit cfg analyzers) cfg u in
  ~ returns_report answer /\
  (mentions (err_message e) timeoutWords = true -> statusCode answer = 408%N) /\
  (mentions (err_message e) timeoutWords = false ->
   mentions (err_message e) networkWords = true -> statusCode answer = 502%N) /\
  (mentions (err_message e) timeoutWords = false ->
   mentions (err_message e) networkWords = false -> statusCode answer = 500%N).
Proof.
  intros Hvalid Hfetch answer.
  assert (E : analyzeMainPage (pageOperation fetchWithTimeout limit cfg analyzers) u
              = createErrorResult u
                  (Errors.formatErrorResponse
                     (Errors.createErrorFromException e (Some u)))).
  { rewrite analyzeMainPage_pageOperation. unfold analyzePage, analyzeUrl.
    rewrite Hvalid. fold (pageTimeout cfg). unfold performAnalysis.
    rewrite Hfetch. reflexivity. }
  unfold answer. rewrite (POST_failed_page _ cfg u _ E). cbn [statusCode].
  split; [intros [report H]; discriminate H|].
  unfold mentions, timeoutWords, networkWords, Errors.createErrorFromException.
  cbn [existsb]. rewrite !orb_false_r.
  set (m := err_message e).
  destruct (includes m "timeout"); [repeat split; intros; try discriminate; reflexivity|].
  destruct (includes m "AbortError");
    [repeat split; intros; try discriminate; reflexivity|].
  cbn [orb].
  split; [discriminate|].
  destruct (includes m "fetch"); [repeat split; intros; try discriminate; reflexivity|].
  destruct (includes m "network"); [repeat split; intros; try discriminate; reflexivity|].
  destruct (includes m "DNS"); [repeat split; intros; try discriminate; reflexivity|].
  destruct (includes m "ENOTFOUND");
    [repeat split; intros; try discriminate; reflexivity|].
  destruct (includes m "SSL"); [repeat split; intros; try discriminate; reflexivity|].
  destruct (includes m "certificate");
    [repeat split; intros; try discriminate; reflexivity|].
  cbn [orb]. split; [intros _ H; discriminate H|]. intros _ _.
  repeat match goal with
         | |- context [if ?b then _ else _] => destruct b
         end; reflexivity.
Qed.

Lemma validateUrlFormat_error (u : string) (e : Errors.SEOError) :
  Errors.validateUrlFormat u = Some e ->
  Errors.seo_type e = Errors.VALIDATION /\ Errors.seo_retryable e = false.
Proof.
  unfold Errors.validateUrlFormat.
  repeat match goal with
         | |- context [if ?b then _ else _] => destruct b
         end;
    try (intros H; injection H as <-; split; reflexivity); discriminate.
Qed.

(** X9.  A URL that [validateUrlFormat] rejects because it is empty or
    blank, longer than 2048 code units, or does not start with [http://]
    or [https://] is never fetched and never analyzed: [analyzeUrl]
    returns the failed result built from the validation error, whatever
    the network and the analyzers are; the error is of type [validation],
    not retryable, and as a main page it is answered with status 400.
    (The fourth reason, a URL that [new URL] refuses, is left out: it
    depends on the whole grammar of the platform's URL parser.) *)
Theorem url_that_fails_validation_is_never_fetched
        (fetchWithTimeout : string -> Z -> result Error PageResponse)
        (limit : nat) (cfg : SEOConfig) (analyzers : list (string * SEOAnalyzer))
        (u : string) (isMainPage : bool) (timeoutMs : Z) (e : Errors.SEOError) :
  Errors.validateUrlFormat u = Some e ->
  Errors.seo_code e <> Errors.URL_INVALID_FORMAT ->
  analyzeUrl fetchWithTimeout limit cfg analyzers u isMainPage timeoutMs
  = createErrorResult u (Errors.formatErrorResponse e) /\
  Errors.seo_retryable e = false /\
  page_errorType (createErrorResult u (Errors.formatErrorResponse e)) = Some "validation" /\
  statusCode (POST (pageOperation fetchWithTimeout limit cfg analyzers) cfg u) = 400%N.
Proof.
  intros Hvalid _. destruct (validateUrlFormat_error u e Hvalid) as [Ht Hr].
  assert (E : forall m t,
             analyzeUrl fetchWithTimeout limit cfg analyzers u m t
             = createErrorResult u (Errors.formatErrorResponse e))
    by (intros m t; unfold analyzeUrl; rewrite Hvalid; reflexivity).
  split; [apply E|]. split; [exact Hr|]. split.
  - cbn [page_errorType createErrorResult Errors.formatErrorResponse Errors.resp_errorType].
    rewrite Ht. reflexivity.
  - rewrite (POST_failed_page _ cfg u e).
    + cbn [statusCode]. rewrite Ht. reflexivity.
    + rewrite analyzeMainPage_pageOperation. apply E.
Qed.

(** X10.  A page whose body is empty or white space only, or longer (in
    UTF-16 code units, as [html.length] counts) than the page size limit,
    is reported failed with error type [analysis] and code
    [EMPTY_RESPONSE] or [PAGE_TOO_LARGE]; no analyzer is run on it, and
    as a main page it is answered with status 500. *)
Theorem empty_or_oversized_page_is_not_analyzed
        (fetchWithTimeout : string -> Z -> result Error PageResponse)
        (limit : nat) (cfg : SEOConfig) (analyzers : list (string * SEOAnalyzer))
        (u : string) (response : PageResponse) :
  Errors.validateUrlFormat u = None ->
  fetchWithTimeout u (pageTimeout cfg) = Return response ->
  response_ok response = true ->
  let page := analyzePage fetchWithTimeout limit cfg analyzers u true in
  let answer := POST (pageOperation fetchWithTimeout limit cfg analyzers) cfg u in
  (trim (response_text response) = "" ->
   page = createErrorResult u
            (Errors.formatErrorResponse
               (Errors.createSEOError Errors.EMPTY_RESPONSE "Empty server response"
                                      (Some u) None)) /\
   page_errorCode page = Some "EMPTY_RESPONSE" /\
   page_errorType page = Some "analysis" /\
   statusCode answer = 500%N) /\
  (trim (response_text response) <> "" ->
   limit < js_length (response_text response) ->
   page = createErrorResult u
            (Errors.formatErrorResponse
               (Errors.createSEOError Errors.PAGE_TOO_LARGE "Page too large to analyze"
                                      (Some u) None)) /\
   page_errorCode page = Some "PAGE_TOO_LARGE" /\
   page_errorType page = Some "analysis" /\
   statusCode answer = 500%N).
Proof.
  intros Hvalid Hfetch Hok page answer.
  assert (Hpage : page
                  = match performAnalysis fetchWithTimeout limit analyzers u
                                          (pageTimeout cfg) true with
                    | Return r => r
                    | Throw e => createErrorResult u
                                   (Errors.formatErrorResponse
                                      (Errors.createErrorFromException e (Some u)))
                    end).
  { unfold page, analyzePage, analyzeUrl. rewrite Hvalid. reflexivity. }
  unfold performAnalysis in Hpage. rewrite Hfetch in Hpage. unfold rbind in Hpage.
  rewrite Hok in Hpage. cbn [negb] in Hpage.
  split.
  - intros Hempty.
    assert (C : String.eqb (response_text response) ""
                || (String.length (trim (response_text response)) =? 0) = true)
      by (rewrite Hempty; apply orb_true_r).
    rewrite C in Hpage.
    split; [exact Hpage|]. rewrite Hpage. split; [reflexivity|]. split; [reflexivity|].
    unfold answer.
    rewrite (POST_failed_page (pageOperation fetchWithTimeout limit cfg analyzers)
                              cfg u _ Hpage).
    reflexivity.
  - intros Hne Hlarge.
    assert (C1 : String.eqb (response_text response) ""
                 || (String.length (trim (response_text response)) =? 0) = false).
    { apply orb_false_iff. split.
      - apply String.eqb_neq. intros E. apply Hne. rewrite E. reflexivity.
      - apply Nat.eqb_neq. destruct (trim (response_text response));
          [contradiction | discriminate]. }
    assert (C2 : (limit <? js_length (response_text response)) = true)
      by (apply Nat.ltb_lt; exact Hlarge).
    rewrite C1, C2 in Hpage.
    split; [exact Hpage|]. rewrite Hpage. split; [reflexivity|]. split; [reflexivity|].
    unfold answer.
    rewrite (POST_failed_page (pageOperation fetchWithTimeout limit cfg analyzers)
                              cfg u _ Hpage).
    reflexivity.
Qed.

(** X12.  With the orchestrator analyzing the pages, a report holds at most
    one page more than [MAX_INTERNAL_URLS] (the main page and the
    frontier), the score of every page is an integer between 0 and 100,
    and so is the average score of the summary. *)
Theorem report_pages_and_scores_are_bounded
        (fetchWithTimeout : string -> Z -> result Error PageResponse)
        (limit : nat) (cfg : SEOConfig) (analyzers : list (string * SEOAnalyzer))
        (u : string) (report : UnifiedAnalysisResponse) :
  POST (pageOperation fetchWithTimeout limit cfg analyzers) cfg u
  = {| statusCode := 200%N; responseBody := ReportBody report |} ->
  List.length (pages report) <= 1 + MAX_INTERNAL_URLS cfg /\
  Forall (fun page => (0 <= seoScore page <= 100)%Z) (pages report) /\
  (0 <= avgSeoScore (summary report) <= 100)%Z /\
  page_status (mainPage report) = Success /\
  In (mainPage report) (pages report).
Proof.
  set (op := pageOperation fetchWithTimeout limit cfg analyzers).
  unfold POST. set (main := analyzeMainPage op u).
  destruct (page_status main) eqn:Hmain.
  2:{ intros H. injection H as _ H. exfalso. exact (mainErrorBody_not_report _ _ _ H). }
  set (frontier := urlsToAnalyze cfg u main).
  assert (Hpages :
            (if 0 <? List.length frontier
             then processBatches op [main] (batches frontier)
             else [main])
            = main :: map (analyzeInternal op) frontier).
  { destruct frontier as [|x l] eqn:E; [reflexivity|].
    simpl Nat.ltb. cbv iota. rewrite processBatches_app, batches_concat. reflexivity. }
  rewrite Hpages. intros H. injection H as H. subst report.
  cbn [pages summary mainPage].
  assert (Hscores : Forall (fun page => (0 <= seoScore page <= 100)%Z)
                           (main :: map (analyzeInternal op) frontier)).
  { constructor.
    - unfold main, op. rewrite analyzeMainPage_pageOperation.
      apply analyzeUrl_score_range.
    - apply Forall_forall. intros page Hin. apply in_map_iff in Hin.
      destruct Hin as (x & <- & _). unfold op. rewrite analyzeInternal_pageOperation.
      apply analyzeUrl_score_range. }
  split.
  { simpl. rewrite length_map. unfold frontier, urlsToAnalyze. rewrite slice_0.
    pose proof (firstn_le_length (MAX_INTERNAL_URLS cfg)
                  (addDiscoveredUrls main (addSitemapUrls u main []))). lia. }
  split; [exact Hscores|]. split.
  { apply average_between.
    - exists main. split; [left; reflexivity|]. unfold isSuccess. rewrite Hmain. reflexivity.
    - intros r Hr _. rewrite Forall_forall in Hscores. exact (Hscores r Hr). }
  split; [exact Hmain | left; reflexivity].
Qed.

(** ** Retries *)

Lemma attempts_skip {T} (operation : nat -> result Error T) :
  forall (k remaining attempt : nat),
    k <= remaining ->
    (forall j, j < k -> exists e, operation (attempt + j) = Throw e /\
                                  retryable (handle e) = true) ->
    attempts operation attempt remaining
    = attempts operation (attempt + k) (remaining - k).
Proof.
  induction k as [|k IH]; intros remaining attempt Hk Hthrow.
  - rewrite Nat.add_0_r, Nat.sub_0_r. reflexivity.
  - destruct remaining as [|remaining]; [lia|].
    destruct (Hthrow 0 ltac:(lia)) as (e & He & Hr). rewrite Nat.add_0_r in He.
    rewrite attempts_unfold, He, Hr. cbn [negb].
    rewrite (IH remaining (S attempt)); [|lia|].
    + f_equal. lia.
    + intros j Hj. destruct (Hthrow (S j) ltac:(lia)) as (e' & He' & Hr').
      exists e'. split; [|exact Hr']. rewrite <- He'. f_equal. lia.
Qed.

(** X11.  [handleAsync] runs the operation up to [retries + 1] times, one
    attempt after the other.  When the first [k] attempts throw retryable
    errors (network, timeout or rate-limit errors), the outcome is decided
    by attempt [k]: its value if it returns; its error, enhanced, if the
    error is not retryable or if it was the last attempt allowed.  Later
    attempts are not made. *)
Theorem handleAsync_retry_discipline {T} (operation : nat -> result Error T)
        (retries k : nat) :
  k <= retries ->
  (forall j, j < k -> exists e, operation j = Throw e /\ retryable (handle e) = true) ->
  (forall v, operation k = Return v -> handleAsync operation retries = Return v) /\
  (forall e, operation k = Throw e -> retryable (handle e) = false ->
             handleAsync operation retries = Throw (handle e)) /\
  (forall e, operation k = Throw e -> k = retries ->
             handleAsync operation retries = Throw (handle e)).
Proof.
  intros Hk Hthrow. unfold handleAsync.
  rewrite (attempts_skip operation k retries 0 Hk Hthrow). cbn [Nat.add].
  split; [|split].
  - intros v Hv. apply attempts_return. exact Hv.
  - intros e He Hr. rewrite attempts_unfold, He, Hr.
    destruct (retries - k); reflexivity.
  - intros e He ->. rewrite attempts_unfold, He, Nat.sub_diag. reflexivity.
Qed.

(** ** The links analyzer *)

Lemma linkIssues_cases (isMainPage : bool) (internal_ external_ found : nat) :
  In (fst (linkIssues isMainPage internal_ external_ found)) [95; 97; 98; 100]%Z /\
  snd (linkIssues isMainPage internal_ external_ found) <> [].
Proof.
  unfold linkIssues.
  destruct (internal_ + external_ =? 0) eqn:E0.
  - apply Nat.eqb_eq in E0.
    replace (100 <? internal_) with false by (symmetry; apply Nat.ltb_ge; lia).
    cbn [fst snd]. split; [left; reflexivity|].
    destruct (isMainPage && (0 <? found)); discriminate.
  - destruct (internal_ =? 0) eqn:E1.
    + apply Nat.eqb_eq in E1.
      replace (100 <? internal_) with false by (symmetry; apply Nat.ltb_ge; lia).
      cbn [fst snd]. split; [right; left; reflexivity|].
      destruct (isMainPage && (0 <? found)); discriminate.
    + destruct (external_ =? 0), (100 <? internal_); cbn [fst snd];
        (split; [simpl; tauto|]);
        destruct (isMainPage && (0 <? found)); discriminate.
Qed.

(** X13.  Whenever the links analyzer returns, its score is 95, 97, 98 or
    100 and it reports at least one issue, the same list in [issues] and
    in its data; on a page other than the main page it returns no
    internal URL. *)
Theorem links_score_is_95_97_98_or_100 (cfg : SEOConfig) (context : AnalysisContext)
        (r : AnalysisResult) :
  analyze cfg context = Return r ->
  In (score r) [of_Z 95; of_Z 97; of_Z 98; of_Z 100] /\
  issues r <> [] /\
  exists d, data r = Some d /\ data_issues d = Some (issues r) /\
            (ctx_isMainPage context = false -> data_internalUrls d = Some []).
Proof.
  unfold analyze, rbind.
  destruct (new_URL (ctx_url context)) as [u|e]; [|discriminate].
  match goal with
  | |- match ?scan with Return _ => _ | Throw _ => _ end = _ -> _ =>
      destruct scan as [[st internalUrls]|e] eqn:Hscan; [|discriminate]
  end.
  pose proof (linkIssues_cases (ctx_isMainPage context) (internal st) (external st)
                               (List.length internalUrls)) as [Hs Hi].
  destruct (linkIssues (ctx_isMainPage context) (internal st) (external st)
                       (List.length internalUrls)) as [score_ issues_].
  cbn [fst snd] in Hs, Hi.
  intros H. injection H as <-. cbn [score issues data].
  split.
  { simpl in Hs. destruct Hs as [<-|[<-|[<-|[<-|[]]]]]; simpl; tauto. }
  split; [exact Hi|].
  eexists. split; [reflexivity|]. cbn [data_issues data_internalUrls].
  split; [reflexivity|].
  intros Hmain. rewrite Hmain in Hscan.
  destruct (fold_left _ _ _) as [st'|e'] in Hscan; [|discriminate].
  injection Hscan as _ <-. reflexivity.
Qed.

Lemma Map_has_In {V} (k : string) (m : list (string * V)) :
  Map_has k m = false -> ~ In k (map fst m).
Proof.
  unfold Map_has. induction m as [|[k0 v0] m IH]; simpl; [intros _ []|].
  destruct (String.eqb k k0) eqn:E; [discriminate|].
  intros H [H'|H']; [|exact (IH H H')].
  subst k0. rewrite String.eqb_refl in E. discriminate.
Qed.

Lemma Map_set_new {V} (k : string) (v : V) (m : list (string * V)) :
  Map_has k m = false -> Map_set k v m = m ++ [(k, v)].
Proof.
  unfold Map_has. induction m as [|[k0 v0] m IH]; simpl; [reflexivity|].
  destruct (String.eqb k k0) eqn:E; [discriminate|].
  intros H. rewrite (IH H). reflexivity.
Qed.

Lemma In_firstn {A} (n : nat) (l : list A) (x : A) : In x (firstn n l) -> In x l.
Proof.
  intros H. rewrite <- (firstn_skipn n l). apply in_or_app. left. exact H.
Qed.

Lemma dedupStep_keeps (n : string) (found : list string) (m m' : list (string * string))
      (x : string) :
  In x found -> deduplicated n found m ->
  dedupStep n (Return m) x = Return m' -> deduplicated n found m'.
Proof.
  intros Hx [Hnd Hall]. unfold dedupStep, rbind.
  destruct (UrlUtils.normalizeUrl x) as [nx|e] eqn:Hn; [|discriminate].
  destruct (String.eqb nx n) eqn:En.
  { intros H. injection H as <-. split; assumption. }
  destruct (deduplicationKey nx) as [key|e] eqn:Hk; [|discriminate].
  destruct (Map_has key m) eqn:Hh; cbn [negb].
  { intros H. injection H as <-. split; assumption. }
  intros H. injection H as <-. rewrite (Map_set_new _ _ _ Hh). split.
  - rewrite map_app. simpl. apply NoDup_snoc; [exact Hnd | exact (Map_has_In _ _ Hh)].
  - apply Forall_app. split; [exact Hall|]. constructor; [|constructor].
    cbn [fst snd]. split; [exact Hk|]. split.
    + apply String.eqb_neq. exact En.
    + exists x. split; assumption.
Qed.

Lemma dedup_throws (n : string) (l : list string) (e : Error) :
  fold_left (dedupStep n) l (Throw e) = Throw e.
Proof. induction l as [|x l IH]; simpl; [reflexivity | exact IH]. Qed.

Lemma dedup_fold_keeps (n : string) (found : list string) :
  forall (l : list string) (m m' : list (string * string)),
    (forall x, In x l -> In x found) ->
    deduplicated n found m ->
    fold_left (dedupStep n) l (Return m) = Return m' ->
    deduplicated n found m'.
Proof.
  induction l as [|x l IH]; intros m m' Hl Hm H; cbn [fold_left] in H.
  - injection H as <-. exact Hm.
  - destruct (dedupStep n (Return m) x) as [m1|e] eqn:E.
    + apply (IH m1 m'); [intros y Hy; apply Hl; right; exact Hy | | exact H].
      exact (dedupStep_keeps n found m m1 x (Hl x (or_introl eq_refl)) Hm E).
    + rewrite dedup_throws in H. discriminate.
Qed.

(** X14.  The internal URLs returned for the main page are normalized forms
    of collected links; none of them is the normalized URL of the page
    itself, no two of them have the same deduplication key (so no two
    differ only by a trailing slash), and there are at most
    [MAX_INTERNAL_URLS] of them. *)
Theorem internal_urls_have_distinct_keys_and_exclude_the_page
        (cfg : SEOConfig) (pageUrl : string) (found l : list string) :
  finalUrls cfg pageUrl found = Return l ->
  exists normalizedMainUrl keys,
    UrlUtils.normalizeUrl pageUrl = Return normalizedMainUrl /\
    Forall (fun x => x <> normalizedMainUrl /\
                     exists y, In y found /\ UrlUtils.normalizeUrl y = Return x) l /\
    Forall2 (fun x key => deduplicationKey x = Return key) l keys /\
    NoDup keys /\
    List.length l <= MAX_INTERNAL_URLS cfg.
Proof.
  unfold finalUrls, rbind.
  destruct (UrlUtils.normalizeUrl pageUrl) as [n|e]; [|discriminate].
  destruct (fold_left (dedupStep n) found (Return [])) as [m|e] eqn:Hfold; [|discriminate].
  intros H. injection H as <-.
  assert (Hm : deduplicated n found m).
  { apply (dedup_fold_keeps n found found [] m (fun x Hx => Hx)); [|exact Hfold].
    split; constructor. }
  destruct Hm as [Hnd Hall].
  exists n, (firstn (MAX_INTERNAL_URLS cfg) (map fst m)).
  rewrite slice_0. unfold Map_values.
  split; [reflexivity|]. split; [|split; [|split]].
  - apply Forall_forall. intros x Hx. apply In_firstn in Hx.
    apply in_map_iff in Hx. destruct Hx as ([k v] & <- & Hkv).
    rewrite Forall_forall in Hall. destruct (Hall _ Hkv) as (_ & H2 & H3).
    split; assumption.
  - clear Hnd Hfold. revert Hall. generalize (MAX_INTERNAL_URLS cfg) as c.
    induction m as [|[k v] m IH]; intros c Hall.
    + destruct c; constructor.
    + destruct c; [constructor|]. inversion Hall as [|? ? Hkv Hall']; subst.
      simpl. constructor; [exact (proj1 Hkv) | exact (IH c Hall')].
  - apply NoDup_firstn_of. exact Hnd.
  - rewrite length_firstn. lia.
Qed.



(** ** Links whose text starts with [http] *)

Lemma forallb_dropWhile (q p : ascii -> bool) (s : string) :
  forallb_str q s = true -> forallb_str q (dropWhile p s) = true.
Proof.
  induction s as [|c s IH]; simpl; [reflexivity|].
  intros H. apply andb_true_iff in H. destruct H as [Hc Hs].
  destruct (p c); [exact (IH Hs) | simpl; rewrite Hc, Hs; reflexivity].
Qed.

Lemma forallb_dropWhileEnd (q p : ascii -> bool) (s : string) :
  forallb_str q s = true -> forallb_str q (dropWhileEnd p s) = true.
Proof.
  induction s as [|c s IH]; simpl; [reflexivity|].
  intros H. apply andb_true_iff in H. destruct H as [Hc Hs]. specialize (IH Hs).
  destruct (dropWhileEnd p s) as [|d r].
  - destruct (p c); simpl; [reflexivity | rewrite Hc; reflexivity].
  - cbn [forallb_str] in *. rewrite Hc, IH. reflexivity.
Qed.

Lemma forallb_remove_chars (q p : ascii -> bool) (s : string) :
  forallb_str q s = true -> forallb_str q (remove_chars p s) = true.
Proof.
  induction s as [|c s IH]; simpl; [reflexivity|].
  intros H. apply andb_true_iff in H. destruct H as [Hc Hs].
  destruct (p c); [exact (IH Hs) | simpl; rewrite Hc, (IH Hs); reflexivity].
Qed.

Lemma forallb_break_rest (q p : ascii -> bool) (s : string) :
  forallb_str q s = true -> forallb_str q (snd (break_at p s)) = true.
Proof.
  induction s as [|c s IH]; simpl; [reflexivity|].
  intros H. destruct (p c); [exact H|].
  apply andb_true_iff in H. destruct H as [_ Hs]. specialize (IH Hs).
  destruct (break_at p s) as [a b]. exact IH.
Qed.

Lemma parse_needs_a_colon (s : string) : no_colon s = true -> URL.parse s = None.
Proof.
  unfold no_colon. intros H. unfold URL.parse, URL.parse_scheme.
  assert (Hp : forallb_str (fun c => negb (Ascii.eqb c ":")) (URL.preprocess s) = true).
  { unfold URL.preprocess. apply forallb_remove_chars, forallb_dropWhileEnd,
                             forallb_dropWhile, H. }
  pose proof (forallb_break_rest _ (fun c => negb (URL.is_scheme_char c)) _ Hp) as Hr.
  destruct (break_at _ (URL.preprocess s)) as [sch rest]. cbn [snd] in Hr.
  destruct sch as [|c0 sch]; [reflexivity|].
  destruct rest as [|c rest]; [reflexivity|].
  cbn [forallb_str] in Hr. apply andb_true_iff in Hr. destruct Hr as [Hc _].
  destruct c as [[|] [|] [|] [|] [|] [|] [|] [|]]; try reflexivity; discriminate Hc.
Qed.

(** X16.  An anchor whose target starts with [http] but contains no colon
    (a relative link such as [http-guide.html]) is taken for an absolute
    URL.  On the main page it is skipped: it is counted neither as
    internal nor as external and is not collected.  On any other page it
    makes the links analyzer throw. *)
Theorem relative_link_starting_with_http_is_not_counted
        (cfg : SEOConfig) (context : AnalysisContext) (link href : string) :
  hrefOf link = Some href ->
  startsWith href "http" = true ->
  no_colon href = true ->
  (forall pageUrl domain st, visitLink pageUrl domain st link = st) /\
  (ctx_isMainPage context = false ->
   In link (Regex.match_all Regex.anchor_tag (ctx_html context)) ->
   exists e, analyze cfg context = Throw e).
Proof.
  intros Hhref Hhttp Hcolon.
  pose proof (parse_needs_a_colon href Hcolon) as Hparse.
  split.
  - intros pageUrl domain st. unfold visitLink. rewrite Hhref. unfold classify.
    rewrite Hhttp. unfold new_URL. rewrite Hparse.
    destruct (isIgnored href); reflexivity.
  - intros Hmain Hin. unfold analyze, rbind.
    destruct (new_URL (ctx_url context)) as [u|e]; [|eauto]. rewrite Hmain.
    assert (Hstep : forall acc, exists e, countLink (URL.hostname u) acc link = Throw e).
    { intros acc. unfold countLink, rbind. destruct acc as [st|e]; [|eauto].
      rewrite Hhref.
      assert (Hnot : startsWith href "#" || startsWith href "javascript:"
                     || startsWith href "mailto:" = false).
      { unfold startsWith in *.
        destruct href as [|c href]; cbn [String.prefix] in Hhttp; [discriminate Hhttp|].
        destruct (ascii_dec "h" c) as [<-|]; [|discriminate Hhttp].
        reflexivity. }
      rewrite Hnot, Hhttp. unfold new_URL. rewrite Hparse. eauto. }
    assert (Hfold : forall l acc, In link l ->
                      exists e, fold_left (countLink (URL.hostname u)) l acc = Throw e).
    { induction l as [|y l IH]; intros acc Hl; [destruct Hl|]. cbn [fold_left].
      destruct Hl as [->|Hl]; [|exact (IH _ Hl)].
      destruct (Hstep acc) as [e He]. rewrite He.
      clear. induction l as [|z l IH]; simpl; eauto. }
    destruct (Hfold _ (Return start) Hin) as [e He]. rewrite He. eauto.
Qed.

(** ** Entries of a sitemap *)

Lemma extractBlock_entry (P : Platform) (block u : string) (lm : option string) :
  extractBlock P block = Some (u, lm) ->
  trim u = u /\
  forall d, lm = Some d -> isValidISO8601 P d = true /\ trim d = d.
Proof.
  unfold extractBlock.
  destruct (before "</url>" block) as [urlContent|]; [|discriminate].
  destruct (Regex.find_first (Regex.element "loc") urlContent) as [[loc rest]|];
    [|discriminate].
  intros H. injection H as <- <-. split; [apply trim_idempotent|].
  intros d.
  destruct (Regex.find_first (Regex.element "lastmod") urlContent) as [[lastMod rest']|];
    [|discriminate].
  destruct (isValidISO8601 P (trim lastMod)) eqn:E; [|discriminate].
  intros H. injection H as <-. split; [exact E | apply trim_idempotent].
Qed.

Lemma documentEntries_entry (P : Platform) (options : SitemapAnalysisOptions)
      (content : string) :
  Forall (entry_is_clean P) (documentEntries P options content).
Proof.
  unfold documentEntries, entry_is_clean. apply Forall_forall. intros e He.
  destruct (includes content "<urlset").
  - apply in_map_iff in He. destruct He as ([u lm] & <- & Hin). cbn [url lastModified fst snd].
    unfold extractUrlsFromXML in Hin. apply in_flat_map in Hin.
    destruct Hin as (block & _ & Hin).
    destruct (extractBlock P block) as [[u' lm']|] eqn:E; [|destruct Hin].
    destruct Hin as [H|[]]. injection H as -> ->.
    exact (extractBlock_entry P block u lm E).
  - apply in_map_iff in He. destruct He as (line & <- & _). cbn [url lastModified].
    split; [apply trim_idempotent | discriminate].
Qed.

(** A property of the entries of every document that holds under options
    kept by the recursive calls holds of every entry of a result. *)
Lemma analyzeSitemap_entries (P : Platform) (good : SitemapAnalysisOptions -> Prop)
      (Q : SitemapUrl -> Prop) :
  (forall options t, good options -> good (childOptions options t)) ->
  (forall options content, good options -> Forall Q (documentEntries P options content)) ->
  forall depth baseUrl robotsSitemap options r,
    good options ->
    analyzeSitemap depth P baseUrl robotsSitemap options = Some (Return r) ->
    Forall Q (urls r).
Proof.
  intros Hchild Hdoc.
  induction depth as [|depth IH]; intros baseUrl robotsSitemap options r Hgood H;
    [discriminate H|].
  rewrite analyzeSitemap_unfold in H.
  destruct (sitemapUrls baseUrl robotsSitemap) as [candidates|e]; [|discriminate H].
  match type of H with
  | option_map _ ?t = _ => destruct t as [r'|] eqn:Htry; [|discriminate H]
  end.
  injection H as ->.
  destruct (tryCandidates_result _ _ _ _ _ _ Htry) as [->|(content & compressed & Hr)];
    [constructor|].
  destruct (includes content "<sitemapindex") eqn:Hindex.
  - destruct (analyzeContent_index _ _ _ _ _ _ Hindex Hr) as [Hurls _].
    rewrite Hurls. apply Forall_forall. intros e He. apply in_flat_map in He.
    destruct He as (c & _ & He). unfold childUrls in He.
    match type of He with
    | In _ (match ?call with _ => _ end) =>
        destruct call as [[rc|ec]|] eqn:Hc; try destruct He
    end.
    pose proof (IH c None _ rc (Hchild _ _ Hgood) Hc) as Hall.
    rewrite Forall_forall in Hall. exact (Hall e He).
  - destruct (analyzeContent_document P
                (fun c => analyzeSitemap depth P c None
                            (childOptions options
                                          (or_default (childTimeout options) 10000%Z)))
                options content compressed Hindex) as (r0 & Hr0 & Hurls & _).
    rewrite Hr in Hr0. injection Hr0 as <-. rewrite Hurls.
    apply Forall_forall. intros e He. apply In_firstn in He.
    pose proof (Hdoc options content Hgood) as Hall.
    rewrite Forall_forall in Hall. exact (Hall e He).
Qed.

(** X17.  Every entry that sitemap discovery returns, from the document
    itself or from a child sitemap at any nesting depth, has a URL without
    leading or trailing white space, and its [lastModified], when present,
    is a trimmed date that passed [isValidISO8601]; a [lastmod] that does
    not pass is dropped while its URL is kept. *)
Theorem returned_entries_are_trimmed_with_valid_lastmod
        (P : Platform) (depth : nat) (baseUrl : string) (robotsSitemap : option string)
        (options : SitemapAnalysisOptions) (r : SitemapAnalysis) :
  analyzeSitemap depth P baseUrl robotsSitemap options = Some (Return r) ->
  Forall (entry_is_clean P) (urls r).
Proof.
  apply (analyzeSitemap_entries P (fun _ => True) (entry_is_clean P)).
  - intros; exact I.
  - intros o content _. apply documentEntries_entry.
  - exact I.
Qed.

(** ** The result record *)

Lemma analyzeContent_shape (P : Platform)
      (child : string -> option (result Error SitemapAnalysis))
      (options : SitemapAnalysisOptions) (content : string) (compressed : bool)
      (r : SitemapAnalysis) :
  analyzeContent P child options content compressed = Some r ->
  exists_ r = true /\ accessible r = true /\ isCompressed r = compressed /\
  totalUrls r = List.length (urls r) /\ lowValueUrls r = countLowValue (urls r).
Proof.
  unfold analyzeContent. cbv zeta.
  destruct (includes content "<urlset" || includes content "<sitemapindex").
  - destruct (includes content "<sitemapindex").
    + match goal with
      | |- context [childLoop ?c ?cs ?a ?i] => destruct (childLoop c cs a i) as [[us is_]|]
      end; [|discriminate].
      intros H. injection H as <-. repeat split.
    + intros H. injection H as <-. repeat split.
  - intros H. injection H as <-. repeat split.
Qed.

Lemma countLowValue_le (l : list SitemapUrl) : countLowValue l <= List.length l.
Proof. unfold countLowValue. apply filter_length_le. Qed.

Lemma countLowValue_none (l : list SitemapUrl) :
  Forall (fun e => isLowValue e = false) l -> countLowValue l = 0.
Proof.
  unfold countLowValue. induction 1 as [|e l He _ IH]; [reflexivity|].
  cbn [filter]. rewrite He. exact IH.
Qed.

Lemma analyzeSitemap_shape (P : Platform) (depth : nat) (baseUrl : string)
      (robotsSitemap : option string) (options : SitemapAnalysisOptions)
      (r : SitemapAnalysis) :
  analyzeSitemap depth P baseUrl robotsSitemap options = Some (Return r) ->
  r = notFound \/
  (exists_ r = true /\ accessible r = true /\
   totalUrls r = List.length (urls r) /\ lowValueUrls r = countLowValue (urls r)).
Proof.
  destruct depth as [|depth]; [discriminate|].
  rewrite analyzeSitemap_unfold.
  destruct (sitemapUrls baseUrl robotsSitemap) as [candidates|e]; [|discriminate].
  match goal with
  | |- option_map _ ?t = _ -> _ => destruct t as [r'|] eqn:Htry; [|discriminate]
  end.
  intros H. injection H as ->.
  destruct (tryCandidates_result _ _ _ _ _ _ Htry) as [->|(content & compressed & Hr)];
    [left; reflexivity | right].
  destruct (analyzeContent_shape _ _ _ _ _ _ Hr) as (H1 & H2 & _ & H4 & H5).
  repeat split; assumption.
Qed.

(** X18.  The number of low-value URLs that a sitemap analysis reports is
    the number of returned entries flagged [isLowValue], so it never
    exceeds [totalUrls].  With the option [detectLowValue: false] no entry
    is flagged, at any nesting depth of a sitemap index (the option is
    handed down to the child sitemaps), and the reported number is 0. *)
Theorem low_value_count_matches_the_flags_and_can_be_switched_off
        (P : Platform) (depth : nat) (baseUrl : string) (robotsSitemap : option string)
        (options : SitemapAnalysisOptions) (r : SitemapAnalysis) :
  analyzeSitemap depth P baseUrl robotsSitemap options = Some (Return r) ->
  lowValueUrls r = List.length (filter isLowValue (urls r)) /\
  lowValueUrls r <= totalUrls r /\
  (detectLowValue options = Some false ->
   Forall (fun e => isLowValue e = false) (urls r) /\ lowValueUrls r = 0).
Proof.
  intros H.
  assert (Hshape : totalUrls r = List.length (urls r) /\
                   lowValueUrls r = countLowValue (urls r)).
  { destruct (analyzeSitemap_shape _ _ _ _ _ _ H) as [->|(_ & _ & H3 & H4)];
      [split; reflexivity | split; assumption]. }
  destruct Hshape as [Ht Hl]. split; [exact Hl|]. split.
  - rewrite Hl, Ht. apply countLowValue_le.
  - intros Hoff.
    assert (Hall : Forall (fun e => isLowValue e = false) (urls r)).
    { refine (analyzeSitemap_entries P (fun o => detectLowValue o = Some false)
                                     (fun e => isLowValue e = false)
                                     _ _ depth baseUrl robotsSitemap options r Hoff H);
        [intros o t Ho; exact Ho|].
      intros o content Ho. unfold documentEntries. rewrite Ho. cbn [or_default].
      destruct (includes content "<urlset"); apply Forall_forall; intros e He;
        apply in_map_iff in He; destruct He as (x & <- & _); reflexivity. }
    split; [exact Hall|]. rewrite Hl. apply countLowValue_none. exact Hall.
Qed.

(** ** Candidates *)




(** ** The prefixes that [normalizeUrl] drops *)

Lemma strip_written_prefix (s : string) :
  UrlUtils.strip_user_prefix (trim ("http://" +++ s)) = trimEnd s /\
  UrlUtils.strip_user_prefix (trim ("https://" +++ s)) = trimEnd s /\
  UrlUtils.strip_user_prefix (trim ("www." +++ s)) = trimEnd s.
Proof.
  unfold trim. cbn [String.append].
  repeat split;
    rewrite trimStart_lead by reflexivity;
    repeat (rewrite trimEnd_lead by reflexivity); reflexivity.
Qed.

(** X20.  [normalizeUrl] drops a written [http://], [https://] or leading
    [www.] before it parses the text and puts [https://] in front: the
    three spellings of the same rest are normalized alike, whatever the
    rest is (they give the same URL or fail with the same error).  So a
    URL written with [http://] is normalized to [https], and a leading
    [www.] is lost only when no scheme is written before it. *)
Theorem written_scheme_or_www_prefix_is_replaced_by_https (s : string) :
  UrlUtils.normalizeUrl ("http://" +++ s) = UrlUtils.normalizeUrl ("https://" +++ s) /\
  UrlUtils.normalizeUrl ("www." +++ s) = UrlUtils.normalizeUrl ("https://" +++ s).
Proof.
  destruct (strip_written_prefix s) as (H1 & H2 & H3).
  unfold UrlUtils.normalizeUrl. rewrite H1, H2, H3. split; reflexivity.
Qed.

(** X21.  On the text of a well-formed [http] or [https] URL,
    [normalizeUrl] returns an [https] URL with the same host, path, query
    and fragment (a written port 443 is dropped, an empty path becomes
    [/]), and normalizing that result again returns it unchanged. *)
Theorem normalizeUrl_gives_https_and_is_stable_on_its_result
        (sch host : string) (port : option N) (segs : list string) (q f : option string) :
  sch = "http" \/ sch = "https" ->
  well_formed host port segs q f ->
  let normalized := URL.href (URL.mk "https" host (canon_port port) (canon_path segs) q f) in
  UrlUtils.normalizeUrl (URL.href (URL.mk sch host port segs q f)) = Return normalized /\
  startsWith normalized "https://" = true /\
  UrlUtils.normalizeUrl normalized = Return normalized.
Proof.
  intros Hsch Hwf normalized. split; [|split].
  - exact (normalizeUrl_text sch host port segs q f Hsch Hwf).
  - unfold normalized. rewrite href_text.
    apply (prefix_append "https://").
  - unfold normalized.
    rewrite (normalizeUrl_text "https" host (canon_port port) (canon_path segs) q f
                               (or_intror eq_refl) (well_formed_canonical _ _ _ _ _ Hwf)).
    rewrite canon_port_idempotent, canon_path_idempotent. reflexivity.
Qed.

(** ** The directives of a robots.txt *)

Lemma startsWith_exclusive (s p q : string) (a b : ascii) :
  a <> b ->
  startsWith s (String a p) = true -> startsWith s (String b q) = false.
Proof.
  intros Hab. unfold startsWith. destruct s as [|c s]; [discriminate|].
  cbn [String.prefix].
  destruct (ascii_dec a c) as [<-|]; [|discriminate].
  destruct (ascii_dec b a) as [->|]; [contradiction | reflexivity].
Qed.

Lemma directive_flags (st : Directives) (line : string) :
  hasDisallowAll (directive st line)
  = hasDisallowAll st || isRootRule "disallow:" line /\
  hasAllowAll (directive st line)
  = hasAllowAll st || isRootRule "allow:" line.
Proof.
  unfold directive, isRootRule.
  destruct (startsWith (toLowerCase line) "user-agent:") eqn:E1.
  { rewrite (startsWith_exclusive _ _ "isallow:" "u" "d" ltac:(discriminate) E1).
    rewrite (startsWith_exclusive _ _ "llow:" "u" "a" ltac:(discriminate) E1).
    cbn. rewrite !orb_false_r. split; reflexivity. }
  destruct (startsWith (toLowerCase line) "sitemap:") eqn:E2.
  { rewrite (startsWith_exclusive _ _ "isallow:" "s" "d" ltac:(discriminate) E2).
    rewrite (startsWith_exclusive _ _ "llow:" "s" "a" ltac:(discriminate) E2).
    cbn. rewrite !orb_false_r. split; reflexivity. }
  destruct (startsWith (toLowerCase line) "disallow:") eqn:E3.
  { rewrite (startsWith_exclusive _ _ "llow:" "d" "a" ltac:(discriminate) E3).
    cbn. rewrite !orb_false_r.
    destruct (isRoot (valueAfterColon line)), (hasDisallowAll st); split; reflexivity. }
  destruct (startsWith (toLowerCase line) "allow:") eqn:E4; cbn.
  - rewrite orb_false_r.
    destruct (isRoot (valueAfterColon line)), (hasAllowAll st); split; reflexivity.
  - rewrite !orb_false_r. split; reflexivity.
Qed.

Lemma fold_directive_flags (lines : list string) :
  forall st,
    hasDisallowAll (fold_left directive lines st)
    = hasDisallowAll st || existsb (isRootRule "disallow:") lines /\
    hasAllowAll (fold_left directive lines st)
    = hasAllowAll st || existsb (isRootRule "allow:") lines.
Proof.
  induction lines as [|line lines IH]; intros st; cbn [fold_left existsb].
  - rewrite !orb_false_r. split; reflexivity.
  - destruct (IH (directive st line)) as [H1 H2].
    destruct (directive_flags st line) as [F1 F2].
    rewrite H1, H2, F1, F2, !orb_assoc. split; reflexivity.
Qed.

Lemma In_snoc {A} (x y : A) (l : list A) : In x (l ++ [y]) <-> In x l \/ x = y.
Proof.
  rewrite in_app_iff. cbn [In]. intuition congruence.
Qed.

(** X22.  [blockAll] is set as soon as any line of the file is a
    [Disallow] with the value [/], whichever [User-agent] group the line
    stands in and wherever it stands, and [allowAll] as soon as any line is
    an [Allow] with the value [/] (directive names in any letter case,
    comment lines and blank lines skipped).  The high-priority error
    "Robots.txt bloquea todo el sitio" is reported exactly when [blockAll]
    is set and [allowAll] is not. *)
Theorem disallow_root_under_any_user_agent_sets_blockAll (content : string) :
  let r := parseRobots content in
  blockAll r = existsb (isRootRule "disallow:") (robotsLines content) /\
  allowAll r = existsb (isRootRule "allow:") (robotsLines content) /\
  (In blocksAllIssue (robots_issues r) <-> blockAll r = true /\ allowAll r = false).
Proof.
  intros r. unfold r, parseRobots. cbv zeta. cbn [blockAll allowAll robots_issues].
  destruct (fold_directive_flags (robotsLines content) noDirectives) as [H1 H2].
  cbn [hasDisallowAll hasAllowAll noDirectives orb] in H1, H2.
  split; [exact H1|]. split; [exact H2|].
  set (st := fold_left directive (robotsLines content) noDirectives).
  destruct (hasDisallowAll st), (hasAllowAll st); cbn [andb negb];
    destruct (String.length content =? 0);
    destruct (noSitemap (seenSitemap st));
    destruct (List.length (seenUserAgents st) =? 0);
    cbn [List.length Nat.eqb app In];
    (split; [intros H; repeat destruct H as [H|H]; try discriminate H; try contradiction;
             split; reflexivity
            | intros [Ha Hb]; try discriminate Ha; try discriminate Hb; tauto]).
Qed.

(** ** What the loop collects *)

Lemma directive_collects (st : Directives) (line : string) :
  NoDup (seenUserAgents st) /\
  Forall (fun a => a <> "" /\ trim a = a) (seenUserAgents st) /\
  (forall s, seenSitemap st = Some s -> trim s = s) ->
  NoDup (seenUserAgents (directive st line)) /\
  Forall (fun a => a <> "" /\ trim a = a) (seenUserAgents (directive st line)) /\
  (forall s, seenSitemap (directive st line) = Some s -> trim s = s).
Proof.
  intros (Hnd & Hall & Hs). unfold directive.
  destruct (startsWith (toLowerCase line) "user-agent:").
  { cbn [seenUserAgents seenSitemap].
    set (agent := match valueAfterColon line with
                  | Some (String _ _ as agent) => agent
                  | _ => "*"
                  end).
    assert (Hagent : agent <> "" /\ trim agent = agent).
    { unfold agent, valueAfterColon.
      destruct (nth_error (split_char URL.is_colon line) 1) as [p|];
        cbn [option_map]; [|split; [discriminate | reflexivity]].
      destruct (trim p) as [|c t] eqn:E; [split; [discriminate | reflexivity]|].
      split; [discriminate|]. rewrite <- E. apply trim_idempotent. }
    destruct (Set_add_spec agent (seenUserAgents st)) as [[_ ->]|[Hnot ->]].
    - repeat split; assumption.
    - split; [apply NoDup_snoc; assumption|]. split; [|exact Hs].
      apply Forall_app. split; [exact Hall | constructor; [exact Hagent | constructor]]. }
  destruct (startsWith (toLowerCase line) "sitemap:").
  { cbn [seenUserAgents seenSitemap]. split; [exact Hnd|]. split; [exact Hall|].
    intros s H. injection H as <-. apply trim_idempotent. }
  destruct (startsWith (toLowerCase line) "disallow:");
    [cbn [seenUserAgents seenSitemap]; repeat split; assumption|].
  destruct (startsWith (toLowerCase line) "allow:");
    cbn [seenUserAgents seenSitemap]; repeat split; assumption.
Qed.

Lemma fold_directive_collects (lines : list string) :
  forall st,
    NoDup (seenUserAgents st) /\
    Forall (fun a => a <> "" /\ trim a = a) (seenUserAgents st) /\
    (forall s, seenSitemap st = Some s -> trim s = s) ->
    NoDup (seenUserAgents (fold_left directive lines st)) /\
    Forall (fun a => a <> "" /\ trim a = a) (seenUserAgents (fold_left directive lines st)) /\
    (forall s, seenSitemap (fold_left directive lines st) = Some s -> trim s = s).
Proof.
  induction lines as [|line lines IH]; intros st H; cbn [fold_left]; [exact H|].
  apply IH. apply directive_collects. exact H.
Qed.

(** X23.  Of a robots.txt that was fetched, whatever its text: the user
    agents are reported without repetition, each one a non-empty trimmed
    name ([*] where a [User-agent] line names none); the sitemap that is
    reported is trimmed; the list of issues is never empty; and the success
    issue is reported only alone, exactly when the text is not empty, names
    a sitemap and a user agent, and no [Disallow: /] stands without an
    [Allow: /]. *)
Theorem robots_report_is_well_formed (content : string) :
  let r := parseRobots content in
  NoDup (userAgents r) /\
  Forall (fun a => a <> "" /\ trim a = a) (userAgents r) /\
  (forall s, robots_sitemap r = Some s -> trim s = s) /\
  robots_issues r <> [] /\
  (In successIssue (robots_issues r) <-> robots_issues r = [successIssue]) /\
  (robots_issues r = [successIssue] <->
   content <> "" /\ (blockAll r = true -> allowAll r = true) /\
   sitemapHint r <> None /\ userAgents r <> []).
Proof.
  intros r. unfold r, parseRobots, sitemapHint. cbv zeta.
  cbn [blockAll allowAll robots_issues userAgents robots_sitemap].
  destruct (fold_directive_collects (robotsLines content) noDirectives) as (H1 & H2 & H3).
  { cbn. repeat split; [constructor | constructor | discriminate]. }
  split; [exact H1|]. split; [exact H2|]. split; [exact H3|].
  set (st := fold_left directive (robotsLines content) noDirectives).
  assert (Hc : (String.length content =? 0) = true <-> content = "").
  { rewrite Nat.eqb_eq. destruct content; cbn; split; intros; congruence. }
  assert (Hu : (List.length (seenUserAgents st) =? 0) = true <-> seenUserAgents st = []).
  { rewrite Nat.eqb_eq. destruct (seenUserAgents st); cbn; split; intros; congruence. }
  assert (Hn : noSitemap (seenSitemap st) = false <->
               match seenSitemap st with
               | Some (String _ _ as s) => Some s
               | _ => None
               end <> None).
  { unfold noSitemap. destruct (seenSitemap st) as [[|c s]|]; split; congruence. }
  destruct (String.length content =? 0) eqn:Ec;
    destruct (hasDisallowAll st), (hasAllowAll st); cbn [andb negb];
    destruct (noSitemap (seenSitemap st)) eqn:En;
    destruct (List.length (seenUserAgents st) =? 0) eqn:Eu;
    cbn [List.length Nat.eqb app In];
    (split; [discriminate|]);
    (split;
     [split; [intros H; repeat destruct H as [H|H]; try discriminate H; try contradiction;
              reflexivity
             | intros H; try discriminate H; left; reflexivity]
     |split;
      [intros H; try discriminate H;
       repeat split; try tauto; try discriminate;
       try (intros E; apply Hc in E; discriminate E);
       try (apply Hn; reflexivity);
       try (intros E; apply Hu in E; discriminate E)
      |intros (A & B & C & D);
       try reflexivity;
       try (exfalso; apply A; apply Hc; reflexivity);
       try (exfalso; apply D; apply Hu; reflexivity);
       try (apply Hn in C; discriminate C);
       try (specialize (B eq_refl); discriminate B)]]).
Qed.

(** ** The hint from robots.txt *)




(** ** The store of the rate limiter *)

Lemma Map_set_keys {V} (k : string) (v : V) (m : list (string * V)) :
  NoDup (map fst m) -> NoDup (map fst (Map_set k v m)).
Proof.
  intros H. destruct (Map_has k m) eqn:E.
  - assert (G : map fst (Map_set k v m) = map fst m); [|rewrite G; exact H].
    clear H. unfold Map_has in E. induction m as [|[k0 v0] m IH]; [discriminate E|].
    cbn [Map_get Map_set] in *. destruct (String.eqb k k0) eqn:E0.
    + apply String.eqb_eq in E0. subst k0. reflexivity.
    + cbn [map fst]. rewrite (IH E). reflexivity.
  - rewrite (Map_set_new k v m E), map_app. cbn [map fst].
    apply NoDup_snoc; [exact H | apply Map_has_In; exact E].
Qed.

Lemma requestsOf_set (store : list (string * RateLimitEntry)) (key k : string)
      (entry : RateLimitEntry) :
  requestsOf (Map_set key entry store) k
  = if String.eqb k key then requests entry else requestsOf store k.
Proof.
  unfold requestsOf. rewrite Map_get_set. destruct (String.eqb k key); reflexivity.
Qed.

Lemma isAllowed_spec (config : RateLimitConfig) (store : list (string * RateLimitEntry))
      (request : Request) (now : Z) :
  let key := getKey config request in
  let inWindow := filter (fun t => (now - windowMs config <? t)%Z) (requestsOf store key) in
  let answer := fst (isAllowed config store request now) in
  let store' := snd (isAllowed config store request now) in
  allowed answer = (Z.of_nat (List.length inWindow) <? maxRequests config)%Z /\
  (allowed answer = false -> retryAfter answer = Some (retryAfterOf config now inWindow)) /\
  (forall k, requestsOf store' k
             = if String.eqb k key
               then (if allowed answer then inWindow ++ [now] else inWindow)
               else requestsOf store k) /\
  (NoDup (map fst store) -> NoDup (map fst store')).
Proof.
  intros key inWindow answer store'. unfold answer, store', isAllowed.
  fold key. unfold inWindow, requestsOf.
  destruct (Map_get key store) as [entry|]; cbn [requests blocked];
    set (l := filter (fun t => (now - windowMs config <? t)%Z) _);
    destruct (maxRequests config <=? Z.of_nat (List.length l))%Z eqn:E;
    rewrite ?andb_true_r, ?andb_false_r; cbn [andb];
    try destruct (blocked entry); cbn [fst snd allowed retryAfter denied];
    (split; [symmetry; first [apply Z.ltb_ge; apply Z.leb_le; exact E
                             |apply Z.ltb_lt; apply Z.leb_gt; exact E]|]);
    (split; [intros H; first [reflexivity | discriminate H]|]);
    (split; [intros k; apply (requestsOf_set store key k) | apply Map_set_keys]).
Qed.

Lemma cleanup_keys (config : RateLimitConfig) (now : Z)
      (store : list (string * RateLimitEntry)) (k : string) :
  In k (map fst (cleanup config now store)) -> In k (map fst store).
Proof.
  unfold cleanup. induction store as [|[k0 e0] store IH]; [intros []|].
  cbn [map filter fst snd requests].
  match goal with |- context [negb ?b] => destruct (negb b) end; cbn [map fst In]; tauto.
Qed.

Lemma cleanup_NoDup (config : RateLimitConfig) (now : Z)
      (store : list (string * RateLimitEntry)) :
  NoDup (map fst store) -> NoDup (map fst (cleanup config now store)).
Proof.
  induction store as [|[k0 e0] store IH]; [intros _; constructor|].
  cbn [map fst]. intros H. inversion H as [|? ? Hnot Hnd]; subst.
  assert (G : cleanup config now ((k0, e0) :: store)
              = (if negb (List.length (filter (fun t => (now - windowMs config <? t)%Z)
                                              (requests e0)) =? 0)
                 then [(k0, {| requests := filter (fun t => (now - windowMs config <? t)%Z)
                                                  (requests e0);
                               blocked := blocked e0 |})]
                 else []) ++ cleanup config now store).
  { unfold cleanup. cbn [map filter fst snd requests].
    match goal with |- context [negb ?b] => destruct (negb b) end; reflexivity. }
  rewrite G.
  match goal with |- context [negb ?b] => destruct (negb b) end; cbn [app map fst].
  - constructor; [|exact (IH Hnd)]. intros Hin. apply Hnot.
    exact (cleanup_keys config now store k0 Hin).
  - exact (IH Hnd).
Qed.

Lemma Map_get_absent {V} (k : string) (m : list (string * V)) :
  ~ In k (map fst m) -> Map_get k m = None.
Proof.
  induction m as [|[k0 v0] m IH]; [reflexivity|]. cbn [map fst In Map_get].
  intros H. destruct (String.eqb k k0) eqn:E.
  - apply String.eqb_eq in E. subst k0. exfalso. apply H. left. reflexivity.
  - apply IH. intros Hin. apply H. right. exact Hin.
Qed.

Lemma requestsOf_cleanup (config : RateLimitConfig) (now : Z)
      (store : list (string * RateLimitEntry)) (k : string) :
  NoDup (map fst store) ->
  requestsOf (cleanup config now store) k
  = filter (fun t => (now - windowMs config <? t)%Z) (requestsOf store k).
Proof.
  unfold requestsOf.
  induction store as [|[k0 e0] store IH]; [reflexivity|].
  cbn [map fst]. intros H. inversion H as [|? ? Hnot Hnd]; subst.
  unfold cleanup. cbn [map filter fst snd requests Map_get].
  fold (cleanup config now store).
  set (l := filter (fun t => (now - windowMs config <? t)%Z) (requests e0)).
  destruct (String.eqb k k0) eqn:E.
  - apply String.eqb_eq in E. subst k0.
    destruct (List.length l =? 0) eqn:El; cbn [negb].
    + rewrite Map_get_absent.
      * apply Nat.eqb_eq in El. apply length_zero_iff_nil in El.
        cbn [requests]. fold l. symmetry. exact El.
      * intros Hin. apply Hnot. exact (cleanup_keys config now store k Hin).
    + cbn [Map_get]. rewrite String.eqb_refl. reflexivity.
  - destruct (List.length l =? 0); cbn [negb Map_get]; rewrite ?E; exact (IH Hnd).
Qed.

(** ** The log of the requests let through *)

Lemma filter_weaker {A} (p q : A -> bool) (l : list A) :
  (forall x, p x = true -> q x = true) ->
  filter p (filter q l) = filter p l.
Proof.
  intros H. induction l as [|x l IH]; [reflexivity|]. cbn [filter].
  destruct (q x) eqn:Eq; cbn [filter].
  - rewrite IH. reflexivity.
  - destruct (p x) eqn:Ep; [rewrite (H x Ep) in Eq; discriminate | exact IH].
Qed.

Lemma filter_later (a b : Z) (l : list Z) :
  (a <= b)%Z ->
  filter (fun t => (b <? t)%Z) (filter (fun t => (a <? t)%Z) l)
  = filter (fun t => (b <? t)%Z) l.
Proof.
  intros H. apply filter_weaker. intros x Hx.
  apply Z.ltb_lt in Hx. apply Z.ltb_lt. lia.
Qed.

Lemma letThrough_snoc (key k : string) (since now : Z) (log : list (string * Z)) :
  letThrough k since (log ++ [(key, now)])
  = letThrough k since log
      ++ (if String.eqb key k && (since <? now)%Z then [now] else []).
Proof.
  unfold letThrough. rewrite filter_app, map_app, filter_app. f_equal.
  cbn [filter fst]. destruct (String.eqb key k); cbn [map snd filter andb]; [|reflexivity].
  destruct (since <? now)%Z; reflexivity.
Qed.

Lemma last_default {A} (a d d' : A) (l : list A) :
  List.last (a :: l) d = List.last (a :: l) d'.
Proof.
  revert a. induction l as [|y l IH]; intros a; [reflexivity|].
  change (List.last (y :: l) d = List.last (y :: l) d'). apply IH.
Qed.

Lemma last_cons {A} (x d : A) (l : list A) : List.last (x :: l) d = List.last l x.
Proof.
  destruct l as [|y l]; [reflexivity|].
  change (List.last (y :: l) d = List.last (y :: l) x). apply last_default.
Qed.

(** The store agrees with the log on every time stamp that a later call
    can still see. *)
Lemma run_agrees (config : RateLimitConfig) (events : list (Z * Event)) :
  forall store log last,
    NoDup (map fst store) ->
    (forall k t, (last <= t)%Z ->
                 filter (fun x => (t - windowMs config <? x)%Z) (requestsOf store k)
                 = letThrough k (t - windowMs config) log) ->
    clock_ok last (map fst events) ->
    let st := fold_left (step config) events (store, log) in
    NoDup (map fst (fst st)) /\
    forall k t, (List.last (map fst events) last <= t)%Z ->
                filter (fun x => (t - windowMs config <? x)%Z) (requestsOf (fst st) k)
                = letThrough k (t - windowMs config) (snd st).
Proof.
  induction events as [|[now ev] events IH]; intros store log last Hnd Hagree Hclock.
  - cbn. split; [exact Hnd | exact Hagree].
  - cbn [map fst clock_ok] in Hclock. destruct Hclock as [Hle Hclock].
    cbn [fold_left].
    cbn [map fst]. rewrite last_cons.
    set (st1 := step config (store, log) (now, ev)).
    assert (H1 : NoDup (map fst (fst st1)) /\
                 forall k t, (now <= t)%Z ->
                             filter (fun x => (t - windowMs config <? x)%Z)
                                    (requestsOf (fst st1) k)
                             = letThrough k (t - windowMs config) (snd st1)).
    { unfold st1, step. cbn [fst snd]. destruct ev as [request|].
      - destruct (isAllowed_spec config store request now) as (Hall & _ & Hreq & Hkeys).
        cbv zeta in Hall, Hreq, Hkeys.
        destruct (isAllowed config store request now) as [answer store'].
        cbn [fst snd] in *. split; [exact (Hkeys Hnd)|].
        intros k t Ht. rewrite Hreq.
        destruct (String.eqb k (getKey config request)) eqn:Ek.
        + apply String.eqb_eq in Ek. subst k.
          destruct (allowed answer).
          * rewrite letThrough_snoc, String.eqb_refl, filter_app, filter_later by lia.
            rewrite (Hagree _ t) by lia. cbn [andb filter]. reflexivity.
          * rewrite filter_later by lia. apply Hagree. lia.
        + destruct (allowed answer).
          * rewrite letThrough_snoc. rewrite String.eqb_sym, Ek. cbn [andb].
            rewrite app_nil_r. apply Hagree. lia.
          * apply Hagree. lia.
      - cbn [fst snd]. split; [apply cleanup_NoDup; exact Hnd|].
        intros k t Ht. rewrite requestsOf_cleanup by exact Hnd.
        rewrite filter_later by lia. apply Hagree. lia. }
    destruct st1 as [store1 log1]. cbn [fst snd] in H1. destruct H1 as [H1 H2].
    exact (IH store1 log1 now H1 H2 Hclock).
Qed.

Lemma clock_ok_app (last : Z) (times : list Z) (now : Z) :
  clock_ok last (times ++ [now]) ->
  clock_ok last times /\ (List.last times last <= now)%Z.
Proof.
  revert last. induction times as [|t times IH]; intros last; cbn [app clock_ok].
  - intros [H _]. split; [exact I | exact H].
  - intros [H1 H2]. destruct (IH t H2) as [H3 H4]. split; [split; assumption|].
    rewrite last_cons. exact H4.
Qed.

(** X25.  The rate limiter is a sliding window over the requests it let
    through: with a clock that does not go back, a new limiter that has
    seen any sequence of checks and timer cleanups lets a request through
    exactly when fewer than [maxRequests] requests with the same key were
    let through during the last [windowMs] milliseconds (requests that
    were refused do not count, nor do requests with another key). *)
Theorem rate_limiter_is_a_sliding_window
        (config : RateLimitConfig) (events : list (Z * Event))
        (request : Request) (now start : Z) :
  clock_ok start (map fst events ++ [now]) ->
  let store := fst (run config events) in
  let log := snd (run config events) in
  allowed (fst (isAllowed config store request now))
  = (Z.of_nat (List.length (letThrough (getKey config request)
                                       (now - windowMs config) log))
     <? maxRequests config)%Z.
Proof.
  intros Hclock store log.
  destruct (clock_ok_app _ _ _ Hclock) as [Hc Hnow].
  destruct (run_agrees config events [] [] start) as [_ Hagree];
    [constructor | intros k t _; reflexivity | exact Hc|].
  destruct (isAllowed_spec config store request now) as (Hall & _).
  cbv zeta in Hall. rewrite Hall. unfold store, log, run.
  rewrite (Hagree (getKey config request) now Hnow). reflexivity.
Qed.

(** ** Retry-After *)

Lemma fold_min_spec (r : list Z) :
  forall t, In (fold_left Z.min r t) (t :: r) /\
            Forall (fun x => (fold_left Z.min r t <= x)%Z) (t :: r).
Proof.
  induction r as [|y r IH]; intros t; cbn [fold_left].
  - split; [left; reflexivity | constructor; [lia | constructor]].
  - destruct (IH (Z.min t y)) as [Hin Hall]. split.
    + destruct Hin as [H|H]; [|right; right; exact H].
      rewrite <- H. destruct (Z.min_spec t y) as [[_ ->]|[_ ->]];
        [left; reflexivity | right; left; reflexivity].
    + inversion Hall as [|? ? Hm Hr]; subst.
      constructor; [lia|]. constructor; [lia | exact Hr].
Qed.

Lemma Math_ceil_thousandth (x : Z) :
  let s := Math_ceil (inject_Z x / inject_Z 1000) in
  (1000 * (s - 1) < x <= 1000 * s)%Z.
Proof.
  assert (E : Math_ceil (inject_Z x / inject_Z 1000) = (- (- x / 1000))%Z).
  { unfold Math_ceil, Qceiling, Qdiv, Qmult, Qinv, inject_Z, Qopp, Qfloor.
    cbn [Qnum Qden]. rewrite Z.mul_1_r. reflexivity. }
  cbv zeta. rewrite E.
  pose proof (Z.div_mod (- x) 1000 ltac:(lia)) as H.
  pose proof (Z.mod_pos_bound (- x) 1000 ltac:(lia)) as B.
  lia.
Qed.

Lemma filter_length_lt {A} (p : A -> bool) (l : list A) (x : A) :
  In x l -> p x = false -> List.length (filter p l) < List.length l.
Proof.
  induction l as [|y l IH]; [intros []|]. cbn [In filter List.length].
  intros [->|Hin] Hx.
  - rewrite Hx. pose proof (filter_length_le p l). lia.
  - destruct (p y); cbn [List.length]; specialize (IH Hin Hx); lia.
Qed.

Lemma filter_all {A} (p : A -> bool) (l : list A) :
  Forall (fun x => p x = true) l -> filter p l = l.
Proof.
  induction 1 as [|x l Hx _ IH]; [reflexivity|]. cbn [filter]. rewrite Hx, IH. reflexivity.
Qed.

Lemma Forall_filter {A} (P : A -> Prop) (p : A -> bool) (l : list A) :
  Forall P l -> Forall P (filter p l).
Proof.
  intros H. apply Forall_forall. intros x Hx. apply filter_In in Hx.
  rewrite Forall_forall in H. apply H. tauto.
Qed.

(** The store never holds a time stamp from the future, nor more time
    stamps for a key than requests are let through in a window. *)
Lemma run_bounded (config : RateLimitConfig) (events : list (Z * Event)) :
  forall store log last,
    NoDup (map fst store) ->
    (forall k, Forall (fun t => (t <= last)%Z) (requestsOf store k) /\
               (Z.of_nat (List.length (requestsOf store k))
                <= Z.max 0 (maxRequests config))%Z) ->
    clock_ok last (map fst events) ->
    forall k,
      Forall (fun t => (t <= List.last (map fst events) last)%Z)
             (requestsOf (fst (fold_left (step config) events (store, log))) k) /\
      (Z.of_nat (List.length
                   (requestsOf (fst (fold_left (step config) events (store, log))) k))
       <= Z.max 0 (maxRequests config))%Z.
Proof.
  induction events as [|[now ev] events IH]; intros store log last Hnd Hb Hclock.
  - exact Hb.
  - cbn [map fst clock_ok] in Hclock. destruct Hclock as [Hle Hclock].
    cbn [fold_left]. cbn [map fst]. rewrite last_cons.
    set (st1 := step config (store, log) (now, ev)).
    assert (H1 : NoDup (map fst (fst st1)) /\
                 forall k, Forall (fun t => (t <= now)%Z) (requestsOf (fst st1) k) /\
                           (Z.of_nat (List.length (requestsOf (fst st1) k))
                            <= Z.max 0 (maxRequests config))%Z).
    { assert (Hf : forall k,
                 Forall (fun t => (t <= now)%Z)
                        (filter (fun t => (now - windowMs config <? t)%Z)
                                (requestsOf store k)) /\
                 (Z.of_nat (List.length (filter (fun t => (now - windowMs config <? t)%Z)
                                                (requestsOf store k)))
                  <= Z.max 0 (maxRequests config))%Z).
      { intros k. destruct (Hb k) as [Ha Hl]. split.
        - apply Forall_filter. revert Ha. apply Forall_impl. intros; lia.
        - pose proof (filter_length_le (fun t => (now - windowMs config <? t)%Z)
                                       (requestsOf store k)). lia. }
      unfold st1, step. cbn [fst snd]. destruct ev as [request|].
      - destruct (isAllowed_spec config store request now) as (Hall & _ & Hreq & Hkeys).
        cbv zeta in Hall, Hreq, Hkeys.
        destruct (isAllowed config store request now) as [answer store'].
        cbn [fst snd] in *. split; [exact (Hkeys Hnd)|].
        intros k. rewrite Hreq.
        destruct (String.eqb k (getKey config request)) eqn:Ek.
        + destruct (Hf (getKey config request)) as [Ha Hl].
          destruct (allowed answer).
          * symmetry in Hall. apply Z.ltb_lt in Hall. split.
            -- apply Forall_app. split; [exact Ha | constructor; [lia | constructor]].
            -- rewrite length_app. cbn [List.length]. lia.
          * split; assumption.
        + destruct (Hb k) as [Ha Hl]. split; [|exact Hl].
          revert Ha. apply Forall_impl. intros; lia.
      - cbn [fst snd]. split; [apply cleanup_NoDup; exact Hnd|].
        intros k. rewrite requestsOf_cleanup by exact Hnd. apply Hf. }
    destruct st1 as [store1 log1]. cbn [fst snd] in H1. destruct H1 as [H1 H2].
    exact (IH store1 log1 now H1 H2 Hclock).
Qed.

(** X26.  The [retryAfter] that a refused request is given is honest, for
    a limiter that lets at least one request through per window and a
    clock that does not go back: it is a number of seconds, at least one
    and at most the length of the window rounded up; the same client asking
    again after that many seconds is let through; asking again a full
    second or more before that, it is refused again. *)
Theorem refused_request_is_let_through_after_retryAfter
        (config : RateLimitConfig) (events : list (Z * Event))
        (request : Request) (now start : Z) :
  clock_ok start (map fst events ++ [now]) ->
  (1 <= maxRequests config)%Z ->
  let refusal := isAllowed config (fst (run config events)) request now in
  allowed (fst refusal) = false ->
  exists seconds,
    retryAfter (fst refusal) = Some (Fin seconds) /\
    (1 <= seconds)%Z /\ (1000 * (seconds - 1) < windowMs config)%Z /\
    allowed (fst (isAllowed config (snd refusal) request (now + 1000 * seconds))) = true /\
    forall again,
      (now <= again <= now + 1000 * (seconds - 1))%Z ->
      allowed (fst (isAllowed config (snd refusal) request again)) = false.
Proof.
  intros Hclock Hmax refusal Hrefused.
  destruct (clock_ok_app _ _ _ Hclock) as [Hc Hnow].
  pose proof (run_bounded config events [] [] start (NoDup_nil _)) as Hb.
  specialize (Hb ltac:(intros k; split; [constructor | cbn; lia]) Hc
                 (getKey config request)).
  fold (run config events) in Hb. destruct Hb as [Hpast Hlen].
  destruct (isAllowed_spec config (fst (run config events)) request now)
    as (Hall & Hretry & Hreq & _).
  cbv zeta in Hall, Hretry, Hreq. fold refusal in Hall, Hretry, Hreq.
  set (key := getKey config request) in *.
  remember (filter (fun t => (now - windowMs config <? t)%Z)
                   (requestsOf (fst (run config events)) key)) as inWindow eqn:Ew.
  rewrite Hrefused in Hall. symmetry in Hall. apply Z.ltb_ge in Hall.
  assert (Hstored : requestsOf (snd refusal) key = inWindow).
  { rewrite Hreq. unfold key. rewrite String.eqb_refl, Hrefused. reflexivity. }
  assert (Hcount : Z.of_nat (List.length inWindow) = maxRequests config).
  { pose proof (filter_length_le (fun t => (now - windowMs config <? t)%Z)
                                 (requestsOf (fst (run config events)) key)) as Hle.
    rewrite <- Ew in Hle. lia. }
  destruct inWindow as [|t0 r]; [cbn in Hcount; lia|].
  destruct (fold_min_spec r t0) as [Hin Hleast].
  set (oldest := fold_left Z.min r t0) in *.
  assert (Hold : (now - windowMs config < oldest <= now)%Z).
  { assert (Hin' : In oldest (filter (fun t => (now - windowMs config <? t)%Z)
                                     (requestsOf (fst (run config events)) key)))
      by (rewrite <- Ew; exact Hin).
    apply filter_In in Hin'. destruct Hin' as [Hin' Hgt]. apply Z.ltb_lt in Hgt.
    rewrite Forall_forall in Hpast. specialize (Hpast _ Hin'). lia. }
  pose proof (Math_ceil_thousandth (oldest + windowMs config - now)) as Hceil.
  cbv zeta in Hceil.
  set (seconds := Math_ceil (inject_Z (oldest + windowMs config - now) / inject_Z 1000))
    in *.
  exists seconds. split; [|split; [lia|split; [lia|split]]].
  - rewrite (Hretry Hrefused). unfold retryAfterOf. cbn [Math_min_all]. reflexivity.
  - destruct (isAllowed_spec config (snd refusal) request (now + 1000 * seconds))
      as (Hagain & _).
    cbv zeta in Hagain. rewrite Hagain. fold key. rewrite Hstored.
    apply Z.ltb_lt.
    pose proof (filter_length_lt
                  (fun t => (now + 1000 * seconds - windowMs config <? t)%Z)
                  (t0 :: r) oldest Hin ltac:(apply Z.ltb_ge; lia)) as Hlt.
    lia.
  - intros again Hagain.
    destruct (isAllowed_spec config (snd refusal) request again) as (Hsecond & _).
    cbv zeta in Hsecond. rewrite Hsecond. fold key. rewrite Hstored.
    rewrite filter_all; [apply Z.ltb_ge; lia|].
    revert Hleast. apply Forall_impl. intros x Hx. apply Z.ltb_lt. lia.
Qed.

(** ** The walk over the heading levels *)

Lemma visit_later (w : Walk) (level : nat) :
  index w <> 0 -> score_ w = 0%Z ->
  let w' := visit w level in
  index w' <> 0 /\ score_ w' = 0%Z /\
  currentMaxLevel w' = Nat.max (currentMaxLevel w) level /\
  (violations w' = [] <-> violations w = [] /\ (level <=? currentMaxLevel w + 1) = true).
Proof.
  intros Hi Hs. unfold visit. apply Nat.eqb_neq in Hi. rewrite Hi.
  cbn [index score_ currentMaxLevel violations].
  split; [discriminate|]. split; [|split].
  - destruct (currentMaxLevel w + 1 <? level) eqn:E; [|exact Hs].
    apply Nat.ltb_lt in E. rewrite Hs. lia.
  - destruct (currentMaxLevel w <? level) eqn:E;
      [apply Nat.ltb_lt in E | apply Nat.ltb_ge in E]; lia.
  - destruct (currentMaxLevel w + 1 <? level) eqn:E.
    + apply Nat.ltb_lt in E. split.
      * intros H. destruct (violations w); discriminate H.
      * intros [_ H]. apply Nat.leb_le in H. lia.
    + apply Nat.ltb_ge in E. split; [intros H; split; [exact H|] | tauto].
      apply Nat.leb_le. exact E.
Qed.

Lemma walk_later (levels : list nat) :
  forall w,
    index w <> 0 -> score_ w = 0%Z ->
    score_ (fold_left visit levels w) = 0%Z /\
    (violations (fold_left visit levels w) = [] <->
     violations w = [] /\ descends (currentMaxLevel w) levels = true).
Proof.
  induction levels as [|level levels IH]; intros w Hi Hs; cbn [fold_left descends].
  - split; [exact Hs | tauto].
  - destruct (visit_later w level Hi Hs) as (Hi' & Hs' & Hm & Hv).
    destruct (IH (visit w level) Hi' Hs') as [Hscore Hviol].
    split; [exact Hscore|]. rewrite Hviol, Hv, Hm, andb_true_iff. tauto.
Qed.

Lemma walk_spec (headingSequence : list nat) :
  let w := fold_left visit headingSequence
                     {| index := 0; score_ := Z.max 0 0;
                        currentMaxLevel := 0; violations := [] |} in
  score_ w = 0%Z /\
  (headingSequence <> [] ->
   (violations w = [] <-> sequential headingSequence = true)).
Proof.
  destruct headingSequence as [|first rest]; [split; [reflexivity | congruence]|].
  cbn [fold_left sequential].
  set (w1 := visit _ first).
  assert (H1 : index w1 <> 0 /\ score_ w1 = 0%Z /\ currentMaxLevel w1 = first /\
               (violations w1 = [] <-> (first =? 1) = true)).
  { unfold w1, visit. cbn [index Nat.eqb score_ violations app].
    destruct (first =? 1); cbn [negb index score_ currentMaxLevel violations].
    - repeat split; discriminate.
    - repeat split; discriminate. }
  destruct H1 as (Hi & Hs & Hm & Hv).
  destruct (walk_later rest w1 Hi Hs) as [Hscore Hviol].
  split; [exact Hscore|]. intros _.
  rewrite Hviol, Hv, Hm, andb_true_iff. tauto.
Qed.

(** ** A level is reached through the level above it *)

Lemma includesLevel_app (a b : list nat) (x : nat) :
  includesLevel (a ++ b) x = includesLevel a x || includesLevel b x.
Proof. unfold includesLevel. apply existsb_app. Qed.

Lemma descends_reaches (rest : list nat) :
  forall deepest before x,
    descends deepest rest = true ->
    (forall y, 1 <= y <= deepest -> includesLevel before y = true) ->
    2 <= x ->
    match beforeFirst x rest with
    | Some b => includesLevel (before ++ b) (x - 1) = true
    | None => True
    end.
Proof.
  induction rest as [|level rest IH]; intros deepest before x Hd Hall Hx; [exact I|].
  cbn [descends] in Hd. apply andb_true_iff in Hd. destruct Hd as [Hle Hd].
  apply Nat.leb_le in Hle. cbn [beforeFirst].
  destruct (level =? x) eqn:E.
  - apply Nat.eqb_eq in E. subst level. rewrite app_nil_r. apply Hall. lia.
  - specialize (IH (Nat.max deepest level) (before ++ [level]) x Hd).
    destruct (beforeFirst x rest) as [b|]; [|exact I]. cbn [option_map].
    rewrite <- app_assoc in IH. apply IH; [|exact Hx].
    intros y Hy. rewrite includesLevel_app.
    destruct (Nat.le_gt_cases y deepest) as [Hin|Hout].
    + rewrite Hall by lia. reflexivity.
    + assert (y = level) by lia. subst y. unfold includesLevel at 2. cbn [existsb].
      rewrite Nat.eqb_refl. apply orb_true_r.
Qed.

Lemma sequential_reaches (headingSequence : list nat) (x : nat) :
  sequential headingSequence = true -> 2 <= x ->
  appearsWithout x (x - 1) headingSequence = false.
Proof.
  destruct headingSequence as [|first rest]; [discriminate|]. cbn [sequential].
  intros H Hx. apply andb_true_iff in H. destruct H as [H1 Hd].
  apply Nat.eqb_eq in H1. subst first.
  unfold appearsWithout. cbn [beforeFirst].
  destruct (1 =? x) eqn:E; [apply Nat.eqb_eq in E; lia|].
  pose proof (descends_reaches rest 1 [1] x Hd) as Hr.
  destruct (beforeFirst x rest) as [b|]; [|reflexivity]. cbn [option_map].
  change (1 :: b) with ([1] ++ b).
  rewrite (Hr ltac:(intros y Hy; assert (y = 1) by lia; subst y; reflexivity) Hx).
  reflexivity.
Qed.

(** X27.  Whatever headings a page has, [validateHeadingHierarchy]
    returns the hierarchy score 0: the score starts at 0 and every penalty
    is cut off at 0, so a broken heading order adds issues but never
    changes a score.  The success issue is reported exactly for two or
    more headings that start with H1 and never skip a level on the way
    down, and then it is the only issue. *)
Theorem heading_hierarchy_score_is_always_zero (headingSequence : list nat) :
  let h := hierarchyOf headingSequence in
  hierarchyScore h = 0%Z /\
  (In hierarchySuccess (hierarchyIssues h) <->
   sequential headingSequence = true /\ 1 < List.length headingSequence) /\
  (In hierarchySuccess (hierarchyIssues h) -> hierarchyIssues h = [hierarchySuccess]).
Proof.
  intros h. unfold h, hierarchyOf.
  destruct headingSequence as [|first rest];
    [cbn; split; [reflexivity | split; [split; [intros [] | intros [H _]; discriminate H]
                                       | intros []]]|].
  set (l := first :: rest). change (List.length l =? 0) with false. cbv iota.
  destruct (walk_spec l) as [Hscore Hviol]. cbv zeta in Hscore, Hviol.
  specialize (Hviol ltac:(discriminate)).
  set (w := fold_left visit l _) in *.
  assert (Hwarn : forall v, ~ In hierarchySuccess (map violationIssue v)).
  { intros v Hin. apply in_map_iff in Hin. destruct Hin as (x & Hx & _). discriminate Hx. }
  rewrite Hscore.
  destruct (violations w) as [|v vs] eqn:Ev.
  - assert (Hseq : sequential l = true) by (apply Hviol; reflexivity).
    pose proof (sequential_reaches l 2 Hseq (le_n 2)) as H21.
    pose proof (sequential_reaches l 3 Hseq ltac:(lia)) as H32.
    change (2 - 1) with 1 in H21. change (3 - 1) with 2 in H32.
    rewrite H21, H32.
    cbn [map List.length Nat.eqb andb app].
    destruct (1 <? List.length l) eqn:El; cbn [hierarchyScore hierarchyIssues].
    + apply Nat.ltb_lt in El. split; [reflexivity|]. split; [|reflexivity].
      split; [intros _; split; assumption | intros _; left; reflexivity].
    + apply Nat.ltb_ge in El. split; [reflexivity|]. split; [|intros []].
      split; [intros [] | intros [_ H]; lia].
  - assert (Hseq : sequential l <> true).
    { intros H. apply Hviol in H. discriminate H. }
    cbn [List.length Nat.eqb andb].
    assert (Hno : forall extra,
               Forall (fun i => i <> hierarchySuccess) extra ->
               ~ In hierarchySuccess (map violationIssue (v :: vs) ++ extra)).
    { intros extra Hex Hin. apply in_app_or in Hin. destruct Hin as [Hin|Hin].
      - exact (Hwarn _ Hin).
      - rewrite Forall_forall in Hex. exact (Hex _ Hin eq_refl). }
    destruct (appearsWithout 2 1 l), (appearsWithout 3 2 l);
      cbn [hierarchyScore hierarchyIssues];
      (split; [lia|]);
      rewrite <- ?app_assoc;
      (split; [split; [intros Hin; exfalso | intros [H _]; contradiction]
              | intros Hin; exfalso]);
      try (apply (Hno [h2BeforeH1; h3WithoutH2]); [repeat constructor; discriminate|];
           exact Hin);
      try (apply (Hno [h2BeforeH1]); [repeat constructor; discriminate|]; exact Hin);
      try (apply (Hno [h3WithoutH2]); [repeat constructor; discriminate|]; exact Hin);
      try (apply (Hno []); [constructor|]; rewrite app_nil_r; exact Hin).
Qed.

(** ** Which errors are retried *)

(** X28.  [shouldRetryError] on the error that [createHttpError] makes of
    an HTTP status: while attempts are left, every status is retried
    except 401, 403 and 404 (so 400 and 410 are retried, like 500, 502 and
    503); once [attemptCount] has reached [maxRetries], none is.  An error
    returned by [validateUrlFormat] is never retried. *)
Theorem http_failure_is_retried_unless_401_403_404
        (statusCode : N) (u : string) (attemptCount maxRetries : Z) :
  Retry.shouldRetryError (Errors.createHttpError statusCode u) attemptCount maxRetries
  = (attemptCount <? maxRetries)%Z && negb (existsb (N.eqb statusCode) [401; 403; 404]%N) /\
  forall e, Errors.validateUrlFormat u = Some e ->
            Retry.shouldRetryError e attemptCount maxRetries = false.
Proof.
  split.
  - unfold Retry.shouldRetryError, Errors.createHttpError.
    rewrite (Z.leb_antisym attemptCount maxRetries). cbv zeta.
    cbn [existsb].
    destruct (N.eqb_spec statusCode 404) as [->|H404];
      [destruct (attemptCount <? maxRetries)%Z; reflexivity|].
    destruct (N.eqb_spec statusCode 403) as [->|H403];
      [destruct (attemptCount <? maxRetries)%Z; reflexivity|].
    destruct (N.eqb_spec statusCode 500) as [->|H500];
      [destruct (attemptCount <? maxRetries)%Z; reflexivity|].
    destruct (N.eqb_spec statusCode 502) as [->|H502];
      [destruct (attemptCount <? maxRetries)%Z; reflexivity|].
    destruct (N.eqb_spec statusCode 503) as [->|H503];
      [destruct (attemptCount <? maxRetries)%Z; reflexivity|].
    cbn [Errors.createSEOError Errors.ERROR_DEFINITIONS Errors.seo_retryable
         Errors.seo_type Errors.seo_httpStatus negb orb existsb].
    destruct (N.eqb_spec statusCode 401) as [->|H401];
      [destruct (attemptCount <? maxRetries)%Z; reflexivity|].
    rewrite (proj2 (N.eqb_neq statusCode 404) H404),
      (proj2 (N.eqb_neq statusCode 403) H403).
    destruct (attemptCount <? maxRetries)%Z; cbn [negb andb orb]; [|reflexivity].
    destruct (statusCode =? 0)%N; reflexivity.
  - intros e He. destruct (validateUrlFormat_error u e He) as [Ht Hr].
    unfold Retry.shouldRetryError. rewrite Hr. reflexivity.
Qed.

Import Cases.

(* ===================================================================== *)
(** * The properties on concrete sites, pages and requests *)
(* ===================================================================== *)

(** Two analyzers at 100 and one that throws: the overall score lies
    between 0 and 100. *)
Lemma overall_score_stays_within_integer_bounds_of_the_scores_witness :
  (0 <= overallScore (combineAnalysisResults (runAnalyzers threeAnalyzers okContext)
                                             okContext) <= 100)%Z.
Proof.
  apply (overall_score_stays_within_integer_bounds_of_the_scores
           (runAnalyzers threeAnalyzers okContext) okContext 0 100).
  - exists "description", (11 # 100)%Q. eexists.
    split; [vm_compute; tauto|]. split; [vm_compute; reflexivity | reflexivity].
  - intros name w r Hin Hget Hvalid.
    apply Map_get_in_values in Hget.
    vm_compute in Hget.
    destruct Hget as [<-|[<-|[<-|[]]]]; vm_compute; split; discriminate.
Defined.

(** Two results of the title analyzer with the same score and different
    issues. *)
Lemma overall_score_depends_only_on_weighted_scores_witness :
  overallScore (combineAnalysisResults [("title", titleResult [])] okContext)
  = overallScore (combineAnalysisResults
                    [("title", titleResult [createSuccessIssue "ok"])] partnerContext).
Proof.
  apply (overall_score_depends_only_on_weighted_scores
           [("title", titleResult [])]
           [("title", titleResult [createSuccessIssue "ok"])] okContext partnerContext).
  intros name w _. cbn. destruct (String.eqb name "title"); reflexivity.
Defined.

(** Three pages at 80: the average is 80. *)
Lemma summary_average_lies_between_the_page_scores_witness :
  (80 <= avgSeoScore (summarize [successAt "a"; failedAt "b"; successAt "c"]) <= 80)%Z.
Proof.
  apply (summary_average_lies_between_the_page_scores
           [successAt "a"; failedAt "b"; successAt "c"] 80 80).
  - exists (successAt "a"). split; [left; reflexivity | reflexivity].
  - intros r [<-|[<-|[<-|[]]]] H; cbn; try lia. discriminate H.
Defined.

(** A failed page between two successful ones. *)
Lemma failed_page_only_changes_the_page_counts_witness :
  summarize ([successAt "a"] ++ failedAt "b" :: [successAt "c"])
  = {| totalPages := 3; successfulPages := 2; failedPages := 1; avgSeoScore := 80;
       criticalIssues := 0; warningIssues := 0; successIssues := 0;
       cachedResults := 0 |}.
Proof.
  rewrite (failed_page_only_changes_the_page_counts
             [successAt "a"] [successAt "c"] (failedAt "b") eq_refl).
  vm_compute. reflexivity.
Defined.

(** The site on which every page answers 404. *)
Lemma non_ok_main_page_is_answered_with_502_witness :
  exists failure,
    POST (pageOperation fetch404 PAGE_SIZE_LIMIT CONFIG_default linksOnly)
         CONFIG_default rootUrl
    = {| statusCode := 502%N; responseBody := FailedPageBody failure |} /\
    page_status failure = Failed /\
    page_url failure = rootUrl /\
    page_errorType failure = Some "network" /\
    page_httpStatus failure = Some 404%N.
Proof.
  apply (non_ok_main_page_is_answered_with_502
           fetch404 PAGE_SIZE_LIMIT CONFIG_default linksOnly rootUrl
           {| response_status := 404; response_text := "Not Found";
              response_loadTime := 30 |});
    vm_compute; reflexivity.
Defined.

(** The site on which every request fails in the network. *)
Lemma fetch_exception_decides_the_status_by_its_message_witness :
  statusCode (POST (pageOperation fetchFails PAGE_SIZE_LIMIT CONFIG_default linksOnly)
                   CONFIG_default rootUrl) = 502%N.
Proof.
  destruct (fetch_exception_decides_the_status_by_its_message
              fetchFails PAGE_SIZE_LIMIT CONFIG_default linksOnly rootUrl
              (new_Error "fetch failed"))
    as (_ & _ & H & _); [vm_compute; reflexivity | reflexivity|].
  apply H; vm_compute; reflexivity.
Defined.

(** A URL without a scheme. *)
Lemma url_that_fails_validation_is_never_fetched_witness :
  statusCode (POST (pageOperation fetchSite PAGE_SIZE_LIMIT CONFIG_default linksOnly)
                   CONFIG_default "example.com") = 400%N.
Proof.
  destruct (url_that_fails_validation_is_never_fetched
              fetchSite PAGE_SIZE_LIMIT CONFIG_default linksOnly "example.com" true 9000%Z
              (Errors.createSEOError Errors.URL_PROTOCOL_MISSING
                 "URL must include protocol (http:// or https://)" None None))
    as (_ & _ & _ & H); [vm_compute; reflexivity | discriminate | exact H].
Defined.

(** The site that answers with a blank body. *)
Lemma empty_or_oversized_page_is_not_analyzed_witness :
  page_errorCode (analyzePage fetchBlank PAGE_SIZE_LIMIT CONFIG_default linksOnly
                              rootUrl true)
  = Some "EMPTY_RESPONSE" /\
  statusCode (POST (pageOperation fetchBlank PAGE_SIZE_LIMIT CONFIG_default linksOnly)
                   CONFIG_default rootUrl) = 500%N.
Proof.
  destruct (empty_or_oversized_page_is_not_analyzed
              fetchBlank PAGE_SIZE_LIMIT CONFIG_default linksOnly rootUrl blankResponse)
    as [H _]; [vm_compute; reflexivity | reflexivity | reflexivity|].
  destruct (H eq_refl) as (_ & H1 & _ & H2). split; assumption.
Defined.

(** An operation that fails once in the network and then returns. *)
Lemma handleAsync_retry_discipline_witness :
  handleAsync flaky 2 = Return 7.
Proof.
  destruct (handleAsync_retry_discipline flaky 2 1) as (H & _).
  - lia.
  - intros j Hj. assert (j = 0) by lia. subst j.
    exists (new_Error "fetch failed"). split; reflexivity.
  - apply H. reflexivity.
Defined.

(** The site whose main page links to two pages. *)
Lemma report_pages_and_scores_are_bounded_witness :
  exists report,
    POST (pageOperation fetchSite PAGE_SIZE_LIMIT CONFIG_default linksOnly)
         CONFIG_default rootUrl
    = {| statusCode := 200%N; responseBody := ReportBody report |} /\
    List.length (pages report) <= 1 + MAX_INTERNAL_URLS CONFIG_default /\
    Forall (fun page => (0 <= seoScore page <= 100)%Z) (pages report).
Proof.
  eexists. split; [vm_compute; reflexivity|].
  match goal with
  | |- List.length (pages ?r) <= _ /\ _ =>
      destruct (report_pages_and_scores_are_bounded
                  fetchSite PAGE_SIZE_LIMIT CONFIG_default linksOnly rootUrl r)
        as (H1 & H2 & _); [vm_compute; reflexivity | split; assumption]
  end.
Defined.

(** The main page with one link to a partner. *)
Lemma links_score_is_95_97_98_or_100_witness :
  exists r,
    analyze CONFIG_default partnerContext = Return r /\
    In (score r) [of_Z 95; of_Z 97; of_Z 98; of_Z 100] /\ issues r <> [].
Proof.
  eexists. split; [vm_compute; reflexivity|].
  match goal with
  | |- In (score ?r) _ /\ _ =>
      destruct (links_score_is_95_97_98_or_100 CONFIG_default partnerContext r)
        as (H1 & H2 & _); [vm_compute; reflexivity | split; assumption]
  end.
Defined.

(** Three links, two of them to the same page. *)
Lemma internal_urls_have_distinct_keys_and_exclude_the_page_witness :
  exists l,
    finalUrls CONFIG_default rootUrl
              ["https://example.com/a"; "https://example.com/a/"; "https://example.com/"]
    = Return l /\
    exists normalizedMainUrl keys,
      UrlUtils.normalizeUrl rootUrl = Return normalizedMainUrl /\
      Forall (fun x => x <> normalizedMainUrl /\
                       exists y, In y ["https://example.com/a"; "https://example.com/a/";
                                       "https://example.com/"] /\
                                 UrlUtils.normalizeUrl y = Return x) l /\
      Forall2 (fun x key => deduplicationKey x = Return key) l keys /\
      NoDup keys /\
      List.length l <= MAX_INTERNAL_URLS CONFIG_default.
Proof.
  eexists. split; [vm_compute; reflexivity|].
  apply (internal_urls_have_distinct_keys_and_exclude_the_page CONFIG_default rootUrl).
  vm_compute. reflexivity.
Defined.


(** An inner page with the relative link [http-guide]. *)
Lemma relative_link_starting_with_http_is_not_counted_witness :
  (forall pageUrl domain st, visitLink pageUrl domain st guideLink = st) /\
  exists e, analyze CONFIG_default guideContext = Throw e.
Proof.
  destruct (relative_link_starting_with_http_is_not_counted
              CONFIG_default guideContext guideLink "http-guide")
    as [H1 H2]; [vm_compute; reflexivity | reflexivity | reflexivity|].
  split; [exact H1|]. apply H2; [reflexivity|]. vm_compute. left. reflexivity.
Defined.

(** The sitemap index with two children. *)
Lemma returned_entries_are_trimmed_with_valid_lastmod_witness :
  exists r,
    analyzeSitemap 3 twoChildren rootUrl None no_options = Some (Return r) /\
    List.length (urls r) = 4 /\
    Forall (entry_is_clean twoChildren) (urls r).
Proof.
  eexists. split; [vm_compute; reflexivity|]. split; [reflexivity|].
  apply (returned_entries_are_trimmed_with_valid_lastmod
           twoChildren 3 rootUrl None no_options).
  vm_compute. reflexivity.
Defined.

Lemma low_value_count_matches_the_flags_and_can_be_switched_off_witness :
  exists r,
    analyzeSitemap 3 twoChildren rootUrl None no_options = Some (Return r) /\
    lowValueUrls r = List.length (filter isLowValue (urls r)) /\
    lowValueUrls r <= totalUrls r.
Proof.
  eexists. split; [vm_compute; reflexivity|].
  match goal with
  | |- lowValueUrls ?r = _ /\ _ =>
      destruct (low_value_count_matches_the_flags_and_can_be_switched_off
                  twoChildren 3 rootUrl None no_options r)
        as (H1 & H2 & _); [vm_compute; reflexivity | split; assumption]
  end.
Defined.


(** A URL written with [http] and the port 443. *)
Lemma normalizeUrl_gives_https_and_is_stable_on_its_result_witness :
  UrlUtils.normalizeUrl "http://example.com:443/blog/post?page=2"
  = Return "https://example.com/blog/post?page=2" /\
  UrlUtils.normalizeUrl "https://example.com/blog/post?page=2"
  = Return "https://example.com/blog/post?page=2".
Proof.
  assert (Hwf : well_formed "example.com" (Some 443%N) ["blog"; "post"]
                            (Some "page=2") None).
  { repeat split; try reflexivity; try (vm_compute; lia).
    - vm_compute. discriminate.
    - repeat constructor. }
  destruct (normalizeUrl_gives_https_and_is_stable_on_its_result
              "http" "example.com" (Some 443%N) ["blog"; "post"] (Some "page=2") None
              (or_introl eq_refl) Hwf)
    as (H1 & _ & H2).
  split; [exact H1 | exact H2].
Defined.


(** Two requests of one client within two seconds, then a third and a
    request of another client. *)
Lemma rate_limiter_is_a_sliding_window_witness :
  allowed (fst (isAllowed twoPerMinute (fst (run twoPerMinute burst))
                          (client "203.0.113.7") 4000)) = false /\
  allowed (fst (isAllowed twoPerMinute (fst (run twoPerMinute burst))
                          (client "198.51.100.2") 4000)) = true.
Proof.
  split.
  - rewrite (rate_limiter_is_a_sliding_window
               twoPerMinute burst (client "203.0.113.7") 4000 0);
      [reflexivity | cbn; lia].
  - rewrite (rate_limiter_is_a_sliding_window
               twoPerMinute burst (client "198.51.100.2") 4000 0);
      [reflexivity | cbn; lia].
Defined.

Lemma refused_request_is_let_through_after_retryAfter_witness :
  exists seconds,
    retryAfter (fst (isAllowed twoPerMinute (fst (run twoPerMinute burst))
                               (client "203.0.113.7") 4000)) = Some (Fin seconds) /\
    (1 <= seconds)%Z /\ (1000 * (seconds - 1) < 60000)%Z.
Proof.
  destruct (refused_request_is_let_through_after_retryAfter
              twoPerMinute burst (client "203.0.113.7") 4000 0)
    as (seconds & H1 & H2 & H3 & _); [cbn; lia | cbn; lia | reflexivity|].
  exists seconds. split; [exact H1 | split; [exact H2 | exact H3]].
Defined.
